(** * sysist-app: the booking relay, verified against its TypeScript sources

    The development embeds the request handlers of the application (booking
    start, booking outcome webhook, chat send) together with the helpers of
    [lib/openai.ts], and states the properties of the specification over
    them.

    Sources of the modules below.
    - [BookingCallback]: the callback route that verifies
      [x-webhook-signature] (src/unnamed/part_002).
    - [BookingCallbackSecret]: the callback route that compares
      [x-webhook-secret] (second file of src/app/page.tsx).
    - [BookingStart]: src/app/api/booking/start/route.ts.
    - [BookingStartLegacy]: the earlier booking-start route, with
      [isValidE164PhoneNumber] (second file of src/unnamed/part_003).
    - [ChatSend]: the send-message route (first file of src/unnamed/part_005).
    - [OpenAiLib]: src/lib/openai.ts.
    - [OpenAiLegacy]: the earlier [runAssistant] (first file of
      src/unnamed/part_003).
    - [ChatInput]: the message box of the chat page (src/unnamed/part_008).
    - [Schema]: the CHECK constraints of src/supabase/schema.sql.

    Conventions of the embedding.
    - JSON data is the type [json]; a missing property ([undefined]) is [None]
      of [option json].  Numbers are the integral ones (party sizes, call
      durations in seconds).
    - Strings are byte strings; every pattern and literal compared by the
      handlers is ASCII, so the UTF-8 view and the UTF-16 view of JavaScript
      agree on which strings match.
    - A handler is a computation over a [World] (the relational store, the
      console and the count of one-second waits) that ends by returning a
      response or by throwing; what the external services answer is read
      from explicit oracle records.
    - A computation with a loop takes fuel and answers [None] when the fuel
      runs out inside the loop. *)

From Stdlib Require Import RelationClasses.
From Stdlib Require Import String Ascii List ZArith Lia Bool Arith DecimalString.
Import ListNotations.
Open Scope string_scope.

Set Implicit Arguments.
Set Warnings "-register-all".

(* ================================================================= *)
(** ** JavaScript values *)

Module Js.

Inductive json : Type :=
| JNull
| JBool (b : bool)
| JNum (z : Z)
| JStr (s : string)
| JArr (items : list json)
| JObj (fields : list (string * json)).

(** A possibly [undefined] value. *)
Definition value := option json.

(** [Boolean(v)]: the truthiness used by [!v], [a || b] and [if (v)]. *)
Definition truthy (v : value) : bool :=
  match v with
  | None => false
  | Some JNull => false
  | Some (JBool b) => b
  | Some (JNum z) => negb (z =? 0)%Z
  | Some (JStr s) => negb (s =? "")
  | Some (JArr _) => true
  | Some (JObj _) => true
  end.

(** [String(n)] for an integral number, as decimal digits.  This is the
    text JavaScript gives for the safe integers (up to 2^53); beyond them
    JavaScript rounds, and from 1e21 on it prints in exponent form. *)
Definition num_to_string (z : Z) : string := NilZero.string_of_int (Z.to_int z).

(** [String(v)] on a JSON value, which is also what a template literal
    [`${v}`] inserts. *)
Fixpoint json_to_string (v : json) : string :=
  match v with
  | JNull => "null"
  | JBool true => "true"
  | JBool false => "false"
  | JNum z => num_to_string z
  | JStr s => s
  | JArr items =>
      (fix join (l : list json) : string :=
         match l with
         | [] => ""
         | x :: rest =>
             let sx := match x with JNull => "" | _ => json_to_string x end in
             match rest with
             | [] => sx
             | _ :: _ => sx ++ "," ++ join rest
             end
         end) items
  | JObj _ => "[object Object]"
  end.

Definition to_string (v : value) : string :=
  match v with
  | None => "undefined"
  | Some j => json_to_string j
  end.

(** [a || b] *)
Definition or_else (a b : value) : value := if truthy a then a else b.

(** [v === 'lit'] *)
Definition is_string (lit : string) (v : value) : bool :=
  match v with
  | Some (JStr s) => s =? lit
  | _ => false
  end.

(** Property lookup in the entries of an object. *)
Fixpoint assoc {V : Type} (k : string) (fields : list (string * V)) : option V :=
  match fields with
  | [] => None
  | (k', v) :: rest => if k' =? k then Some v else assoc k rest
  end.

(** [o.k] for a JSON value [o] that is not [null]: objects answer from their
    entries, every other value has no such property.  (The property names
    read by the handlers are never array indices or ["length"].) *)
Definition get (k : string) (o : json) : value :=
  match o with
  | JObj fields => assoc k fields
  | _ => None
  end.

(** Assignment [o[k] = v] on the entries of an object under construction: an
    existing key keeps its position, a new key goes last. *)
Fixpoint set_field {V : Type} (k : string) (v : V) (fields : list (string * V))
  : list (string * V) :=
  match fields with
  | [] => [(k, v)]
  | (k', v') :: rest =>
      if k' =? k then (k', v) :: rest else (k', v') :: set_field k v rest
  end.

(** [{ ...base, ...extra }]: the entries of [extra] are assigned in order. *)
Definition assign {V : Type} (base extra : list (string * V)) : list (string * V) :=
  fold_left (fun acc kv => set_field (fst kv) (snd kv) acc) extra base.

Definition defined (kv : string * json) : string * value := (fst kv, Some (snd kv)).

Fixpoint indexed (n : nat) (l : list json) : list (string * json) :=
  match l with
  | [] => []
  | x :: rest => (NilZero.string_of_uint (Nat.to_uint n), x) :: indexed (S n) rest
  end.

Fixpoint chars (s : string) : list json :=
  match s with
  | EmptyString => []
  | String c rest => JStr (String c EmptyString) :: chars rest
  end.

(** The own enumerable properties copied by an object spread [...v]: the
    entries of an object, the elements of an array and the characters of a
    string under their indices, nothing for the other values. *)
Definition spread_entries (v : value) : list (string * json) :=
  match v with
  | Some (JObj fields) => fields
  | Some (JArr items) => indexed 0 items
  | Some (JStr s) => indexed 0 (chars s)
  | _ => []
  end.

(** An object literal [{ k1: v1, ..., kn: vn }] whose values may be
    [undefined]; [JSON.stringify] leaves the undefined ones out. *)
Fixpoint literal (entries : list (string * value)) : list (string * json) :=
  match entries with
  | [] => []
  | (k, Some v) :: rest => (k, v) :: literal rest
  | (_, None) :: rest => literal rest
  end.

End Js.

Import Js.

(* ================================================================= *)
(** ** Regular expressions

    The two phone patterns are regular-expression literals; they are
    transcribed as terms of [re] and run by a derivative matcher.  Both
    literals are anchored by [^] and [$] and carry no flag, so
    [RegExp.prototype.test] holds exactly when the whole string is in the
    language of the pattern. *)

Module Regex.

Inductive re : Type :=
| Void
| Eps
| Cls (p : ascii -> bool)
| Cat (r s : re)
| Alt (r s : re)
| Star (r : re).

Fixpoint nullable (r : re) : bool :=
  match r with
  | Void => false
  | Eps => true
  | Cls _ => false
  | Cat r s => nullable r && nullable s
  | Alt r s => nullable r || nullable s
  | Star _ => true
  end.

Fixpoint deriv (c : ascii) (r : re) : re :=
  match r with
  | Void => Void
  | Eps => Void
  | Cls p => if p c then Eps else Void
  | Cat r s =>
      if nullable r then Alt (Cat (deriv c r) s) (deriv c s)
      else Cat (deriv c r) s
  | Alt r s => Alt (deriv c r) (deriv c s)
  | Star r => Cat (deriv c r) (Star r)
  end.

Fixpoint matches (r : re) (w : list ascii) : bool :=
  match w with
  | [] => nullable r
  | c :: w' => matches (deriv c r) w'
  end.

(** [r{n}] and [r{0,n}], from which [r{lo,hi}] is built. *)
Fixpoint power (r : re) (n : nat) : re :=
  match n with
  | O => Eps
  | S n' => Cat r (power r n')
  end.

Fixpoint upto (r : re) (n : nat) : re :=
  match n with
  | O => Eps
  | S n' => Alt Eps (Cat r (upto r n'))
  end.

Definition Rep (r : re) (lo hi : nat) : re := Cat (power r lo) (upto r (hi - lo)).

(** The language of a pattern. *)
Inductive lang : re -> list ascii -> Prop :=
| L_eps : lang Eps []
| L_cls p c : p c = true -> lang (Cls p) [c]
| L_cat r s u v : lang r u -> lang s v -> lang (Cat r s) (u ++ v)
| L_alt_l r s u : lang r u -> lang (Alt r s) u
| L_alt_r r s u : lang s u -> lang (Alt r s) u
| L_star_nil r : lang (Star r) []
| L_star_cons r u v : lang r u -> lang (Star r) v -> lang (Star r) (u ++ v).

(** [regex.test(s)] for an anchored pattern. *)
Definition test (r : re) (s : string) : bool := matches r (list_ascii_of_string s).

Definition in_range (lo hi : ascii) (c : ascii) : bool :=
  Nat.leb (nat_of_ascii lo) (nat_of_ascii c) && Nat.leb (nat_of_ascii c) (nat_of_ascii hi).

Definition is_char (a : ascii) (c : ascii) : bool := Ascii.eqb a c.

(** [\d] without the unicode flag is [[0-9]]. *)
Definition digit : ascii -> bool := in_range "0" "9".

End Regex.

Import Regex.

(* ================================================================= *)
(** ** Phone-number patterns of the two booking-start handlers *)

(** [/^\+[1-9]\d{1,14}$/], the pattern of [isValidE164PhoneNumber]. *)
Definition e164Regex : re :=
  Cat (Cls (is_char "+")) (Cat (Cls (in_range "1" "9")) (Rep (Cls digit) 1 14)).

Definition isValidE164PhoneNumber (phoneNumber : string) : bool :=
  test e164Regex phoneNumber.

(** [/^\+[1-9]\d{7,14}$/], the pattern of [app/api/booking/start/route.ts]. *)
Definition phoneRegex : re :=
  Cat (Cls (is_char "+")) (Cat (Cls (in_range "1" "9")) (Rep (Cls digit) 7 14)).

(** The shape the specification describes: a leading ["+"], a first digit
    1-9 and [lo]..[hi] further digits. *)
Definition plus_digits (lo hi : nat) (w : list ascii) : Prop :=
  exists d ds,
    w = "+"%char :: d :: ds /\
    in_range "1" "9" d = true /\
    Forall (fun c => digit c = true) ds /\
    lo <= length ds <= hi.

(** The pattern as the specification words it: between 2 and 15 digits in
    all after the ["+"], the first of them not a zero. *)
Definition spec_e164 (s : string) : Prop :=
  plus_digits 1 14 (list_ascii_of_string s).

(* ================================================================= *)
(** ** The relational store *)

Module Db.

Record BookingRow := {
  b_id : string;
  b_user_id : string;
  b_chat_id : string;
  b_call_id : option string;
  b_booking_type : string;
  b_status : string;
  b_details : json;
  b_result : json
}.

Record MessageRow := {
  m_chat_id : string;
  m_role : string;
  m_content : string;
  m_metadata : json
}.

Record ChatRow := {
  c_id : string;
  c_user_id : string;
  c_openai_thread_id : option string
}.

Record Store := {
  bookings : list BookingRow;
  messages : list MessageRow;
  chats : list ChatRow
}.

(** What a query builder resolves to: [{ data, error }]. *)
Record Result (A : Type) := { data : option A; error : option string }.

Definition failed {A} (msg : string) : Result A := {| data := None; error := Some msg |}.
Definition found {A} (a : A) : Result A := {| data := Some a; error := None |}.

(** [.single()]: exactly one row, an error otherwise. *)
Definition single {A} (rows : list A) : Result A :=
  match rows with
  | [r] => found r
  | _ => failed "JSON object requested, multiple (or no) rows returned"
  end.

Definition opt_eqb (a : option string) (s : string) : bool :=
  match a with
  | Some x => x =? s
  | None => false
  end.

Definition bookings_by_call_id (call_id : string) (s : Store) : list BookingRow :=
  filter (fun b => opt_eqb (b_call_id b) call_id) (bookings s).

Definition bookings_by_id_chat (id chat_id : string) (s : Store) : list BookingRow :=
  filter (fun b => (b_id b =? id) && (b_chat_id b =? chat_id)) (bookings s).

Definition chats_by_id (id : string) (s : Store) : list ChatRow :=
  filter (fun c => c_id c =? id) (chats s).

Definition chats_by_id_user (id user_id : string) (s : Store) : list ChatRow :=
  filter (fun c => (c_id c =? id) && (c_user_id c =? user_id)) (chats s).

(** [update(...).eq('id', id)] on bookings. *)
Definition update_bookings (id : string) (f : BookingRow -> BookingRow) (s : Store) : Store :=
  {| bookings := map (fun b => if b_id b =? id then f b else b) (bookings s);
     messages := messages s;
     chats := chats s |}.

Definition update_chats (id : string) (f : ChatRow -> ChatRow) (s : Store) : Store :=
  {| bookings := bookings s;
     messages := messages s;
     chats := map (fun c => if c_id c =? id then f c else c) (chats s) |}.

Definition insert_message (m : MessageRow) (s : Store) : Store :=
  {| bookings := bookings s;
     messages := messages s ++ [m];
     chats := chats s |}.

Definition insert_booking (b : BookingRow) (s : Store) : Store :=
  {| bookings := bookings s ++ [b];
     messages := messages s;
     chats := chats s |}.

Definition set_outcome (status : string) (result : json) (b : BookingRow) : BookingRow :=
  {| b_id := b_id b; b_user_id := b_user_id b; b_chat_id := b_chat_id b;
     b_call_id := b_call_id b; b_booking_type := b_booking_type b;
     b_status := status; b_details := b_details b; b_result := result |}.

Definition set_calling (call_id : string) (b : BookingRow) : BookingRow :=
  {| b_id := b_id b; b_user_id := b_user_id b; b_chat_id := b_chat_id b;
     b_call_id := Some call_id; b_booking_type := b_booking_type b;
     b_status := "calling"; b_details := b_details b; b_result := b_result b |}.

Definition set_thread (thread_id : string) (c : ChatRow) : ChatRow :=
  {| c_id := c_id c; c_user_id := c_user_id c; c_openai_thread_id := Some thread_id |}.

End Db.

Import Db.

(* ================================================================= *)
(** ** Handlers as computations

    A statement of a handler either falls through with a value, returns a
    response from the handler, or throws.  The console keeps, for each call,
    the level and the text of its first argument. *)

Module Runtime.

Record Response := { status : nat; body : json }.

(** A thrown value.  [is_Error] is what [error instanceof Error] answers: the
    error objects of the store client are plain objects. *)
Record Exn := { is_Error : bool; name : string; message : string }.

Definition Error (msg : string) : Exn :=
  {| is_Error := true; name := "Error"; message := msg |}.
Definition TypeError (msg : string) : Exn :=
  {| is_Error := true; name := "TypeError"; message := msg |}.
Definition SyntaxError (msg : string) : Exn :=
  {| is_Error := true; name := "SyntaxError"; message := msg |}.
Definition StoreError (msg : string) : Exn :=
  {| is_Error := false; name := ""; message := msg |}.

(** [String(error)] *)
Definition exn_to_string (e : Exn) : string :=
  if is_Error e then name e ++ ": " ++ message e else "[object Object]".

Inductive Level := LOG | WARN | ERROR.

(** [sleeps] counts the one-second waits ([setTimeout(resolve, 1000)]) the
    request has gone through. *)
Record World := { store : Store; console : list (Level * string); sleeps : nat }.

Inductive Outcome (A : Type) : Type :=
| Next (a : A)
| Return (r : Response)
| Throw (e : Exn).

Arguments Next {A} a.
Arguments Return {A} r.
Arguments Throw {A} e.

Definition M (A : Type) : Type := World -> Outcome A * World.

Definition ret {A} (a : A) : M A := fun w => (Next a, w).

Definition bind {A B} (m : M A) (k : A -> M B) : M B :=
  fun w =>
    match m w with
    | (Next a, w') => k a w'
    | (Return r, w') => (Return r, w')
    | (Throw e, w') => (Throw e, w')
    end.

Definition respond {A} (r : Response) : M A := fun w => (Return r, w).
Definition throw {A} (e : Exn) : M A := fun w => (Throw e, w).

Definition log (l : Level) (text : string) : M unit :=
  fun w => (Next tt, {| store := store w; console := console w ++ [(l, text)];
                        sleeps := sleeps w |}).

(** [await new Promise((resolve) => setTimeout(resolve, 1000))] *)
Definition sleep_1000 : M unit :=
  fun w => (Next tt, {| store := store w; console := console w; sleeps := S (sleeps w) |}).

Definition slept : M nat := fun w => (Next (sleeps w), w).

(** A call to the store: [fault] is an error the store reports on its own
    (network, constraint, access policy), in which case nothing is done;
    otherwise [op] runs on the tables. *)
Definition query {A} (fault : option string) (op : Store -> Result A * Store) : M (Result A) :=
  fun w =>
    match fault with
    | Some msg => (Next (failed msg), w)
    | None =>
        let '(r, s') := op (store w) in
        (Next r, {| store := s'; console := console w; sleeps := sleeps w |})
    end.

Definition try_catch {A} (m : M A) (h : Exn -> M A) : M A :=
  fun w =>
    match m w with
    | (Throw e, w') => h e w'
    | other => other
    end.

Definition when (b : bool) (m : M unit) : M unit := if b then m else ret tt.

(** [NextResponse.json(obj, { status })]. *)
Definition json_response (fields : list (string * value)) (st : nat) : Response :=
  {| status := st; body := JObj (literal fields) |}.

(** A whole route handler, [try { body } catch (error) { on_error }].  An
    exception leaving the handler is answered by the framework with a bare
    500. *)
Definition handler (body : M Response) (on_error : Exn -> M Response)
  : World -> Response * World :=
  fun w =>
    match try_catch body on_error w with
    | (Next r, w') => (r, w')
    | (Return r, w') => (r, w')
    | (Throw _, w') => ({| status := 500; body := JNull |}, w')
    end.

(** The parts of the platform the handlers call. *)
Record Platform := {
  (** [JSON.parse]: the value, or the message of the [SyntaxError]. *)
  JSON_parse : string -> json + string;
  (** [JSON.stringify] *)
  JSON_stringify : json -> string;
  (** [crypto.createHmac('sha256', key).update(data).digest('hex')]. *)
  hmac_sha256_hex : string -> string -> string
}.

Definition parse_json (P : Platform) (text : string) : M json :=
  match JSON_parse P text with
  | inl v => ret v
  | inr msg => throw (SyntaxError msg)
  end.

(** [o.k] where [o] may be [null]: reading a property of [null] throws. *)
Definition prop (k : string) (o : json) : M value :=
  match o with
  | JNull => throw (TypeError ("Cannot read properties of null (reading '" ++ k ++ "')"))
  | _ => ret (get k o)
  end.

(** [const { k, ... } = o], with [source] the text of the right-hand side:
    destructuring [null] throws, naming the first property of the pattern. *)
Definition destructured (k source : string) (o : json) : M value :=
  match o with
  | JNull =>
      throw (TypeError ("Cannot destructure property '" ++ k ++ "' of '" ++ source
                          ++ "' as it is null."))
  | _ => ret (get k o)
  end.

Definition str (s : string) : value := Some (JStr s).
Definition flag (b : bool) : value := Some (JBool b).

Definition str_truthy (o : option string) : bool :=
  match o with
  | Some s => negb (s =? "")
  | None => false
  end.

Definition nl : string := String (ascii_of_nat 10) EmptyString.

End Runtime.

Import Runtime.

(** Computations that contain a loop carry fuel: [None] means the fuel ran
    out before the loop was left. *)
Module Fuel.

Definition MF (A : Type) : Type := World -> option (Outcome A * World).

Definition lift {A} (m : M A) : MF A := fun w => Some (m w).

Definition bindF {A B} (m : MF A) (k : A -> MF B) : MF B :=
  fun w =>
    match m w with
    | None => None
    | Some (Next a, w') => k a w'
    | Some (Return r, w') => Some (Return r, w')
    | Some (Throw e, w') => Some (Throw e, w')
    end.

Definition out_of_fuel {A} : MF A := fun _ => None.

Definition try_catchF {A} (m : MF A) (h : Exn -> MF A) : MF A :=
  fun w =>
    match m w with
    | Some (Throw e, w') => h e w'
    | other => other
    end.

Definition handlerF (body : MF Response) (on_error : Exn -> M Response)
  : World -> option (Response * World) :=
  fun w =>
    match try_catchF body (fun e => lift (on_error e)) w with
    | None => None
    | Some (Next r, w') => Some (r, w')
    | Some (Return r, w') => Some (r, w')
    | Some (Throw _, w') => Some ({| status := 500; body := JNull |}, w')
    end.

End Fuel.

Import Fuel.

Declare Scope fuel_scope.
Delimit Scope fuel_scope with fuel.
Notation "x <- m ;; k" := (bindF m (fun x => k))
  (at level 61, m at next level, right associativity) : fuel_scope.
Notation "m ;; k" := (bindF m (fun _ => k))
  (at level 61, right associativity) : fuel_scope.

Declare Scope handler_scope.
Delimit Scope handler_scope with handler.
Notation "x <- m ;; k" := (bind m (fun x => k))
  (at level 61, m at next level, right associativity) : handler_scope.
Notation "m ;; k" := (bind m (fun _ => k))
  (at level 61, right associativity) : handler_scope.

Open Scope handler_scope.

(* ================================================================= *)
(** ** Booking outcome webhook, signature variant
    ([POST] of the callback route that checks [x-webhook-signature]) *)

Module BookingCallback.

Record Request := { x_webhook_signature : option string; raw_body : string }.

Record Env := { WEBHOOK_SECRET : option string }.

(** The store's own verdict on each of the three calls of the handler. *)
Record Faults := {
  find_fault : option string;
  update_fault : option string;
  insert_fault : option string
}.

Section Handler.

Variable P : Platform.
Variable env : Env.
Variable faults : Faults.

(** Lines 10-34: signature check and parsing of the body. *)
Definition read_callbackData (req : Request) : M json :=
  let signature := x_webhook_signature req in
  let webhookSecret := WEBHOOK_SECRET env in
  match webhookSecret, signature with
  | Some secret, Some sig =>
      if negb (secret =? "") && negb (sig =? "") then
        let body := raw_body req in
        let expectedSignature := hmac_sha256_hex P secret body in
        if negb (sig =? expectedSignature) then
          log ERROR "Invalid webhook signature" ;;
          respond (json_response
                     [("success", flag false); ("error", str "Invalid signature")] 401)
        else
          parse_json P body
      else
        parse_json P (raw_body req)
  | _, _ => parse_json P (raw_body req)
  end.

(** Destructuring [const { ... } = callbackData] throws on [null]. *)
Definition destructure (o : json) : M json :=
  match o with
  | JNull =>
      throw (TypeError "Cannot destructure property 'callId' of 'callbackData' as it is null.")
  | _ => ret o
  end.

(** Line 63. *)
Definition bookingStatus (status : value) : string :=
  if is_string "completed" status then "completed" else "failed".

(** Lines 68-73: [{ transcript, duration, reason, ...result }] as it is
    serialised for the store. *)
Definition resultPayload (transcript duration reason result : value) : json :=
  JObj (literal
          (assign [("transcript", transcript); ("duration", duration); ("reason", reason)]
                  (map defined (spread_entries result)))).

(** Lines 82-112. *)
Definition messageContent (status transcript reason : value) (details : json) : M string :=
  restaurantName <- prop "restaurantName" details ;;
  let businessName :=
    to_string (or_else (or_else restaurantName (get "businessName" details))
                       (str "the business")) in
  ret
    (if is_string "completed" status then
       ("✅ Great news! Your reservation at " ++ businessName
          ++ " is CONFIRMED for " ++ to_string (get "dateTime" details)
          ++ ", party of " ++ to_string (get "partySize" details) ++ ".")
         ++ (if truthy transcript
             then nl ++ nl ++ "Call Summary:" ++ nl ++ to_string transcript
             else "")
     else if is_string "failed" status then
       ("❌ We couldn't complete your booking at " ++ businessName ++ ".")
         ++ (if truthy reason then " Reason: " ++ to_string reason ++ "." else "")
         ++ " Would you like me to try again or try a different time?"
     else if is_string "busy" status then
       "📵 The line was busy when we tried to call " ++ businessName
         ++ ". Would you like me to retry?"
     else if is_string "no-answer" status then
       "📵 There was no answer when we called " ++ businessName
         ++ ". They might be closed or very busy. Would you like to try again later?"
     else
       "ℹ️ The call to " ++ businessName ++ " ended with status: "
         ++ to_string status ++ ".")%string.

Definition on_error (error : Exn) : M Response :=
  log ERROR "Error in booking callback API:" ;;
  ret (json_response
         [("success", flag false);
          ("error", str (if is_Error error then message error
                         else "Internal server error"))] 500).

Definition POST (req : Request) : World -> Response * World :=
  handler
    (callbackData <- read_callbackData req ;;
     o <- destructure callbackData ;;
     let callId := get "callId" o in
     let status := get "status" o in
     let result := get "result" o in
     let transcript := get "transcript" o in
     let duration := get "duration" o in
     let reason := get "reason" o in
     if negb (truthy callId) then
       respond (json_response
                  [("success", flag false); ("error", str "Missing callId")] 400)
     else
       found <- query (find_fault faults)
                  (fun s => (single (bookings_by_call_id (to_string callId) s), s)) ;;
       match error found, data found with
       | None, Some booking =>
           updated <- query (update_fault faults)
                        (fun s => ({| data := Some tt; error := None |},
                                   update_bookings (b_id booking)
                                     (set_outcome (bookingStatus status)
                                        (resultPayload transcript duration reason result))
                                     s)) ;;
           match error updated with
           | Some updateError =>
               log ERROR "Error updating booking:" ;; throw (StoreError updateError)
           | None => ret tt
           end ;;
           content <- messageContent status transcript reason (b_details booking) ;;
           inserted <- query (insert_fault faults)
                         (fun s => ({| data := Some tt; error := None |},
                                    insert_message
                                      {| m_chat_id := b_chat_id booking;
                                         m_role := "system";
                                         m_content := content;
                                         m_metadata :=
                                           JObj (literal
                                                   [("callId", callId);
                                                    ("bookingId", str (b_id booking));
                                                    ("status", status)]) |}
                                      s)) ;;
           match error inserted with
           | Some messageError =>
               log ERROR "Error inserting message:" ;; throw (StoreError messageError)
           | None => ret tt
           end ;;
           log LOG "Booking callback processed:" ;;
           ret (json_response [("success", flag true)] 200)
       | _, _ =>
           log ERROR "Booking not found for callId:" ;;
           respond (json_response
                      [("success", flag false); ("error", str "Booking not found")] 404)
       end)
    on_error.

End Handler.

End BookingCallback.

(* ================================================================= *)
(** ** Booking outcome webhook, shared-secret variant
    ([createSystemMessage] and [POST] of the callback route that compares
    the [x-webhook-secret] header) *)

Module BookingCallbackSecret.

Record Request := { x_webhook_secret : option string; raw_body : string }.

Record Env := { WEBHOOK_SECRET : option string }.

Record Faults := {
  find_fault : option string;
  update_fault : option string;
  insert_fault : option string
}.

(** [result?.reason] *)
Definition opt_chain (k : string) (v : value) : value :=
  match v with
  | None => None
  | Some JNull => None
  | Some o => get k o
  end.

Definition createSystemMessage (status : value) (booking : BookingRow) (result : value)
  : M string :=
  restaurantName <- prop "restaurantName" (b_details booking) ;;
  let phoneNumber := get "phoneNumber" (b_details booking) in
  let dateTime := get "dateTime" (b_details booking) in
  let partySize := get "partySize" (b_details booking) in
  let customerName := get "customerName" (b_details booking) in
  ret
    (if is_string "completed" status || is_string "ended" status then
       "✅ Great news! Your reservation at " ++ to_string restaurantName
         ++ " is CONFIRMED for " ++ to_string dateTime
         ++ ", party of " ++ to_string partySize
         ++ " people under the name " ++ to_string customerName ++ "."
     else if is_string "failed" status then
       let reason := or_else (opt_chain "reason" result) (str "Unknown error") in
       "❌ Sorry, we couldn't complete your booking. " ++ to_string reason
         ++ ". Would you like me to try again or call them directly at "
         ++ to_string phoneNumber ++ "?"
     else if is_string "busy" status then
       "📵 The line was busy. Would you like me to retry in a few minutes?"
     else if is_string "no-answer" status then
       "📵 No one answered. The restaurant might be closed or very busy right now."
     else if is_string "voicemail" status then
       "📧 The call went to voicemail. You may want to call them directly at "
         ++ to_string phoneNumber ++ "."
     else
       "ℹ️ Call status: " ++ to_string status
         ++ ". Please check with the restaurant at " ++ to_string phoneNumber
         ++ " to confirm your reservation.")%string.

Section Handler.

Variable P : Platform.
Variable env : Env.
Variable faults : Faults.

Definition on_error (error : Exn) : M Response :=
  log ERROR "[Booking Callback] Unexpected error at" ;;
  ret (json_response
         [("error", str "Internal server error");
          ("details", str (if is_Error error then message error
                           else exn_to_string error))] 500).

Definition POST (req : Request) : World -> Response * World :=
  handler
    (let webhookSecret := x_webhook_secret req in
     let expectedSecret := WEBHOOK_SECRET env in
     if negb (str_truthy expectedSecret) then
       log ERROR "[Booking Callback] WEBHOOK_SECRET not configured" ;;
       respond (json_response [("error", str "Server configuration error")] 500)
     else if negb (match webhookSecret, expectedSecret with
                   | Some given, Some expected => given =? expected
                   | _, _ => false
                   end) then
       log ERROR "[Booking Callback] Unauthorized webhook attempt at" ;;
       respond (json_response [("error", str "Unauthorized")] 401)
     else
       body <- parse_json P (raw_body req) ;;
       callId <- prop "callId" body ;;
       let status := get "status" body in
       log LOG "[Booking Callback] Received webhook:" ;;
       if negb (truthy callId) || negb (truthy status) then
         log ERROR "[Booking Callback] Missing required fields:" ;;
         respond (json_response
                    [("error", str "Missing required fields: callId and status")] 400)
       else
         log LOG "[Booking Callback] Looking up booking with call_id:" ;;
         found <- query (find_fault faults)
                    (fun s => (single (bookings_by_call_id (to_string callId) s), s)) ;;
         match error found, data found with
         | None, Some booking =>
             log LOG "[Booking Callback] Found booking:" ;;
             let updateResult :=
               JObj (literal
                       (assign
                          [("transcript", or_else (get "transcript" body) (str ""));
                           ("duration", or_else (get "duration" body) (Some (JNum 0)))]
                          (map defined (spread_entries (get "result" body))))) in
             log LOG "[Booking Callback] Updating booking with status:" ;;
             updated <- query (update_fault faults)
                          (fun s => ({| data := Some tt; error := None |},
                                     update_bookings (b_id booking)
                                       (set_outcome (to_string status) updateResult) s)) ;;
             match error updated with
             | Some updateError =>
                 log ERROR "[Booking Callback] Failed to update booking:" ;;
                 respond (json_response
                            [("error", str "Failed to update booking");
                             ("details", str updateError)] 500)
             | None => ret tt
             end ;;
             systemMessage <- createSystemMessage status booking (get "result" body) ;;
             log LOG "[Booking Callback] Created system message:" ;;
             inserted <- query (insert_fault faults)
                           (fun s => ({| data := Some tt; error := None |},
                                      insert_message
                                        {| m_chat_id := b_chat_id booking;
                                           m_role := "system";
                                           m_content := systemMessage;
                                           m_metadata :=
                                             JObj (literal
                                                     [("callId", callId);
                                                      ("bookingId", str (b_id booking));
                                                      ("status", status)]) |}
                                        s)) ;;
             match error inserted with
             | Some _ => log ERROR "[Booking Callback] Failed to insert message:"
             | None => ret tt
             end ;;
             log LOG "[Booking Callback] Webhook processed successfully for callId:" ;;
             ret (json_response [("success", flag true)] 200)
         | _, _ =>
             log ERROR "[Booking Callback] Booking not found for call_id:" ;;
             respond (json_response [("error", str "Booking not found")] 404)
         end)
    on_error.

End Handler.

End BookingCallbackSecret.

(* ================================================================= *)
(** ** Outbound HTTP calls *)

Module Fetch.

Definition AbortError : Exn :=
  {| is_Error := true; name := "AbortError"; message := "This operation was aborted" |}.

(** How [fetch(url, { signal })] settles: it rejects (with [AbortError] when
    the timer of the caller fired first), or resolves with a response. *)
Inductive Settled : Type :=
| Rejected (e : Exn)
| Resolved (ok : bool) (http_status : nat) (statusText : string) (text : string).

End Fetch.

Import Fetch.

(* ================================================================= *)
(** ** Booking start ([app/api/booking/start/route.ts]) *)

Module BookingStart.

Record Request := { raw_body : string }.

Record Env := { MCP_SERVER_URL : option string }.

Record Oracle := {
  chat_fault : option string;
  insert_fault : option string;
  update_fault : option string;
  (** the identifier the store gives the new row *)
  new_booking_id : string;
  (** the call-placing service, reached with a 30000 ms abort timer *)
  mcp_fetch : string -> json -> Z -> Settled;
  (** [Date.now() - startTime] at the end of the request *)
  elapsed_ms : Z
}.

Definition booking_types : list string := ["restaurant"; "hotel"; "taxi"].

(** [['restaurant', 'hotel', 'taxi'].includes(bookingType)] *)
Definition includes (l : list string) (v : value) : bool :=
  existsb (fun s => is_string s v) l.

(** [phoneNumber?.replace(...)], whose result only goes to the console: a
    value that is neither nullish nor a string has no [replace] method.
    [callee] is the text of the expression that is called. *)
Definition mask_for_log (callee : string) (phoneNumber : value) : M unit :=
  match phoneNumber with
  | None | Some JNull | Some (JStr _) => ret tt
  | Some _ => throw (TypeError (callee ++ " is not a function"))
  end.

(** [typeof partySize !== 'number' || partySize < 1 || partySize > 100] *)
Definition invalid_party_size (partySize : value) : bool :=
  match partySize with
  | Some (JNum n) => (n <? 1)%Z || (100 <? n)%Z
  | _ => true
  end.

Definition mcpRequest (phoneNumber bookingType customerName partySize dateTime
                         restaurantName specialRequests : value) : json :=
  JObj (literal
          [("jsonrpc", str "2.0");
           ("method", str "tools/call");
           ("params",
            Some (JObj (literal
                          [("name", str "start_booking_call");
                           ("arguments",
                            Some (JObj (literal
                                          [("phoneNumber", phoneNumber);
                                           ("bookingType", bookingType);
                                           ("customerName", customerName);
                                           ("partySize", partySize);
                                           ("dateTime", dateTime);
                                           ("businessName", restaurantName);
                                           ("specialRequests",
                                            or_else specialRequests (str ""));
                                           ("language", str "en")])))])));
           ("id", Some (JNum 1))]).

Section Handler.

Variable P : Platform.
Variable env : Env.
Variable oracle : Oracle.

Definition on_error (error : Exn) : M Response :=
  log ERROR ("Error in booking start API (after "
               ++ num_to_string (elapsed_ms oracle) ++ "ms):") ;;
  ret (json_response
         [("success", flag false);
          ("error", str (if is_Error error then message error
                         else "Internal server error"))] 500).

(** Lines 86-145: the validations that need no store. *)
Definition validate (chatId userId bookingType restaurantName phoneNumber dateTime
                       partySize customerName : value) : M unit :=
  if negb (truthy chatId) || negb (truthy userId) || negb (truthy bookingType)
     || negb (truthy restaurantName) || negb (truthy phoneNumber)
     || negb (truthy dateTime) || negb (truthy partySize) || negb (truthy customerName)
  then
    log ERROR "Missing required fields:" ;;
    respond (json_response
               [("success", flag false);
                ("error", str "Missing required fields");
                ("details", str "chatId, userId, bookingType, restaurantName, phoneNumber, dateTime, partySize, and customerName are required")]
               400)
  else if negb (includes booking_types bookingType) then
    respond (json_response
               [("success", flag false);
                ("error", str "Invalid booking type");
                ("details", str "bookingType must be one of: restaurant, hotel, taxi")]
               400)
  else if negb (test phoneRegex (to_string phoneNumber)) then
    log ERROR "Invalid phone number format:" ;;
    respond (json_response
               [("success", flag false);
                ("error", str "Invalid phone number format");
                ("details", str "Phone number must be in E.164 format (e.g., +12125551234 or +972501234567)")]
               400)
  else if invalid_party_size partySize then
    respond (json_response
               [("success", flag false);
                ("error", str "Invalid party size");
                ("details", str "Party size must be a number between 1 and 100")]
               400)
  else ret tt.

(** Lines 226-287: the call to the call-placing service and the reading of
    its answer. *)
Definition place_call (mcpServerUrl : string) (request : json) : M value :=
  match mcp_fetch oracle (mcpServerUrl ++ "/mcp") request 30000%Z with
  | Rejected fetchError =>
      if name fetchError =? "AbortError" then
        log ERROR "MCP server request timed out after 30 seconds" ;;
        throw (Error "MCP server request timed out. Please try again.")
      else
        log ERROR "MCP server connection error:" ;;
        throw (Error ("Failed to connect to MCP server: " ++ message fetchError))
  | Resolved ok http_status statusText errorText =>
      if negb ok then
        log ERROR "MCP server HTTP error:" ;;
        throw (Error ("MCP server error (" ++ num_to_string (Z.of_nat http_status) ++ "): "
                        ++ (if errorText =? "" then statusText else errorText)))
      else
        mcpData <- try_catch (parse_json P errorText)
                     (fun _ =>
                        log ERROR "Failed to parse MCP server response" ;;
                        throw (Error "Invalid response from MCP server")) ;;
        log LOG "MCP server response:" ;;
        mcpError <- prop "error" mcpData ;;
        (if truthy mcpError then
           log ERROR "MCP server returned error:" ;;
           message_ <- match mcpError with
                       | Some e => ret (get "message" e)
                       | None => ret None
                       end ;;
           throw (Error ("MCP server error: " ++ to_string message_))
         else ret tt) ;;
        let callId :=
          match get "result" mcpData with
          | None | Some JNull => None
          | Some r => get "callId" r
          end in
        if negb (truthy callId) then
          log ERROR "No callId in MCP server response:" ;;
          throw (Error "MCP server did not return a callId")
        else ret callId
  end.

Definition POST (req : Request) : World -> Response * World :=
  handler
    (body <- parse_json P (raw_body req) ;;
     chatId <- destructured "chatId" "body" body ;;
     let userId := get "userId" body in
     let bookingType := get "bookingType" body in
     let restaurantName := get "restaurantName" body in
     let phoneNumber := get "phoneNumber" body in
     let dateTime := get "dateTime" body in
     let partySize := get "partySize" body in
     let customerName := get "customerName" body in
     let specialRequests := get "specialRequests" body in
     mask_for_log "phoneNumber?.replace" phoneNumber ;;
     log LOG "Booking start request received:" ;;
     validate chatId userId bookingType restaurantName phoneNumber dateTime
              partySize customerName ;;
     chatExists <- query (chat_fault oracle)
                     (fun s => (single (chats_by_id_user (to_string chatId)
                                                         (to_string userId) s), s)) ;;
     match error chatExists, data chatExists with
     | None, Some _ =>
         log LOG "Creating booking record in database..." ;;
         let row :=
           {| b_id := new_booking_id oracle;
              b_user_id := to_string userId;
              b_chat_id := to_string chatId;
              b_call_id := None;
              b_booking_type := to_string bookingType;
              b_status := "initiated";
              b_details :=
                JObj (literal
                        [("restaurantName", restaurantName);
                         ("businessName", restaurantName);
                         ("phoneNumber", phoneNumber);
                         ("dateTime", dateTime);
                         ("partySize", partySize);
                         ("customerName", customerName);
                         ("specialRequests", or_else specialRequests (str ""))]);
              b_result := JObj [] |} in
         created <- query (insert_fault oracle)
                      (fun s => (found row, insert_booking row s)) ;;
         match error created, data created with
         | None, Some booking =>
             log LOG "Booking record created:" ;;
             match MCP_SERVER_URL env with
             | Some mcpServerUrl =>
                 if mcpServerUrl =? "" then
                   log ERROR "MCP_SERVER_URL environment variable not configured" ;;
                   throw (Error "MCP server not configured")
                 else
                   log LOG "Calling MCP server:" ;;
                   callId <- place_call mcpServerUrl
                               (mcpRequest phoneNumber bookingType customerName partySize
                                           dateTime restaurantName specialRequests) ;;
                   log LOG "Call initiated successfully, callId:" ;;
                   updated <- query (update_fault oracle)
                                (fun s => ({| data := Some tt; error := None |},
                                           update_bookings (b_id booking)
                                             (set_calling (to_string callId)) s)) ;;
                   match error updated with
                   | Some _ =>
                       log ERROR "Error updating booking with callId:" ;;
                       log WARN "Booking call initiated but failed to update database status"
                   | None => ret tt
                   end ;;
                   log LOG ("Booking start completed successfully in "
                              ++ num_to_string (elapsed_ms oracle) ++ "ms") ;;
                   ret (json_response
                          [("success", flag true);
                           ("callId", callId);
                           ("bookingId", str (b_id booking))] 200)
             | None =>
                 log ERROR "MCP_SERVER_URL environment variable not configured" ;;
                 throw (Error "MCP server not configured")
             end
         | Some bookingError, _ =>
             log ERROR "Error creating booking record:" ;;
             throw (Error ("Failed to create booking: " ++ bookingError))
         | None, None =>
             throw (TypeError "Cannot read properties of null (reading 'id')")
         end
     | _, _ =>
         log ERROR "Chat not found or access denied:" ;;
         respond (json_response
                    [("success", flag false);
                     ("error", str "Chat not found or access denied")] 404)
     end)
    on_error.

End Handler.

End BookingStart.

(* ================================================================= *)
(** ** Booking start, earlier handler
    ([isValidE164PhoneNumber] and the [POST] that calls it) *)

Module BookingStartLegacy.

Record Request := { raw_body : string }.

Record Env := { MCP_SERVER_URL : option string }.

Record Oracle := {
  insert_fault : option string;
  update_fault : option string;
  new_booking_id : string;
  mcp_fetch : string -> json -> Z -> Settled
}.

Definition requiredFields : list string :=
  ["chatId"; "userId"; "bookingType"; "restaurantName"; "phoneNumber"; "dateTime";
   "partySize"; "customerName"].

(** The loop over [requiredFields]: the first missing one is reported. *)
Fixpoint check_required (fields : list string) (body : json) : M unit :=
  match fields with
  | [] => ret tt
  | field :: rest =>
      if negb (truthy (get field body)) then
        log ERROR ("[Booking Start] Missing required field: " ++ field) ;;
        respond (json_response
                   [("success", flag false);
                    ("error", str ("Missing required field: " ++ field))] 400)
      else check_required rest body
  end.

Section Handler.

Variable P : Platform.
Variable env : Env.
Variable oracle : Oracle.

Definition on_error (error : Exn) : M Response :=
  log ERROR "[Booking Start] Unexpected error:" ;;
  log ERROR "[Booking Start] Failed after:" ;;
  ret (json_response
         [("success", flag false);
          ("error", str "Internal server error");
          ("details", str (if is_Error error then message error
                           else exn_to_string error))] 500).

(** The inner [try]/[catch] around the call to the call-placing service. *)
Definition place_call (mcpServerUrl : string) (request : json) : M json :=
  try_catch
    (match mcp_fetch oracle (mcpServerUrl ++ "/mcp") request 30000%Z with
     | Rejected e => throw e
     | Resolved ok http_status statusText errorText =>
         if negb ok then
           log ERROR "[Booking Start] MCP server error response:" ;;
           throw (Error ("MCP server returned " ++ num_to_string (Z.of_nat http_status)
                           ++ ": " ++ errorText))
         else
           mcpResponse <- parse_json P errorText ;;
           log LOG "[Booking Start] MCP server response:" ;;
           ret mcpResponse
     end)
    (fun error =>
       if is_Error error && (name error =? "AbortError") then
         log ERROR "[Booking Start] MCP server request timeout" ;;
         respond (json_response
                    [("success", flag false);
                     ("error", str "MCP server request timeout after 30 seconds")] 504)
       else
         log ERROR "[Booking Start] MCP server request failed:" ;;
         respond (json_response
                    [("success", flag false);
                     ("error", str "Failed to contact MCP server");
                     ("details", str (if is_Error error then message error
                                      else exn_to_string error))] 502)).

Definition POST (req : Request) : World -> Response * World :=
  handler
    (body <- parse_json P (raw_body req) ;;
     _ <- prop "chatId" body ;;
     BookingStart.mask_for_log "body.phoneNumber?.replace" (get "phoneNumber" body) ;;
     log LOG "[Booking Start] Received request:" ;;
     check_required requiredFields body ;;
     if negb (isValidE164PhoneNumber (to_string (get "phoneNumber" body))) then
       log ERROR "[Booking Start] Invalid phone number format:" ;;
       respond (json_response
                  [("success", flag false);
                   ("error", str "Phone number must be in E.164 format (e.g., +1234567890 or +972501234567)")]
                  400)
     else
       log LOG "[Booking Start] Creating booking record in database..." ;;
       let row :=
         {| b_id := new_booking_id oracle;
            b_user_id := to_string (get "userId" body);
            b_chat_id := to_string (get "chatId" body);
            b_call_id := None;
            b_booking_type := to_string (get "bookingType" body);
            b_status := "initiated";
            b_details :=
              JObj (literal
                      [("restaurantName", get "restaurantName" body);
                       ("phoneNumber", get "phoneNumber" body);
                       ("dateTime", get "dateTime" body);
                       ("partySize", get "partySize" body);
                       ("customerName", get "customerName" body);
                       ("specialRequests",
                        or_else (get "specialRequests" body) (str ""))]);
            b_result := JObj [] |} in
       created <- query (insert_fault oracle)
                    (fun s => (found row, insert_booking row s)) ;;
       match error created, data created with
       | Some bookingError, _ =>
           log ERROR "[Booking Start] Database error:" ;;
           respond (json_response
                      [("success", flag false);
                       ("error", str "Failed to create booking record");
                       ("details", str bookingError)] 500)
       | None, None => throw (TypeError "Cannot read properties of null (reading 'id')")
       | None, Some booking =>
           let bookingId := b_id booking in
           log LOG "[Booking Start] Booking record created:" ;;
           if negb (str_truthy (MCP_SERVER_URL env)) then
             log ERROR "[Booking Start] MCP_SERVER_URL not configured" ;;
             respond (json_response
                        [("success", flag false);
                         ("error", str "MCP server URL not configured")] 500)
           else
             let mcpServerUrl := match MCP_SERVER_URL env with Some u => u | None => "" end in
             log LOG "[Booking Start] Calling MCP server:" ;;
             mcpResponse <- place_call mcpServerUrl
                              (BookingStart.mcpRequest
                                 (get "phoneNumber" body) (get "bookingType" body)
                                 (get "customerName" body) (get "partySize" body)
                                 (get "dateTime" body) (get "restaurantName" body)
                                 (get "specialRequests" body)) ;;
             result <- prop "result" mcpResponse ;;
             let callId :=
               match result with
               | None | Some JNull => None
               | Some r => get "callId" r
               end in
             if negb (truthy callId) then
               log ERROR "[Booking Start] No callId in MCP response:" ;;
               respond (json_response
                          [("success", flag false);
                           ("error", str "MCP server did not return callId")] 500)
             else
               log LOG "[Booking Start] Call initiated with callId:" ;;
               updated <- query (update_fault oracle)
                            (fun s => ({| data := Some tt; error := None |},
                                       update_bookings bookingId
                                         (set_calling (to_string callId)) s)) ;;
               match error updated with
               | Some _ => log ERROR "[Booking Start] Failed to update booking with callId:"
               | None => ret tt
               end ;;
               log LOG "[Booking Start] Success! Duration:" ;;
               ret (json_response
                      [("success", flag true);
                       ("callId", callId);
                       ("bookingId", str bookingId)] 200)
       end)
    on_error.

End Handler.

End BookingStartLegacy.

(* ================================================================= *)
(** ** The conversation service *)

Module Assistants.

Record ToolCall := { tc_id : string; fn_name : string; fn_arguments : string }.

Record Run := {
  run_id : string;
  run_status : string;
  (** [run.required_action?.submit_tool_outputs?.tool_calls] *)
  tool_calls : option (list ToolCall);
  (** [run.last_error?.message] *)
  last_error_message : option string
}.

Inductive Content : Type :=
| Text (text_value : string)
| Other (type : string).

Record ThreadMessage := { tm_id : string; tm_role : string; tm_content : list Content }.

Record ToolOutput := { tool_call_id : string; output : string }.

(** What the service answers to the calls of one request.  [runs_retrieve n]
    is the answer to the status check made after the [n]-th one-second
    wait of the request. *)
Record Service := {
  threads_create : Exn + string;
  messages_create : string -> string -> option Exn;
  runs_create : string -> Exn + Run;
  runs_retrieve : nat -> Exn + Run;
  runs_submitToolOutputs : list ToolOutput -> Exn + Run;
  messages_list : Exn + list ThreadMessage
}.

Definition call {A} (answer : Exn + A) : M A :=
  match answer with
  | inl e => throw e
  | inr a => ret a
  end.

(** [run.status === 'queued' || run.status === 'in_progress'] *)
Definition pending (status : string) : bool :=
  (status =? "queued") || (status =? "in_progress").

(** [content.find((c) => c.type === 'text')] *)
Fixpoint find_text (content : list Content) : option string :=
  match content with
  | [] => None
  | Text v :: _ => Some v
  | Other _ :: rest => find_text rest
  end.

End Assistants.

Import Assistants.

(* ================================================================= *)
(** ** Chat send (the [POST] of the send-message route and its tool handlers) *)

Module ChatSend.

Record Request := { raw_body : string }.

Record Env := { OPENAI_ASSISTANT_ID : option string; NEXTJS_APP_URL : option string }.

Record Oracle := {
  user_insert_fault : option string;
  chat_fault : option string;
  thread_update_fault : option string;
  assistant_insert_fault : option string;
  status_fault : option string;
  (** The booking-start route of the application, reached over HTTP with
      the given body; it writes no table but [bookings]. *)
  booking_api : string -> json -> Store -> Settled * list BookingRow
}.

Definition maxAttempts : nat := 60.

Section Handler.

Variable P : Platform.
Variable env : Env.
Variable oracle : Oracle.
Variable openai : Service.

(** [const { first, ... } = args] *)
Definition destructure (first : string) (args : json) : M json :=
  match args with
  | JNull =>
      throw (TypeError ("Cannot destructure property '" ++ first
                          ++ "' of 'args' as it is null."))
  | _ => ret args
  end.

(** The body posted to the booking-start route (lines 286-296). *)
Definition bookingRequest (a : json) (chatId userId : value) : json :=
  JObj (literal
          [("chatId", chatId);
           ("userId", userId);
           ("bookingType",
            match get "bookingType" a with
            | None => str "restaurant"
            | other => other
            end);
           ("restaurantName", get "restaurantName" a);
           ("phoneNumber", get "phoneNumber" a);
           ("dateTime", get "dateTime" a);
           ("partySize", get "partySize" a);
           ("customerName", get "customerName" a);
           ("specialRequests", get "specialRequests" a)]).

Definition handleStartBookingCall (args : json) (chatId userId : value) : M json :=
  a <- destructure "restaurantName" args ;;
  let restaurantName := get "restaurantName" a in
  let url :=
    (if str_truthy (NEXTJS_APP_URL env)
     then match NEXTJS_APP_URL env with Some u => u | None => "" end
     else "http://localhost:3000") ++ "/api/booking/start" in
  response <- (fun w =>
                 let '(settled, bookings') :=
                   booking_api oracle url (bookingRequest a chatId userId) (store w) in
                 (Next settled,
                  {| store := {| bookings := bookings';
                                 messages := messages (store w);
                                 chats := chats (store w) |};
                     console := console w;
                     sleeps := sleeps w |})) ;;
  match response with
  | Rejected e => throw e
  | Resolved ok _ _ text =>
      if negb ok then throw (Error ("Booking API error: " ++ text))
      else
        result <- parse_json P text ;;
        callId <- prop "callId" result ;;
        ret (JObj (literal
                     [("success", flag true);
                      ("callId", callId);
                      ("bookingId", get "bookingId" result);
                      ("message",
                       str ("Started calling " ++ to_string restaurantName
                              ++ ". You'll be notified when complete."))]))
  end.

Definition handleGetBookingStatus (args : json) (chatId : value) : M json :=
  a <- destructure "bookingId" args ;;
  let bookingId := get "bookingId" a in
  found <- query (status_fault oracle)
             (fun s => (single (bookings_by_id_chat (to_string bookingId)
                                                    (to_string chatId) s), s)) ;;
  match error found, data found with
  | None, Some booking =>
      ret (JObj (literal
                   [("bookingId", str (b_id booking));
                    ("status", str (b_status booking));
                    ("bookingType", str (b_booking_type booking));
                    ("details", Some (b_details booking));
                    ("result", Some (b_result booking))]))
  | _, _ => ret (JObj [("error", JStr "Booking not found")])
  end.

(** The body of the [for] loop of [handleToolCalls]. *)
Definition handleToolCall (toolCall : ToolCall) (chatId userId : value) : M ToolOutput :=
  log LOG "Processing tool call:" ;;
  let functionName := fn_name toolCall in
  functionArgs <- parse_json P (fn_arguments toolCall) ;;
  try_catch
    (output <-
       (if functionName =? "start_booking_call" then
          handleStartBookingCall functionArgs chatId userId
        else if functionName =? "get_booking_status" then
          handleGetBookingStatus functionArgs chatId
        else
          log WARN "Unknown tool call:" ;;
          ret (JObj [("error", JStr ("Unknown function: " ++ functionName))])) ;;
     ret {| tool_call_id := tc_id toolCall; output := JSON_stringify P output |})
    (fun error =>
       log ERROR ("Error executing tool " ++ functionName ++ ":") ;;
       ret {| tool_call_id := tc_id toolCall;
              output :=
                JSON_stringify P
                  (JObj [("error",
                          JStr (if is_Error error then message error
                                else "Tool execution failed"))]) |}).

Fixpoint handleToolCalls_from (toolOutputs : list ToolOutput) (toolCalls : list ToolCall)
                              (chatId userId : value) : M (list ToolOutput) :=
  match toolCalls with
  | [] => ret toolOutputs
  | toolCall :: rest =>
      out <- handleToolCall toolCall chatId userId ;;
      handleToolCalls_from (toolOutputs ++ [out]) rest chatId userId
  end.

Definition handleToolCalls (toolCalls : list ToolCall) (chatId userId : value)
  : M (list ToolOutput) :=
  handleToolCalls_from [] toolCalls chatId userId.

(** [while ((runStatus === 'queued' || runStatus === 'in_progress') &&
    attempts < maxAttempts) { ... }]; [label] is the text of the console line
    of the loop. *)
Fixpoint poll (fuel : nat) (label : string) (run : Run) (attempts : nat) : MF Run :=
  if pending (run_status run) && (attempts <? maxAttempts)%nat then
    match fuel with
    | O => out_of_fuel
    | S fuel' =>
        (lift sleep_1000 ;;
         n <- lift slept ;;
         run' <- lift (call (runs_retrieve openai n)) ;;
         lift (log LOG (label ++ num_to_string (Z.of_nat (S attempts)) ++ "):")) ;;
         poll fuel' label run' (S attempts))%fuel
    end
  else lift (ret run).

Definition on_error (error : Exn) : M Response :=
  log ERROR "Error in chat send API:" ;;
  ret (json_response
         [("success", flag false);
          ("error", str (if is_Error error then message error
                         else "Internal server error"))] 500).

(** Lines 48-78: the thread of the chat, created on first use. *)
Definition get_or_create_thread (chatId : value) : M string :=
  chat <- query (chat_fault oracle)
            (fun s => (single (chats_by_id (to_string chatId) s), s)) ;;
  match error chat with
  | Some chatError => log ERROR "Error fetching chat:" ;; throw (StoreError chatError)
  | None =>
      let threadId :=
        match data chat with
        | Some c => c_openai_thread_id c
        | None => None
        end in
      if str_truthy threadId then
        ret (match threadId with Some t => t | None => "" end)
      else
        log LOG "Creating new OpenAI thread for chat:" ;;
        thread <- call (threads_create openai) ;;
        updated <- query (thread_update_fault oracle)
                     (fun s => ({| data := Some tt; error := None |},
                                update_chats (to_string chatId) (set_thread thread) s)) ;;
        match error updated with
        | Some updateError =>
            log ERROR "Error saving thread ID:" ;; throw (StoreError updateError)
        | None => ret thread
        end
  end.

(** Lines 109-138: tool calls and the second round of polling. *)
Definition after_first_poll (fuel : nat) (run : Run) (chatId userId : value) : MF Run :=
  if run_status run =? "requires_action" then
    (lift (log LOG "Run requires action (tool calls)") ;;
     match tool_calls run with
     | Some (tc :: tcs) =>
         toolOutputs <- lift (handleToolCalls (tc :: tcs) chatId userId) ;;
         run' <- lift (call (runs_submitToolOutputs openai toolOutputs)) ;;
         poll fuel "Run status after tool submission (attempt " run' 0
     | _ => lift (ret run)
     end)%fuel
  else lift (ret run).

(** Lines 140-198. *)
Definition finish (run : Run) (chatId : value) (threadId : string) : M Response :=
  let runStatus := run_status run in
  (if runStatus =? "failed" then
     log ERROR "Assistant run failed:" ;;
     throw (Error ("Assistant run failed: "
                     ++ (if str_truthy (last_error_message run)
                         then match last_error_message run with Some m => m | None => "" end
                         else "Unknown error")))
   else if runStatus =? "expired" then throw (Error "Assistant run expired")
   else if runStatus =? "cancelled" then throw (Error "Assistant run was cancelled")
   else ret tt) ;;
  messages_ <- call (messages_list openai) ;;
  match messages_ with
  | assistantMessage :: _ =>
      if negb (tm_role assistantMessage =? "assistant") then
        throw (Error "No assistant response found")
      else
        match find_text (tm_content assistantMessage) with
        | None => throw (Error "No text content in assistant response")
        | Some assistantResponse =>
            let row :=
              {| m_chat_id := to_string chatId;
                 m_role := "assistant";
                 m_content := assistantResponse;
                 m_metadata := JObj [("thread_id", JStr threadId);
                                     ("run_id", JStr (run_id run))] |} in
            saved <- query (assistant_insert_fault oracle)
                       (fun s => (found row, insert_message row s)) ;;
            match error saved with
            | Some assistantMessageError =>
                log ERROR "Error saving assistant message:" ;;
                throw (StoreError assistantMessageError)
            | None =>
                ret (json_response
                       [("success", flag true);
                        ("message",
                         Some (JObj [("chat_id", JStr (m_chat_id row));
                                     ("role", JStr (m_role row));
                                     ("content", JStr (m_content row));
                                     ("metadata", m_metadata row)]))] 200)
            end
        end
  | [] => throw (Error "No assistant response found")
  end.

(** The row of the user's message (lines 33-39). *)
Definition userRow (chatId message : value) : MessageRow :=
  {| m_chat_id := to_string chatId;
     m_role := "user";
     m_content := to_string message;
     m_metadata := JObj [] |}.

(** Lines 21-106: configuration, the user message, the thread, the run and
    the first round of polling. *)
Definition start_run (fuel : nat) (chatId message : value) : MF (string * Run) :=
  (if negb (str_truthy (OPENAI_ASSISTANT_ID env)) then
     lift (log ERROR "OPENAI_ASSISTANT_ID not configured") ;;
     lift (respond (json_response
                      [("success", flag false);
                       ("error", str "Assistant not configured")] 500))
   else
     userMessage <- lift (query (user_insert_fault oracle)
                            (fun s => (found (userRow chatId message),
                                       insert_message (userRow chatId message) s))) ;;
     match error userMessage with
     | Some userMessageError =>
         lift (log ERROR "Error saving user message:") ;;
         lift (throw (StoreError userMessageError))
     | None =>
         threadId <- lift (get_or_create_thread chatId) ;;
         lift (match messages_create openai threadId (to_string message) with
               | Some e => throw e
               | None => ret tt
               end) ;;
         lift (log LOG "Running assistant:") ;;
         run <- lift (call (runs_create openai threadId)) ;;
         run1 <- poll fuel "Run status (attempt " run 0 ;;
         lift (ret (threadId, run1))
     end)%fuel.

Definition POST (fuel : nat) (req : Request) : World -> option (Response * World) :=
  handlerF
    (body <- lift (parse_json P (raw_body req)) ;;
     chatId <- lift (destructured "chatId" "body" body) ;;
     let userId := get "userId" body in
     let message := get "message" body in
     if negb (truthy chatId) || negb (truthy userId) || negb (truthy message) then
       lift (respond (json_response
                        [("success", flag false);
                         ("error", str "Missing required fields")] 400))
     else
       started <- start_run fuel chatId message ;;
       run2 <- after_first_poll fuel (snd started) chatId userId ;;
       lift (finish run2 chatId (fst started)))%fuel
    on_error.

(** [POST] past the check of the three fields: what the handler does for a
    request that has a chat, a user and a message. *)
Definition accepted (fuel : nat) (c m u : value) : World -> option (Response * World) :=
  handlerF
    (bindF (start_run fuel c m)
       (fun started =>
          bindF (after_first_poll fuel (snd started) c u)
            (fun run2 => lift (finish run2 c (fst started)))))
    on_error.

End Handler.

End ChatSend.

(* ================================================================= *)
(** ** [lib/openai.ts]: [runAssistant] and [handleToolCalls] *)

Module OpenAiLib.

Record AssistantMessage := {
  role : string;
  content : string;
  threadId : string;
  messageId : string;
  runId : string
}.

(** [(toolName, args) => Promise<any>]: a handler returns a value or throws. *)
Definition ToolCallHandler : Type := string -> json -> World -> (Exn + json) * World.

(** A handler that does not wait itself. *)
Definition quiet (handler : ToolCallHandler) : Prop :=
  forall toolName args w, sleeps (snd (handler toolName args w)) = sleeps w.

Definition invoke (handler : ToolCallHandler) (toolName : string) (args : json) : M json :=
  fun w =>
    match handler toolName args w with
    | (inl e, w') => (Throw e, w')
    | (inr v, w') => (Next v, w')
    end.

Record Env := { OPENAI_ASSISTANT_ID : option string }.

Section Lib.

Variable P : Platform.
Variable env : Env.
Variable openai : Service.
(** [now k] is what the [k]-th reading of [Date.now()] returns. *)
Variable now : nat -> Z.

Definition handleToolCall (toolCall : ToolCall) (handler : ToolCallHandler) : M ToolOutput :=
  log LOG "Processing tool call:" ;;
  let functionName := fn_name toolCall in
  match JSON_parse P (fn_arguments toolCall) with
  | inr _ =>
      log ERROR "Failed to parse tool call arguments:" ;;
      ret {| tool_call_id := tc_id toolCall;
             output := JSON_stringify P
                         (JObj [("error", JStr "Failed to parse function arguments")]) |}
  | inl functionArgs =>
      try_catch
        (output <- invoke handler functionName functionArgs ;;
         ret {| tool_call_id := tc_id toolCall; output := JSON_stringify P output |})
        (fun error =>
           log ERROR ("Error executing tool " ++ functionName ++ ":") ;;
           ret {| tool_call_id := tc_id toolCall;
                  output :=
                    JSON_stringify P
                      (JObj [("error",
                              JStr (if is_Error error then message error
                                    else "Tool execution failed"))]) |})
  end.

Fixpoint handleToolCalls_from (toolOutputs : list ToolOutput) (toolCalls : list ToolCall)
                              (handler : ToolCallHandler) : M (list ToolOutput) :=
  match toolCalls with
  | [] => ret toolOutputs
  | toolCall :: rest =>
      out <- handleToolCall toolCall handler ;;
      handleToolCalls_from (toolOutputs ++ [out]) rest handler
  end.

Definition handleToolCalls (toolCalls : list ToolCall) (handler : ToolCallHandler)
  : M (list ToolOutput) :=
  handleToolCalls_from [] toolCalls handler.

(** The polling loop; [reads] counts the readings of the clock made so far
    and [startTime] is the first of them. *)
Fixpoint poll (fuel : nat) (label : string) (maxWaitTime : Z) (startTime : Z)
              (run : Run) (attempts reads : nat) : MF (Run * nat) :=
  if pending (run_status run) then
    match fuel with
    | O => out_of_fuel
    | S fuel' =>
        if (maxWaitTime * 1000 <? now reads - startTime)%Z then
          lift (throw (Error ("Assistant run timed out after "
                                ++ num_to_string maxWaitTime ++ " seconds")))
        else
          (lift sleep_1000 ;;
           n <- lift slept ;;
           run' <- lift (call (runs_retrieve openai n)) ;;
           lift (log LOG (label ++ num_to_string (Z.of_nat (S attempts)) ++ "):")) ;;
           poll fuel' label maxWaitTime startTime run' (S attempts) (S reads))%fuel
    end
  else lift (ret (run, reads)).

Definition wrap_error (error : Exn) : MF AssistantMessage :=
  lift (log ERROR "Error running assistant:" ;;
        throw (Error ("Failed to run assistant: "
                        ++ (if is_Error error then message error else "Unknown error")))).

(** Lines 117-148: the tool calls and the second round of polling, which
    goes on from the same [startTime]. *)
Definition dispatch (fuel : nat) (toolCallHandler : option ToolCallHandler)
                    (maxWaitTime startTime : Z) (run1 : Run) (reads1 : nat) : MF Run :=
  if run_status run1 =? "requires_action" then
    (lift (log LOG "Assistant requires action (tool calls)") ;;
     match toolCallHandler with
     | None => lift (throw (Error "Tool calls required but no handler provided"))
     | Some handler =>
         match tool_calls run1 with
         | Some (tc :: tcs) =>
             toolOutputs <- lift (handleToolCalls (tc :: tcs) handler) ;;
             lift (log LOG "Submitting tool outputs...") ;;
             run' <- lift (call (runs_submitToolOutputs openai toolOutputs)) ;;
             again <- poll fuel "Run status after tool submission (attempt "
                        maxWaitTime startTime run' 0 reads1 ;;
             lift (ret (fst again))
         | _ => lift (ret run1)
         end
     end)%fuel
  else lift (ret run1).

(** Lines 150-199: the final status and the reply. *)
Definition reply (thread : string) (run2 : Run) : M AssistantMessage :=
  let st := run_status run2 in
  (if st =? "failed" then
     log ERROR "Assistant run failed:" ;;
     throw (Error ("Assistant run failed: "
                     ++ (if str_truthy (last_error_message run2)
                         then match last_error_message run2 with
                              | Some m => m
                              | None => ""
                              end
                         else "Unknown error")))
   else if st =? "expired" then throw (Error "Assistant run expired")
   else if st =? "cancelled" then throw (Error "Assistant run was cancelled")
   else if negb (st =? "completed") then throw (Error ("Unexpected run status: " ++ st))
   else ret tt) ;;
  messages_ <- call (messages_list openai) ;;
  match messages_ with
  | assistantMessage :: _ =>
      if negb (tm_role assistantMessage =? "assistant") then
        throw (Error "No assistant response found")
      else
        match find_text (tm_content assistantMessage) with
        | None => throw (Error "No text content in assistant response")
        | Some responseContent =>
            log LOG "Assistant run completed successfully" ;;
            ret {| role := "assistant";
                   content := responseContent;
                   threadId := thread;
                   messageId := tm_id assistantMessage;
                   runId := run_id run2 |}
        end
  | [] => throw (Error "No assistant response found")
  end.

Definition runAssistant (fuel : nat) (thread : string)
                        (toolCallHandler : option ToolCallHandler) (maxWaitTime : Z)
  : MF AssistantMessage :=
  if negb (str_truthy (OPENAI_ASSISTANT_ID env)) then
    lift (throw (Error "OPENAI_ASSISTANT_ID environment variable is not set"))
  else
    try_catchF
      (lift (log LOG "Starting assistant run on thread:") ;;
       run <- lift (call (runs_create openai thread)) ;;
       let startTime := now 0 in
       polled <- poll fuel "Run status (attempt " maxWaitTime startTime run 0 1 ;;
       run2 <- dispatch fuel toolCallHandler maxWaitTime startTime
                 (fst polled) (snd polled) ;;
       lift (reply thread run2))%fuel
      wrap_error.

End Lib.

End OpenAiLib.

(* ================================================================= *)
(** ** The earlier [runAssistant] (no handler argument, no time limit) *)

Module OpenAiLegacy.

Record Env := { OPENAI_ASSISTANT_ID : option string }.

Section Lib.

Variable P : Platform.
Variable env : Env.
Variable openai : Service.

(** [while (run.status === 'queued' || run.status === 'in_progress') { ... }] *)
Fixpoint poll (fuel : nat) (run : Run) : MF Run :=
  if pending (run_status run) then
    match fuel with
    | O => out_of_fuel
    | S fuel' =>
        (lift sleep_1000 ;;
         n <- lift slept ;;
         run' <- lift (call (runs_retrieve openai n)) ;;
         poll fuel' run')%fuel
    end
  else lift (ret run).

Definition placeholder_output (toolCall : ToolCall) : ToolOutput :=
  {| tool_call_id := tc_id toolCall;
     output := JSON_stringify P (JObj [("result", JStr "Tool execution not implemented")]) |}.

(** [while (run.status === 'requires_action') { ... }] *)
Fixpoint act (fuel : nat) (run : Run) : MF Run :=
  if run_status run =? "requires_action" then
    match fuel with
    | O => out_of_fuel
    | S fuel' =>
        (run' <- match tool_calls run with
                 | Some toolCalls =>
                     lift (call (runs_submitToolOutputs openai
                                   (map placeholder_output toolCalls)))
                 | None => lift (ret run)
                 end ;;
         run'' <- poll fuel' run' ;;
         act fuel' run'')%fuel
    end
  else lift (ret run).

Definition runAssistant (fuel : nat) (thread : string) : MF string :=
  if negb (str_truthy (OPENAI_ASSISTANT_ID env)) then
    lift (throw (Error "OPENAI_ASSISTANT_ID environment variable is not set"))
  else
    (run <- lift (call (runs_create openai thread)) ;;
     run1 <- poll fuel run ;;
     run2 <- act fuel run1 ;;
     let failed_ : MF string :=
       lift (throw (Error ("Run failed with status: " ++ run_status run2))) in
     if run_status run2 =? "completed" then
       messages_ <- lift (call (messages_list openai)) ;;
       match messages_ with
       | lastMessage :: _ =>
           if tm_role lastMessage =? "assistant" then
             match tm_content lastMessage with
             | Text v :: _ => lift (ret v)
             | Other _ :: _ => failed_
             | [] => lift (throw (TypeError
                                    "Cannot read properties of undefined (reading 'type')"))
             end
           else failed_
       | [] => failed_
       end
     else failed_)%fuel.

End Lib.

End OpenAiLegacy.

(* ================================================================= *)
(** ** Relations between the world before and after a computation *)

Module Logic.

(** Every run of [m] relates the world it starts in to the one it ends in. *)
Definition stable (R : World -> World -> Prop) {A} (m : M A) : Prop :=
  forall w, R w (snd (m w)).

Definition stableF (R : World -> World -> Prop) {A} (m : MF A) : Prop :=
  forall w o w', m w = Some (o, w') -> R w w'.

(** [m] ends, after at most [n] one-second waits. *)
Definition bounded (n : nat) {A} (m : MF A) : Prop :=
  forall w, exists o w', m w = Some (o, w') /\ sleeps w' <= sleeps w + n.

Definition same_sleeps (w w' : World) : Prop := sleeps w' = sleeps w.

Definition same_store (w w' : World) : Prop := store w' = store w.

Definition same_messages (w w' : World) : Prop :=
  messages (store w') = messages (store w).

(** The chats are as before and the transcript has only grown. *)
Definition extends (w w' : World) : Prop :=
  chats (store w') = chats (store w) /\
  exists tail, messages (store w') = (messages (store w) ++ tail)%list.

End Logic.

Import Logic.

(* ================================================================= *)
(** ** The message templates, as the specification counts them *)

Inductive Template : Type := Completed | Failed | Busy | NoAnswer | Generic.

(** The template a status value stands for: one for each of the four
    recognised values, the generic one for everything else. *)
Definition spec_template (status : value) : Template :=
  if is_string "completed" status then Completed
  else if is_string "failed" status then Failed
  else if is_string "busy" status then Busy
  else if is_string "no-answer" status then NoAnswer
  else Generic.

(** [booking.details.restaurantName || booking.details.businessName ||
    'the business'], as text. *)
Definition businessName_of (details : json) : string :=
  to_string (or_else (or_else (get "restaurantName" details) (get "businessName" details))
                     (str "the business")).

Fixpoint starts_with (p s : string) : bool :=
  match p with
  | EmptyString => true
  | String a p' =>
      match s with
      | EmptyString => false
      | String b s' => Ascii.eqb a b && starts_with p' s'
      end
  end.

(** The template a message text was made from, read off its fixed opening. *)
Definition opening (content : string) : option Template :=
  if starts_with "✅ Great news!" content then Some Completed
  else if starts_with "❌ We couldn't" content then Some Failed
  else if starts_with "📵 The line was busy" content then Some Busy
  else if starts_with "📵 There was no answer" content then Some NoAnswer
  else if starts_with "ℹ️ The call to " content then Some Generic
  else None.

(* ================================================================= *)
(** ** Sample platform and data

    The concrete inputs at which the properties below are exercised.  The
    sample platform parses a fixed table of request texts (written with ['] in
    place of the double quote), prints JSON without escapes, and signs with a
    transparent stand-in for the keyed hash. *)

Module Samples.

Definition dq : string := String (ascii_of_nat 34) EmptyString.

Fixpoint print (v : json) : string :=
  match v with
  | JNull => "null"
  | JBool true => "true"
  | JBool false => "false"
  | JNum z => num_to_string z
  | JStr s => dq ++ s ++ dq
  | JArr items =>
      "[" ++ (fix go (l : list json) : string :=
                match l with
                | [] => ""
                | x :: rest =>
                    match rest with
                    | [] => print x
                    | _ :: _ => print x ++ "," ++ go rest
                    end
                end) items ++ "]"
  | JObj fields =>
      "{" ++ (fix go (l : list (string * json)) : string :=
                match l with
                | [] => ""
                | (k, x) :: rest =>
                    match rest with
                    | [] => dq ++ k ++ dq ++ ":" ++ print x
                    | _ :: _ => dq ++ k ++ dq ++ ":" ++ print x ++ "," ++ go rest
                    end
                end) fields ++ "}"
  end.

Definition notification_busy : json :=
  JObj [("callId", JStr "call-1"); ("status", JStr "busy"); ("transcript", JStr "beep")].

Definition notification_completed : json :=
  JObj [("callId", JStr "call-1"); ("status", JStr "completed");
        ("transcript", JStr "Table booked."); ("duration", JNum 42);
        ("result", JObj [("confirmation", JStr "R-17")])].

Definition notification_bare_completed : json :=
  JObj [("callId", JStr "call-1"); ("status", JStr "completed")].

Definition notification_no_status : json := JObj [("callId", JStr "call-1")].

Definition notification_voicemail : json :=
  JObj [("callId", JStr "call-1"); ("status", JStr "voicemail")].

Definition notification_unknown_call : json :=
  JObj [("callId", JStr "call-9"); ("status", JStr "completed")].

Definition start_body (phone : string) : json :=
  JObj [("chatId", JStr "chat-1"); ("userId", JStr "user-1");
        ("bookingType", JStr "restaurant");
        ("restaurantName", JStr "The Garden Restaurant");
        ("phoneNumber", JStr phone);
        ("dateTime", JStr "2025-01-15 19:00");
        ("partySize", JNum 4);
        ("customerName", JStr "Ada")].

Definition send_body (user : string) : json :=
  JObj [("chatId", JStr "chat-1"); ("userId", JStr user); ("message", JStr "Book a table")].

Definition busy_text : string :=
  "{'callId':'call-1','status':'busy','transcript':'beep'}".
Definition completed_text : string :=
  "{'callId':'call-1','status':'completed','transcript':'Table booked.','duration':42,'result':{'confirmation':'R-17'}}".
Definition bare_completed_text : string := "{'callId':'call-1','status':'completed'}".
Definition no_status_text : string := "{'callId':'call-1'}".
Definition voicemail_text : string := "{'callId':'call-1','status':'voicemail'}".
Definition unknown_call_text : string := "{'callId':'call-9','status':'completed'}".
Definition mcp_ok_text : string := "{'jsonrpc':'2.0','result':{'callId':'call-2'},'id':1}".

Definition texts : list (string * json) :=
  [(busy_text, notification_busy);
   (completed_text, notification_completed);
   (bare_completed_text, notification_bare_completed);
   (no_status_text, notification_no_status);
   (voicemail_text, notification_voicemail);
   (unknown_call_text, notification_unknown_call);
   ("start:+12345", start_body "+12345");
   ("start:+0123456789", start_body "+0123456789");
   ("start:+12125551234", start_body "+12125551234");
   ("send:user-1", send_body "user-1");
   ("send:user-2", send_body "user-2");
   (mcp_ok_text,
    JObj [("jsonrpc", JStr "2.0"); ("result", JObj [("callId", JStr "call-2")]);
          ("id", JNum 1)]);
   ("{}", JObj []);
   ("{'bookingId':'booking-1'}", JObj [("bookingId", JStr "booking-1")])].

Definition platform : Platform :=
  {| JSON_parse := fun text =>
       match assoc text texts with
       | Some v => inl v
       | None => inr "Unexpected token in JSON"
       end;
     JSON_stringify := print;
     hmac_sha256_hex := fun key data => "hmac-sha256(" ++ key ++ "," ++ data ++ ")" |}.

Definition booking : BookingRow :=
  {| b_id := "booking-1";
     b_user_id := "user-1";
     b_chat_id := "chat-1";
     b_call_id := Some "call-1";
     b_booking_type := "restaurant";
     b_status := "calling";
     b_details := JObj [("businessName", JStr "The Garden Restaurant");
                        ("dateTime", JStr "2025-01-15 19:00");
                        ("partySize", JNum 4)];
     b_result := JObj [("confirmation", JStr "R-16")] |}.

Definition chat : ChatRow :=
  {| c_id := "chat-1"; c_user_id := "user-1"; c_openai_thread_id := Some "thread-1" |}.

Definition world : World :=
  {| store := {| bookings := [booking]; messages := []; chats := [chat] |};
     console := [];
     sleeps := 0 |}.

Definition secret : string := "s3cret".

Definition callback_env : BookingCallback.Env :=
  {| BookingCallback.WEBHOOK_SECRET := Some secret |}.


Definition no_faults : BookingCallback.Faults :=
  {| BookingCallback.find_fault := None;
     BookingCallback.update_fault := None;
     BookingCallback.insert_fault := None |}.

Definition insert_fails : BookingCallback.Faults :=
  {| BookingCallback.find_fault := None;
     BookingCallback.update_fault := None;
     BookingCallback.insert_fault := Some "connection reset" |}.

Definition signed (text : string) : BookingCallback.Request :=
  {| BookingCallback.x_webhook_signature := Some (hmac_sha256_hex platform secret text);
     BookingCallback.raw_body := text |}.


Definition unsigned (text : string) : BookingCallback.Request :=
  {| BookingCallback.x_webhook_signature := None;
     BookingCallback.raw_body := text |}.

Definition secret_env : BookingCallbackSecret.Env :=
  {| BookingCallbackSecret.WEBHOOK_SECRET := Some secret |}.

Definition secret_insert_fails : BookingCallbackSecret.Faults :=
  {| BookingCallbackSecret.find_fault := None;
     BookingCallbackSecret.update_fault := None;
     BookingCallbackSecret.insert_fault := Some "connection reset" |}.

Definition with_secret (text : string) : BookingCallbackSecret.Request :=
  {| BookingCallbackSecret.x_webhook_secret := Some secret;
     BookingCallbackSecret.raw_body := text |}.

Definition start_env : BookingStart.Env :=
  {| BookingStart.MCP_SERVER_URL := Some "https://mcp.example" |}.

Definition mcp_answers (url : string) (request : json) (timeout_ms : Z) : Settled :=
  Resolved true 200 "OK" mcp_ok_text.

Definition mcp_times_out (url : string) (request : json) (timeout_ms : Z) : Settled :=
  Rejected AbortError.

Definition start_oracle : BookingStart.Oracle :=
  {| BookingStart.chat_fault := None;
     BookingStart.insert_fault := None;
     BookingStart.update_fault := None;
     BookingStart.new_booking_id := "booking-2";
     BookingStart.mcp_fetch := mcp_answers;
     BookingStart.elapsed_ms := 1200 |}.

Definition start_oracle_timeout : BookingStart.Oracle :=
  {| BookingStart.chat_fault := None;
     BookingStart.insert_fault := None;
     BookingStart.update_fault := None;
     BookingStart.new_booking_id := "booking-2";
     BookingStart.mcp_fetch := mcp_times_out;
     BookingStart.elapsed_ms := 30050 |}.

Definition legacy_env : BookingStartLegacy.Env :=
  {| BookingStartLegacy.MCP_SERVER_URL := Some "https://mcp.example" |}.

Definition legacy_oracle : BookingStartLegacy.Oracle :=
  {| BookingStartLegacy.insert_fault := None;
     BookingStartLegacy.update_fault := None;
     BookingStartLegacy.new_booking_id := "booking-2";
     BookingStartLegacy.mcp_fetch := mcp_answers |}.

Definition send_env : ChatSend.Env :=
  {| ChatSend.OPENAI_ASSISTANT_ID := Some "asst-1";
     ChatSend.NEXTJS_APP_URL := None |}.

Definition send_oracle : ChatSend.Oracle :=
  {| ChatSend.user_insert_fault := None;
     ChatSend.chat_fault := None;
     ChatSend.thread_update_fault := None;
     ChatSend.assistant_insert_fault := None;
     ChatSend.status_fault := None;
     ChatSend.booking_api := fun url request s => (Resolved true 200 "OK" mcp_ok_text, bookings s) |}.

Definition run_in (status : string) (calls : option (list ToolCall)) : Run :=
  {| run_id := "run-1"; run_status := status; tool_calls := calls;
     last_error_message := None |}.

Definition reply : ThreadMessage :=
  {| tm_id := "msg-1"; tm_role := "assistant"; tm_content := [Text "Calling now."] |}.

(** A run that asks for one tool call after thirty seconds and never
    leaves the queue afterwards. *)
Definition slow_service (calls : list ToolCall) : Service :=
  {| threads_create := inr "thread-2";
     messages_create := fun _ _ => None;
     runs_create := fun _ => inr (run_in "queued" None);
     runs_retrieve := fun n =>
       inr (if Nat.eqb n 30 then run_in "requires_action" (Some calls)
            else run_in "queued" None);
     runs_submitToolOutputs := fun _ => inr (run_in "queued" None);
     messages_list := inr [reply] |}.

(** A run that asks for tool calls at once and completes after them. *)
Definition quick_service (calls : list ToolCall) : Service :=
  {| threads_create := inr "thread-2";
     messages_create := fun _ _ => None;
     runs_create := fun _ => inr (run_in "requires_action" (Some calls));
     runs_retrieve := fun _ => inr (run_in "completed" None);
     runs_submitToolOutputs := fun _ => inr (run_in "completed" None);
     messages_list := inr [reply] |}.

(** A run that never leaves the queue. *)
Definition stuck_service : Service :=
  {| threads_create := inr "thread-2";
     messages_create := fun _ _ => None;
     runs_create := fun _ => inr (run_in "queued" None);
     runs_retrieve := fun _ => inr (run_in "queued" None);
     runs_submitToolOutputs := fun _ => inr (run_in "queued" None);
     messages_list := inr [reply] |}.

Definition call_status : ToolCall :=
  {| tc_id := "tc-1"; fn_name := "get_booking_status";
     fn_arguments := "{'bookingId':'booking-1'}" |}.

Definition call_unknown : ToolCall :=
  {| tc_id := "tc-2"; fn_name := "send_flowers"; fn_arguments := "{}" |}.

Definition call_malformed : ToolCall :=
  {| tc_id := "tc-3"; fn_name := "get_booking_status"; fn_arguments := "{'bookingId':" |}.

Definition send_request (user : string) : ChatSend.Request :=
  {| ChatSend.raw_body := "send:" ++ user |}.

Definition lib_env : OpenAiLib.Env := {| OpenAiLib.OPENAI_ASSISTANT_ID := Some "asst-1" |}.

Definition legacy_lib_env : OpenAiLegacy.Env :=
  {| OpenAiLegacy.OPENAI_ASSISTANT_ID := Some "asst-1" |}.

(** A clock that advances one second per reading. *)
Definition ticking (k : nat) : Z := (1000 * Z.of_nat k)%Z.

Definition echo_handler : OpenAiLib.ToolCallHandler :=
  fun toolName args w => (inr (JObj [("tool", JStr toolName)]), w).

End Samples.

(* ================================================================= *)
(** ** Columns of a row that a handler leaves alone *)

Module Columns.

(** [b'] is [b] up to its [status] and [result] columns. *)
Definition outcome_only (b b' : BookingRow) : Prop :=
  b_id b' = b_id b /\ b_user_id b' = b_user_id b /\ b_chat_id b' = b_chat_id b /\
  b_call_id b' = b_call_id b /\ b_booking_type b' = b_booking_type b /\
  b_details b' = b_details b.

End Columns.

(* ================================================================= *)
(** ** Postconditions of computations *)

Module Hoare.

(** [m], run from [w], ends in an outcome and a world that satisfy [Q]. *)
Definition wp {A} (m : M A) (Q : Outcome A -> World -> Prop) (w : World) : Prop :=
  Q (fst (m w)) (snd (m w)).

(** The same for a whole route handler. *)
Definition answers (h : World -> Response * World) (Q : Response -> World -> Prop)
                   (w : World) : Prop :=
  Q (fst (h w)) (snd (h w)).

(** The postcondition a handler body must meet for the handler to answer
    within [Q]: a thrown value goes through [on_error]. *)
Definition caught (on_error : Exn -> M Response) (Q : Response -> World -> Prop)
  : Outcome Response -> World -> Prop :=
  fun o w =>
    match o with
    | Next r | Return r => Q r w
    | Throw e =>
        wp (on_error e)
           (fun o' w' =>
              match o' with
              | Next r | Return r => Q r w'
              | Throw _ => Q {| status := 500; body := JNull |} w'
              end) w
    end.

(** [m] leaves the world as it is and does not return from the handler. *)
Definition pure {A} (m : M A) : Prop :=
  forall w, snd (m w) = w /\ forall r, fst (m w) <> Return r.

End Hoare.

(* ================================================================= *)
(** ** Computations that do not answer the request themselves *)

Module Steady.

(** Every run of [m] relates the world it starts in to the one it ends in
    by [R], and ends by falling through or by throwing, never by returning
    a response from the handler. *)
Definition steady (R : World -> World -> Prop) {A} (m : M A) : Prop :=
  forall w, R w (snd (m w)) /\ forall r, fst (m w) <> Return r.

Definition steadyF (R : World -> World -> Prop) {A} (m : MF A) : Prop :=
  forall w o w', m w = Some (o, w') -> R w w' /\ forall r, o <> Return r.

(** No relation between the worlds is asked for. *)
Definition any_world (w w' : World) : Prop := True.

(** Every value [m] falls through with satisfies [S]. *)
Definition yieldsF {A} (S : A -> Prop) (m : MF A) : Prop :=
  forall w o w', m w = Some (o, w') ->
                 match o with
                 | Next a => S a
                 | _ => True
                 end.

(** Every chat is still there, under the same user, and a chat that had a
    thread has kept it. *)
Definition threads_kept (w w' : World) : Prop :=
  Forall2 (fun c c' =>
             c_id c' = c_id c /\ c_user_id c' = c_user_id c /\
             (str_truthy (c_openai_thread_id c) = true ->
              c_openai_thread_id c' = c_openai_thread_id c))
          (chats (store w)) (chats (store w')).

End Steady.

(* ================================================================= *)
(** ** The message box of the chat page ([ChatInput])

    The text of the box is a JavaScript string, here the list of its
    UTF-16 code units; [onSend] is the list of the texts it was called
    with. *)

Module ChatInput.

(** The code units [String.prototype.trim] strips: the white space and the
    line terminators of ECMAScript (TAB, LF, VT, FF, CR, SP, NBSP, the
    space separators U+1680, U+2000-U+200A, U+202F, U+205F, U+3000, the
    separators U+2028 and U+2029, and U+FEFF). *)
Definition is_white_space (c : N) : bool :=
  existsb (N.eqb c)
    [9; 10; 11; 12; 13; 32; 160; 5760;
     8192; 8193; 8194; 8195; 8196; 8197; 8198; 8199; 8200; 8201; 8202;
     8232; 8233; 8239; 8287; 12288; 65279]%N.

Fixpoint trimStart (s : list N) : list N :=
  match s with
  | [] => []
  | c :: rest => if is_white_space c then trimStart rest else s
  end.

Definition trimEnd (s : list N) : list N := rev (trimStart (rev s)).

Definition trim (s : list N) : list N := trimEnd (trimStart s).

(** A string is truthy when it is not empty. *)
Definition nonempty (s : list N) : bool :=
  match s with
  | [] => false
  | _ :: _ => true
  end.

Record State := { message : list N; onSend : list (list N) }.

Definition handleSend (disabled : bool) (st : State) : State :=
  if nonempty (trim (message st)) && negb disabled then
    {| message := []; onSend := onSend st ++ [trim (message st)] |}
  else st.

Record KeyboardEvent := { key : string; shiftKey : bool }.

(** The state after the key, and whether the default action of the key was
    prevented. *)
Definition handleKeyDown (disabled : bool) (e : KeyboardEvent) (st : State) : State * bool :=
  if (key e =? "Enter") && negb (shiftKey e) then (handleSend disabled st, true)
  else (st, false).

End ChatInput.

(* ================================================================= *)
(** ** What [lib/openai.ts] owes the service for a tool call *)

Module ToolAnswers.

(** [out] answers the call [tc]: it carries its identifier, and when the
    arguments of the call are not JSON it is the parse-error output. *)
Definition answered (P : Platform) (tc : ToolCall) (out : ToolOutput) : Prop :=
  tool_call_id out = tc_id tc /\
  forall msg,
    JSON_parse P (fn_arguments tc) = inr msg ->
    output out
    = JSON_stringify P (JObj [("error", JStr "Failed to parse function arguments")]).

End ToolAnswers.

(* ================================================================= *)
(** ** Computations that do not look at the chats *)

Module Blind.

(** [w] with another chats table. *)
Definition with_chats (cs : list ChatRow) (w : World) : World :=
  {| store := {| bookings := bookings (store w);
                 messages := messages (store w);
                 chats := cs |};
     console := console w;
     sleeps := sleeps w |}.

(** [m] neither reads nor writes the chats: run on another chats table it
    ends in the same outcome, and in the same world up to that table. *)
Definition chat_blind {A} (m : M A) : Prop :=
  forall cs w, m (with_chats cs w) = (fst (m w), with_chats cs (snd (m w))).

End Blind.

(* ================================================================= *)
(** ** The constraints of the schema ([supabase/schema.sql]) *)

Module Schema.

(** [CHECK (booking_type IN ('restaurant', 'hotel', 'taxi'))] *)
Definition booking_type_check (booking_type : string) : bool :=
  existsb (String.eqb booking_type) ["restaurant"; "hotel"; "taxi"].

(** [CHECK (status IN ('initiated', 'calling', 'completed', 'failed'))] *)
Definition status_check (status : string) : bool :=
  existsb (String.eqb status) ["initiated"; "calling"; "completed"; "failed"].

(** [CHECK (role IN ('user', 'assistant', 'system'))] *)
Definition role_check (role : string) : bool :=
  existsb (String.eqb role) ["user"; "assistant"; "system"].

Definition booking_ok (b : BookingRow) : bool :=
  booking_type_check (b_booking_type b) && status_check (b_status b).

Definition message_ok (m : MessageRow) : bool := role_check (m_role m).

Definition store_ok (s : Store) : Prop :=
  Forall (fun b => booking_ok b = true) (bookings s) /\
  Forall (fun m => message_ok m = true) (messages s).

End Schema.

(* ================================================================= *)
(** ** The booking-start request and the row made of it *)

Module BookingRows.

(** The row [app/api/booking/start/route.ts] inserts for a request body
    (lines 168-190), under the identifier the store gives it. *)
Definition row (id : string) (body : json) : BookingRow :=
  {| b_id := id;
     b_user_id := to_string (get "userId" body);
     b_chat_id := to_string (get "chatId" body);
     b_call_id := None;
     b_booking_type := to_string (get "bookingType" body);
     b_status := "initiated";
     b_details :=
       JObj (literal
               [("restaurantName", get "restaurantName" body);
                ("businessName", get "restaurantName" body);
                ("phoneNumber", get "phoneNumber" body);
                ("dateTime", get "dateTime" body);
                ("partySize", get "partySize" body);
                ("customerName", get "customerName" body);
                ("specialRequests", or_else (get "specialRequests" body) (str ""))]);
     b_result := JObj [] |}.

(** The row of the earlier handler, which has no [businessName]. *)
Definition legacy_row (id : string) (body : json) : BookingRow :=
  {| b_id := id;
     b_user_id := to_string (get "userId" body);
     b_chat_id := to_string (get "chatId" body);
     b_call_id := None;
     b_booking_type := to_string (get "bookingType" body);
     b_status := "initiated";
     b_details :=
       JObj (literal
               [("restaurantName", get "restaurantName" body);
                ("phoneNumber", get "phoneNumber" body);
                ("dateTime", get "dateTime" body);
                ("partySize", get "partySize" body);
                ("customerName", get "customerName" body);
                ("specialRequests", or_else (get "specialRequests" body) (str ""))]);
     b_result := JObj [] |}.

(** The request sent to the call-placing service for a body. *)
Definition call_request (body : json) : json :=
  BookingStart.mcpRequest (get "phoneNumber" body) (get "bookingType" body)
    (get "customerName" body) (get "partySize" body) (get "dateTime" body)
    (get "restaurantName" body) (get "specialRequests" body).

(** A body that passes the four validations of lines 86-145. *)
Definition passes_validation (body : json) : Prop :=
  (truthy (get "chatId" body) = true /\ truthy (get "userId" body) = true /\
   truthy (get "bookingType" body) = true /\ truthy (get "restaurantName" body) = true /\
   truthy (get "phoneNumber" body) = true /\ truthy (get "dateTime" body) = true /\
   truthy (get "partySize" body) = true /\ truthy (get "customerName" body) = true) /\
  BookingStart.includes BookingStart.booking_types (get "bookingType" body) = true /\
  test phoneRegex (to_string (get "phoneNumber" body)) = true /\
  BookingStart.invalid_party_size (get "partySize" body) = false.

(** A body that passes the validations of lines 86-145 other than the one
    of the phone number: the required fields, the booking type and the
    party size. *)
Definition passes_other_validations (body : json) : Prop :=
  (truthy (get "chatId" body) = true /\ truthy (get "userId" body) = true /\
   truthy (get "bookingType" body) = true /\ truthy (get "restaurantName" body) = true /\
   truthy (get "phoneNumber" body) = true /\ truthy (get "dateTime" body) = true /\
   truthy (get "partySize" body) = true /\ truthy (get "customerName" body) = true) /\
  BookingStart.includes BookingStart.booking_types (get "bookingType" body) = true /\
  BookingStart.invalid_party_size (get "partySize" body) = false.

(** [mcpData.result?.callId] *)
Definition callId_of (mcpData : json) : value :=
  match get "result" mcpData with
  | None | Some JNull => None
  | Some r => get "callId" r
  end.

End BookingRows.

Module Scenarios.

Definition update_fails : BookingCallback.Faults :=
  {| BookingCallback.find_fault := None;
     BookingCallback.update_fault := Some "row is locked";
     BookingCallback.insert_fault := None |}.

Definition secret_no_faults : BookingCallbackSecret.Faults :=
  {| BookingCallbackSecret.find_fault := None;
     BookingCallbackSecret.update_fault := None;
     BookingCallbackSecret.insert_fault := None |}.

Definition secret_env_unconfigured : BookingCallbackSecret.Env :=
  {| BookingCallbackSecret.WEBHOOK_SECRET := None |}.

Definition with_wrong_secret (text : string) : BookingCallbackSecret.Request :=
  {| BookingCallbackSecret.x_webhook_secret := Some "guess";
     BookingCallbackSecret.raw_body := text |}.

(** A booking whose details name a telephone number. *)
Definition booking_with_phone : BookingRow :=
  {| b_id := "booking-1";
     b_user_id := "user-1";
     b_chat_id := "chat-1";
     b_call_id := Some "call-1";
     b_booking_type := "restaurant";
     b_status := "calling";
     b_details := JObj [("restaurantName", JStr "The Garden Restaurant");
                        ("phoneNumber", JStr "+12125551234");
                        ("dateTime", JStr "2025-01-15 19:00");
                        ("partySize", JNum 4);
                        ("customerName", JStr "Ada")];
     b_result := JObj [] |}.

Definition start_body_as (user : string) : json :=
  JObj [("chatId", JStr "chat-1"); ("userId", JStr user);
        ("bookingType", JStr "restaurant");
        ("restaurantName", JStr "The Garden Restaurant");
        ("phoneNumber", JStr "+12125551234");
        ("dateTime", JStr "2025-01-15 19:00");
        ("partySize", JNum 4);
        ("customerName", JStr "Ada")].

Definition completed_call_2 : json :=
  JObj [("callId", JStr "call-2"); ("status", JStr "completed");
        ("transcript", JStr "Table booked.")].

Definition texts : list (string * json) :=
  [("start as user-2", start_body_as "user-2");
   ("{'callId':'call-2','status':'completed','transcript':'Table booked.'}",
    completed_call_2)].

(** The sample platform, reading a few more request texts. *)
Definition platform : Platform :=
  {| JSON_parse := fun text =>
       match assoc text texts with
       | Some v => inl v
       | None => JSON_parse Samples.platform text
       end;
     JSON_stringify := JSON_stringify Samples.platform;
     hmac_sha256_hex := hmac_sha256_hex Samples.platform |}.

(** A service whose runs require action without naming a tool call. *)
Definition action_without_calls : Service :=
  {| threads_create := inr "thread-2";
     messages_create := fun _ _ => None;
     runs_create := fun _ => inr (Samples.run_in "requires_action" None);
     runs_retrieve := fun _ => inr (Samples.run_in "requires_action" None);
     runs_submitToolOutputs := fun _ => inr (Samples.run_in "completed" None);
     messages_list := inr [Samples.reply] |}.

Definition start_request (text : string) : BookingStart.Request :=
  {| BookingStart.raw_body := text |}.

Definition start_oracle_update_fails : BookingStart.Oracle :=
  {| BookingStart.chat_fault := None;
     BookingStart.insert_fault := None;
     BookingStart.update_fault := Some "connection reset";
     BookingStart.new_booking_id := "booking-2";
     BookingStart.mcp_fetch := Samples.mcp_answers;
     BookingStart.elapsed_ms := 1200 |}.

End Scenarios.


(* ================================================================= *)
(** * Properties *)

Unset Implicit Arguments.

(** ** The derivative matcher decides the language of a pattern *)

Module RegexFacts.

#[local] Open Scope list_scope.

Lemma lang_cat_inv r s w :
  lang (Cat r s) w -> exists u v, w = u ++ v /\ lang r u /\ lang s v.
Proof. intros H; inversion H; subst; eauto. Qed.

Lemma lang_alt_inv r s w : lang (Alt r s) w -> lang r w \/ lang s w.
Proof. intros H; inversion H; subst; auto. Qed.

Lemma lang_eps_inv w : lang Eps w -> w = [].
Proof. intros H; inversion H; reflexivity. Qed.

Lemma lang_cls_inv p w : lang (Cls p) w -> exists c, w = [c] /\ p c = true.
Proof. intros H; inversion H; subst; eauto. Qed.

Lemma lang_void_inv w : ~ lang Void w.
Proof. intros H; inversion H. Qed.

Lemma nullable_lang r : nullable r = true <-> lang r [].
Proof.
  induction r as [| |p|r IHr s IHs|r IHr s IHs|r IHr]; simpl.
  - split; [discriminate | intros H; inversion H].
  - split; [constructor | reflexivity].
  - split; [discriminate | intros H; inversion H].
  - rewrite andb_true_iff, IHr, IHs. split.
    + intros [Hr Hs]. change (@nil ascii) with (@nil ascii ++ []). now constructor.
    + intros H. apply lang_cat_inv in H as (u & v & E & Hu & Hv).
      symmetry in E. apply app_eq_nil in E as [-> ->]. now split.
  - rewrite orb_true_iff, IHr, IHs. split.
    + intros [H | H]; [now apply L_alt_l | now apply L_alt_r].
    + apply lang_alt_inv.
  - split; [constructor | reflexivity].
Qed.

(** A non-empty word of [r*] starts with a non-empty word of [r]. *)
Lemma lang_star_cons_inv r c w :
  lang (Star r) (c :: w) ->
  exists u v, w = u ++ v /\ lang r (c :: u) /\ lang (Star r) v.
Proof.
  intros H. remember (Star r) as sr eqn:Esr. remember (c :: w) as cw eqn:Ecw.
  revert c w Ecw.
  induction H as [| | | | | |r' u v Hu _ Hv IHv]; intros c0 w0 Ecw; try discriminate.
  injection Esr as ->.
  destruct u as [|a u'].
  - simpl in Ecw. now apply IHv.
  - simpl in Ecw. injection Ecw as -> <-. now exists u', v.
Qed.

Lemma deriv_lang c r : forall w, lang (deriv c r) w <-> lang r (c :: w).
Proof.
  induction r as [| |p|r IHr s IHs|r IHr s IHs|r IHr]; intros w; simpl.
  - split; intros H; inversion H.
  - split; intros H; inversion H.
  - destruct (p c) eqn:Hp; split; intros H.
    + apply lang_eps_inv in H as ->. now constructor.
    + apply lang_cls_inv in H as (c' & E & _). injection E as _ ->. constructor.
    + inversion H.
    + apply lang_cls_inv in H as (c' & E & Hc'). injection E as -> _. congruence.
  - assert (Hcat : lang (Cat (deriv c r) s) w -> lang (Cat r s) (c :: w)).
    { intros H. apply lang_cat_inv in H as (u & v & -> & Hu & Hv).
      change (c :: u ++ v) with ((c :: u) ++ v). constructor; [now apply IHr | assumption]. }
    assert (Hinv : lang (Cat r s) (c :: w) ->
                   lang (Cat (deriv c r) s) w \/ (lang r [] /\ lang (deriv c s) w)).
    { intros H. apply lang_cat_inv in H as (u & v & E & Hu & Hv).
      destruct u as [|a u'].
      - simpl in E. subst v. right. split; [assumption | now apply IHs].
      - simpl in E. injection E as <- ->. left. constructor; [now apply IHr | assumption]. }
    destruct (nullable r) eqn:Hn.
    + split.
      * intros H. apply lang_alt_inv in H as [H | H]; [now apply Hcat |].
        change (c :: w) with ([] ++ c :: w). constructor.
        -- now apply nullable_lang.
        -- now apply IHs.
      * intros H. apply Hinv in H as [H | [_ H]]; [now apply L_alt_l | now apply L_alt_r].
    + split; [exact Hcat |].
      intros H. apply Hinv in H as [H | [Hr _]]; [assumption |].
      apply nullable_lang in Hr. congruence.
  - split; intros H.
    + apply lang_alt_inv in H as [H | H];
        [apply L_alt_l; now apply IHr | apply L_alt_r; now apply IHs].
    + apply lang_alt_inv in H as [H | H];
        [apply L_alt_l; now apply IHr | apply L_alt_r; now apply IHs].
  - split; intros H.
    + apply lang_cat_inv in H as (u & v & -> & Hu & Hv).
      change (c :: u ++ v) with ((c :: u) ++ v). constructor; [now apply IHr | assumption].
    + apply lang_star_cons_inv in H as (u & v & -> & Hu & Hv).
      constructor; [now apply IHr | assumption].
Qed.

Theorem matches_lang : forall w r, matches r w = true <-> lang r w.
Proof.
  induction w as [|c w IH]; intros r; simpl.
  - apply nullable_lang.
  - rewrite IH. apply deriv_lang.
Qed.

(** Bounded repetition of a character class. *)

Lemma lang_power_cls p n : forall w,
  lang (power (Cls p) n) w <-> Forall (fun c => p c = true) w /\ length w = n.
Proof.
  induction n as [|n IH]; intros w; simpl.
  - split.
    + intros H. apply lang_eps_inv in H as ->. now split.
    + intros [_ H]. apply length_zero_iff_nil in H as ->. constructor.
  - split.
    + intros H. apply lang_cat_inv in H as (u & v & -> & Hu & Hv).
      apply lang_cls_inv in Hu as (c & -> & Hc). apply IH in Hv as [Hv Hl].
      simpl. split; [now constructor | now rewrite Hl].
    + intros [HF Hl]. destruct w as [|c w]; [discriminate |].
      inversion HF; subst. change (c :: w) with ([c] ++ w).
      constructor; [now constructor |]. apply IH. split; [assumption |].
      simpl in Hl. lia.
Qed.

Lemma lang_upto_cls p n : forall w,
  lang (upto (Cls p) n) w <-> Forall (fun c => p c = true) w /\ length w <= n.
Proof.
  induction n as [|n IH]; intros w; simpl.
  - split.
    + intros H. apply lang_eps_inv in H as ->. split; [constructor | simpl; lia].
    + intros [_ H]. destruct w; [constructor | simpl in H; lia].
  - split.
    + intros H. apply lang_alt_inv in H as [H | H].
      * apply lang_eps_inv in H as ->. split; [constructor | simpl; lia].
      * apply lang_cat_inv in H as (u & v & -> & Hu & Hv).
        apply lang_cls_inv in Hu as (c & -> & Hc). apply IH in Hv as [Hv Hl].
        simpl. split; [now constructor | lia].
    + intros [HF Hl]. destruct w as [|c w].
      * apply L_alt_l. constructor.
      * apply L_alt_r. inversion HF; subst. change (c :: w) with ([c] ++ w).
        constructor; [now constructor |]. apply IH. split; [assumption |].
        simpl in Hl. lia.
Qed.

Lemma lang_rep_cls p lo hi w :
  lo <= hi ->
  lang (Rep (Cls p) lo hi) w <->
  Forall (fun c => p c = true) w /\ lo <= length w <= hi.
Proof.
  intros Hle. unfold Rep. split.
  - intros H. apply lang_cat_inv in H as (u & v & -> & Hu & Hv).
    apply lang_power_cls in Hu as [Hu Hlu]. apply lang_upto_cls in Hv as [Hv Hlv].
    split; [apply Forall_app; now split |]. rewrite length_app. lia.
  - intros [HF [Hlo Hhi]].
    rewrite <- (firstn_skipn lo w). rewrite <- (firstn_skipn lo w) in HF.
    apply Forall_app in HF as [H1 H2]. constructor.
    + apply lang_power_cls. split; [assumption |]. rewrite length_firstn. lia.
    + apply lang_upto_cls. split; [assumption |]. rewrite length_skipn. lia.
Qed.

Lemma lang_phone lo hi w :
  lo <= hi ->
  lang (Cat (Cls (is_char "+")) (Cat (Cls (in_range "1" "9")) (Rep (Cls digit) lo hi))) w
  <-> plus_digits lo hi w.
Proof.
  intros Hle. unfold plus_digits. split.
  - intros H. apply lang_cat_inv in H as (u & v & -> & Hu & Hv).
    apply lang_cls_inv in Hu as (c & -> & Hc).
    apply lang_cat_inv in Hv as (u & v' & -> & Hu & Hv).
    apply lang_cls_inv in Hu as (d & -> & Hd).
    apply (lang_rep_cls _ _ _ _ Hle) in Hv as [HF Hl].
    unfold is_char in Hc. apply Ascii.eqb_eq in Hc. subst c.
    exists d, v'. repeat split; try assumption; lia.
  - intros (d & ds & -> & Hd & HF & Hl).
    change ("+"%char :: d :: ds) with (["+"%char] ++ [d] ++ ds).
    constructor; [constructor; reflexivity |].
    constructor; [now constructor |].
    apply (lang_rep_cls _ _ _ _ Hle). now split.
Qed.

End RegexFacts.

Import RegexFacts.

(** [phoneRegex.test] and [isValidE164PhoneNumber], in the words of the
    specification. *)

Lemma phoneRegex_test s :
  test phoneRegex s = true <-> plus_digits 7 14 (list_ascii_of_string s).
Proof.
  unfold test. rewrite matches_lang. apply lang_phone. lia.
Qed.

Lemma isValidE164PhoneNumber_spec s :
  isValidE164PhoneNumber s = true <-> spec_e164 s.
Proof.
  unfold isValidE164PhoneNumber, test, spec_e164. rewrite matches_lang.
  apply lang_phone. lia.
Qed.

Lemma plus_digits_weaken lo lo' hi w :
  lo' <= lo -> plus_digits lo hi w -> plus_digits lo' hi w.
Proof.
  intros Hle (d & ds & E & Hd & HF & Hl). exists d, ds. repeat split; try assumption; lia.
Qed.


(* ================================================================= *)
(** ** Objects: lookup after assignment, spread and serialisation *)

Module ObjectFacts.

#[local] Open Scope list_scope.

Lemma assoc_set_field {V} (k k' : string) (v : V) fields :
  assoc k' (set_field k v fields) = if (k =? k')%string then Some v else assoc k' fields.
Proof.
  induction fields as [|[k0 v0] rest IH]; simpl.
  - reflexivity.
  - destruct (k0 =? k)%string eqn:E0; simpl.
    + apply String.eqb_eq in E0. subst k0.
      destruct (k =? k')%string; reflexivity.
    + destruct (k0 =? k')%string eqn:E1.
      * apply String.eqb_eq in E1. subst k0.
        rewrite String.eqb_sym, E0. reflexivity.
      * exact IH.
Qed.

Lemma in_keys_set_field {V} (k : string) (v : V) fields x :
  In x (map fst (set_field k v fields)) -> x = k \/ In x (map fst fields).
Proof.
  induction fields as [|[k0 v0] rest IH]; simpl; intros Hx.
  - destruct Hx as [<- | []]. now left.
  - destruct (k0 =? k)%string; simpl in Hx.
    + destruct Hx as [<- | Hx]; auto.
    + destruct Hx as [<- | Hx]; auto. destruct (IH Hx); auto.
Qed.

Lemma keys_set_field {V} (k : string) (v : V) fields :
  NoDup (map fst fields) -> NoDup (map fst (set_field k v fields)).
Proof.
  induction fields as [|[k0 v0] rest IH]; simpl; intros H.
  - constructor; [intros [] | constructor].
  - inversion H; subst. destruct (k0 =? k)%string eqn:E0; simpl.
    + constructor; assumption.
    + constructor; [| now apply IH].
      intros Hx. apply in_keys_set_field in Hx as [-> | Hx]; [| contradiction].
      rewrite String.eqb_refl in E0. discriminate.
Qed.

Lemma keys_assign {V} (extra base : list (string * V)) :
  NoDup (map fst base) -> NoDup (map fst (assign base extra)).
Proof.
  unfold assign. revert base.
  induction extra as [|[k v] rest IH]; simpl; intros base H; [assumption |].
  apply IH. now apply keys_set_field.
Qed.

Lemma assoc_not_in {V} k (fields : list (string * V)) :
  ~ In k (map fst fields) -> assoc k fields = None.
Proof.
  induction fields as [|[k0 v0] rest IH]; simpl; intros H; [reflexivity |].
  destruct (k0 =? k)%string eqn:E.
  - apply String.eqb_eq in E. subst. exfalso. apply H. now left.
  - apply IH. intros Hin. apply H. now right.
Qed.

(** [{ ...base, ...extra }] answers from [extra] first. *)
Lemma assoc_assign {V} k (extra base : list (string * V)) :
  NoDup (map fst extra) ->
  assoc k (assign base extra)
  = match assoc k extra with Some v => Some v | None => assoc k base end.
Proof.
  unfold assign. revert base.
  induction extra as [|[k1 v1] rest IH]; simpl; intros base H; [reflexivity |].
  inversion H; subst. rewrite (IH _ H3). rewrite assoc_set_field.
  destruct (k1 =? k)%string eqn:E; [| reflexivity].
  apply String.eqb_eq in E. subst k1. now rewrite (assoc_not_in _ _ H2).
Qed.

Lemma assoc_map_defined k fields :
  assoc k (map defined fields) = option_map Some (assoc k fields).
Proof.
  induction fields as [|[k0 v0] rest IH]; simpl; [reflexivity |].
  destruct (k0 =? k)%string; [reflexivity | exact IH].
Qed.

Lemma keys_map_defined fields : map fst (map defined fields) = map fst fields.
Proof. induction fields as [|[k0 v0] rest IH]; simpl; congruence. Qed.

(** Serialisation keeps the defined entries. *)
Lemma assoc_literal k (entries : list (string * value)) :
  NoDup (map fst entries) ->
  assoc k (literal entries) = match assoc k entries with Some v => v | None => None end.
Proof.
  induction entries as [|[k0 [v0|]] rest IH]; simpl; intros H; [reflexivity | |];
    inversion H; subst.
  - destruct (k0 =? k)%string; [reflexivity | now apply IH].
  - destruct (k0 =? k)%string eqn:E; [| now apply IH].
    apply String.eqb_eq in E. subst k0. rewrite (IH H3).
    now rewrite (assoc_not_in _ _ H2).
Qed.

End ObjectFacts.

Import ObjectFacts.

(** What the relay stores as [result]: the entries of the notification's
    [result] object first, then its [transcript], [duration] and [reason]. *)
Lemma resultPayload_get transcript duration reason result k :
  NoDup (map fst (spread_entries result)) ->
  get k (BookingCallback.resultPayload transcript duration reason result)
  = match assoc k (spread_entries result) with
    | Some v => Some v
    | None => assoc k (literal [("transcript", transcript); ("duration", duration);
                                ("reason", reason)])
    end.
Proof.
  intros Hkeys. unfold BookingCallback.resultPayload. cbn [get].
  assert (Hbase : NoDup (map fst [("transcript", transcript); ("duration", duration);
                                  ("reason", reason)])).
  { simpl. repeat constructor; simpl; intuition discriminate. }
  rewrite assoc_literal by (apply keys_assign; exact Hbase).
  rewrite assoc_assign by (rewrite keys_map_defined; exact Hkeys).
  rewrite assoc_map_defined.
  destruct (assoc k (spread_entries result)); cbn [option_map]; [reflexivity |].
  symmetry. apply assoc_literal. exact Hbase.
Qed.

(* ================================================================= *)
(** ** Booking outcome webhook (signature variant) *)

(** Case analysis on the innermost scrutinee of the goal. *)
Ltac case_inner :=
  match goal with
  | |- context [match ?x with _ => _ end] =>
      lazymatch x with
      | context [match _ with _ => _ end] => fail
      | _ => destruct x eqn:?
      end
  end.

Ltac run_cases := repeat (case_inner; cbn).

(** Reading the notification leaves the world as it is, unless the
    signature is refused. *)
Lemma read_callbackData_next P env req w o :
  fst (BookingCallback.read_callbackData P env req w) = Next o ->
  BookingCallback.read_callbackData P env req w = (Next o, w).
Proof.
  unfold BookingCallback.read_callbackData, parse_json, bind, log, respond, ret, throw.
  run_cases; intros H; try discriminate; now injection H as ->.
Qed.

Lemma destructure_truthy o w :
  truthy (get "callId" o) = true ->
  BookingCallback.destructure o w = (Next o, w).
Proof. destruct o; try reflexivity. discriminate. Qed.

(** C9.  A notification that passed the signature stage and names a call
    that no booking carries is answered with 404 "Booking not found", and
    the store is left as it was: no Booking row and no Message row is
    written. *)
Theorem C9_unknown_call_not_found P env faults req w o :
  fst (BookingCallback.read_callbackData P env req w) = Next o ->
  truthy (get "callId" o) = true ->
  bookings_by_call_id (to_string (get "callId" o)) (store w) = [] ->
  fst (BookingCallback.POST P env faults req w)
  = json_response [("success", flag false); ("error", str "Booking not found")] 404 /\
  store (snd (BookingCallback.POST P env faults req w)) = store w.
Proof.
  intros Hread Hcall Hnone. apply read_callbackData_next in Hread.
  unfold BookingCallback.POST, handler, try_catch, bind.
  rewrite Hread, (destructure_truthy _ _ Hcall), Hcall. cbn [negb].
  unfold query. destruct (BookingCallback.find_fault faults) as [msg|].
  - cbn. auto.
  - rewrite Hnone. cbn. auto.
Qed.

Lemma C9_unknown_call_not_found_witness :
  fst (BookingCallback.POST Samples.platform Samples.callback_env Samples.no_faults
         (Samples.signed Samples.unknown_call_text) Samples.world)
  = json_response [("success", flag false); ("error", str "Booking not found")] 404 /\
  store (snd (BookingCallback.POST Samples.platform Samples.callback_env Samples.no_faults
                (Samples.signed Samples.unknown_call_text) Samples.world))
  = store Samples.world.
Proof.
  apply (@C9_unknown_call_not_found Samples.platform Samples.callback_env Samples.no_faults
           (Samples.signed Samples.unknown_call_text) Samples.world
           Samples.notification_unknown_call).
  - reflexivity.
  - reflexivity.
  - reflexivity.
Defined.

(** *** Authentication *)


Lemma POST_never_401_after_read P env faults req w o :
  BookingCallback.read_callbackData P env req w = (Next o, w) ->
  status (fst (BookingCallback.POST P env faults req w)) <> 401.
Proof.
  intros Hread.
  unfold BookingCallback.POST, handler, try_catch, bind.
  rewrite Hread.
  unfold BookingCallback.destructure, BookingCallback.messageContent, query, prop, bind,
    log, ret, respond, throw, BookingCallback.on_error.
  run_cases; discriminate.
Qed.





(** *** Status and result payload *)

Lemma POST_bookings_after_update P env faults req w o booking :
  fst (BookingCallback.read_callbackData P env req w) = Next o ->
  truthy (get "callId" o) = true ->
  BookingCallback.find_fault faults = None ->
  bookings_by_call_id (to_string (get "callId" o)) (store w) = [booking] ->
  BookingCallback.update_fault faults = None ->
  bookings (store (snd (BookingCallback.POST P env faults req w)))
  = map (fun b =>
           if (b_id b =? b_id booking)%string
           then set_outcome (BookingCallback.bookingStatus (get "status" o))
                  (BookingCallback.resultPayload (get "transcript" o) (get "duration" o)
                     (get "reason" o) (get "result" o)) b
           else b)
        (bookings (store w)).
Proof.
  intros Hread Hcall Hfind Hrows Hupd. apply read_callbackData_next in Hread.
  unfold BookingCallback.POST, handler, try_catch, bind.
  rewrite Hread, (destructure_truthy _ _ Hcall), Hcall. cbn [negb].
  unfold query. rewrite Hfind, Hrows, Hupd. cbn.
  unfold BookingCallback.messageContent, prop, bind, log, ret, throw.
  run_cases; reflexivity.
Qed.

Lemma bookingStatus_failed status :
  status <> str "completed" -> BookingCallback.bookingStatus status = "failed".
Proof.
  intros H. unfold BookingCallback.bookingStatus, is_string.
  destruct status as [[| | |s| |]|]; try reflexivity.
  destruct (s =? "completed")%string eqn:E; [| reflexivity].
  apply String.eqb_eq in E. subst s. now contradiction H.
Qed.

(** C2 (as amended).  For an accepted notification whose call identifier
    matches one booking, the relay sets the status of that booking to
    "completed" when the notification status is the string "completed" and
    to "failed" otherwise, and replaces its result payload by the object
    [{ transcript, duration, reason, ...result }] of the notification: a key
    of the notification's [result] object (an object has distinct keys) wins
    over its [transcript], [duration] and [reason], absent fields are left
    out, and nothing of the result payload stored before is carried over. *)
Theorem C2_outcome_persisted :
  (forall P env faults req w o booking,
      fst (BookingCallback.read_callbackData P env req w) = Next o ->
      truthy (get "callId" o) = true ->
      BookingCallback.find_fault faults = None ->
      bookings_by_call_id (to_string (get "callId" o)) (store w) = [booking] ->
      BookingCallback.update_fault faults = None ->
      bookings (store (snd (BookingCallback.POST P env faults req w)))
      = map (fun b =>
               if (b_id b =? b_id booking)%string
               then set_outcome (BookingCallback.bookingStatus (get "status" o))
                      (BookingCallback.resultPayload (get "transcript" o)
                         (get "duration" o) (get "reason" o) (get "result" o)) b
               else b)
            (bookings (store w))) /\
  BookingCallback.bookingStatus (str "completed") = "completed" /\
  (forall status,
      status <> str "completed" -> BookingCallback.bookingStatus status = "failed") /\
  (forall transcript duration reason result k,
      NoDup (map fst (spread_entries result)) ->
      get k (BookingCallback.resultPayload transcript duration reason result)
      = match assoc k (spread_entries result) with
        | Some v => Some v
        | None => assoc k (literal [("transcript", transcript); ("duration", duration);
                                    ("reason", reason)])
        end).
Proof.
  split; [| split; [reflexivity | split]].
  - intros. eapply POST_bookings_after_update; eassumption.
  - exact bookingStatus_failed.
  - intros. now apply resultPayload_get.
Qed.

Lemma C2_outcome_persisted_witness :
  bookings (store (snd (BookingCallback.POST Samples.platform Samples.callback_env
                          Samples.no_faults (Samples.signed Samples.completed_text)
                          Samples.world)))
  = [set_outcome "completed"
       (JObj [("transcript", JStr "Table booked."); ("duration", JNum 42);
              ("confirmation", JStr "R-17")])
       Samples.booking] /\
  BookingCallback.bookingStatus (str "busy") = "failed" /\
  get "confirmation"
    (BookingCallback.resultPayload (str "Table booked.") (Some (JNum 42)) None
       (Some (JObj [("confirmation", JStr "R-17")])))
  = Some (JStr "R-17").
Proof.
  destruct C2_outcome_persisted as (Hrow & _ & Hfailed & Hget).
  split; [| split].
  - apply (Hrow Samples.platform Samples.callback_env Samples.no_faults
             (Samples.signed Samples.completed_text) Samples.world
             Samples.notification_completed Samples.booking);
      reflexivity.
  - apply Hfailed. discriminate.
  - apply (Hget (str "Table booked.") (Some (JNum 42)) None
             (Some (JObj [("confirmation", JStr "R-17")])) "confirmation").
    simpl. repeat constructor. intros [].
Defined.

(** The claim as first stated fails: the stored result had a key
    ["confirmation"]; after a notification without a [result] object the key
    is gone. *)
Lemma C2_counterexample :
  get "confirmation" (b_result Samples.booking) = Some (JStr "R-16") /\
  map (fun b => get "confirmation" (b_result b))
      (bookings (store (snd (BookingCallback.POST Samples.platform Samples.callback_env
                               Samples.no_faults
                               (Samples.signed Samples.bare_completed_text)
                               Samples.world))))
  = [None].
Proof. split; reflexivity. Qed.

(** *** Failure of the message insertion *)

(** C3 (as amended).  When the booking update succeeded and the insertion
    of the system message fails, the relay logs the failure, rethrows it and
    answers 500 with [success: false]; the booking keeps its updated status
    and result, and no message is written. *)
Theorem C3_insert_failure_reported P env faults req w o booking messageError :
  fst (BookingCallback.read_callbackData P env req w) = Next o ->
  truthy (get "callId" o) = true ->
  BookingCallback.find_fault faults = None ->
  bookings_by_call_id (to_string (get "callId" o)) (store w) = [booking] ->
  BookingCallback.update_fault faults = None ->
  b_details booking <> JNull ->
  BookingCallback.insert_fault faults = Some messageError ->
  BookingCallback.POST P env faults req w
  = (json_response [("success", flag false); ("error", str "Internal server error")] 500,
     {| store :=
          update_bookings (b_id booking)
            (set_outcome (BookingCallback.bookingStatus (get "status" o))
               (BookingCallback.resultPayload (get "transcript" o) (get "duration" o)
                  (get "reason" o) (get "result" o)))
            (store w);
        console := console w ++ [(ERROR, "Error inserting message:")]
                             ++ [(ERROR, "Error in booking callback API:")];
        sleeps := sleeps w |}).
Proof.
  intros Hread Hcall Hfind Hrows Hupd Hdetails Hins. apply read_callbackData_next in Hread.
  unfold BookingCallback.POST, handler, try_catch, bind.
  rewrite Hread, (destructure_truthy _ _ Hcall), Hcall. cbn [negb].
  unfold query. rewrite Hfind, Hrows, Hupd, Hins. cbn.
  unfold BookingCallback.messageContent, prop, bind, log, ret, throw.
  destruct (b_details booking); try contradiction; cbn; rewrite <- app_assoc; reflexivity.
Qed.

Lemma C3_insert_failure_reported_witness :
  BookingCallback.POST Samples.platform Samples.callback_env Samples.insert_fails
    (Samples.signed Samples.busy_text) Samples.world
  = (json_response [("success", flag false); ("error", str "Internal server error")] 500,
     {| store :=
          {| bookings := [set_outcome "failed" (JObj [("transcript", JStr "beep")])
                            Samples.booking];
             messages := [];
             chats := [Samples.chat] |};
        console := [(ERROR, "Error inserting message:");
                    (ERROR, "Error in booking callback API:")];
        sleeps := 0 |}).
Proof.
  apply (@C3_insert_failure_reported Samples.platform Samples.callback_env
           Samples.insert_fails (Samples.signed Samples.busy_text) Samples.world
           Samples.notification_busy Samples.booking "connection reset");
    try reflexivity.
  discriminate.
Defined.

(** The claim as first stated fails: the answer is a 500, not a success. *)
Lemma C3_counterexample :
  fst (BookingCallback.POST Samples.platform Samples.callback_env Samples.insert_fails
         (Samples.signed Samples.busy_text) Samples.world)
  = {| status := 500;
       body := JObj [("success", JBool false); ("error", JStr "Internal server error")] |}.
Proof. reflexivity. Qed.

(** The shared-secret variant of the relay does what the claim says: the
    failed insertion is logged and the answer is still a success. *)
Lemma BookingCallbackSecret_insert_failure_tolerated :
  let '(response, after) :=
    BookingCallbackSecret.POST Samples.platform Samples.secret_env
      Samples.secret_insert_fails (Samples.with_secret Samples.completed_text)
      Samples.world in
  response = json_response [("success", flag true)] 200 /\
  In (ERROR, "[Booking Callback] Failed to insert message:") (console after) /\
  messages (store after) = [].
Proof. cbn. repeat split. auto 10. Qed.

(** *** Required fields *)

(** A notification without a call identifier is answered with 400. *)
Lemma POST_missing_callId P env faults req w o :
  fst (BookingCallback.read_callbackData P env req w) = Next o ->
  o <> JNull ->
  truthy (get "callId" o) = false ->
  BookingCallback.POST P env faults req w
  = (json_response [("success", flag false); ("error", str "Missing callId")] 400, w).
Proof.
  intros Hread Hnull Hcall. apply read_callbackData_next in Hread.
  unfold BookingCallback.POST, handler, try_catch, bind.
  rewrite Hread.
  assert (Hd : BookingCallback.destructure o w = (Next o, w)).
  { destruct o; try reflexivity. contradiction. }
  rewrite Hd, Hcall. reflexivity.
Qed.

(** A notification without a status is processed like any other: with no
    fault of the store the answer is a success, the booking becomes "failed"
    and the message reports the status "undefined". *)
Lemma POST_missing_status_processed P env req w o booking :
  fst (BookingCallback.read_callbackData P env req w) = Next o ->
  truthy (get "callId" o) = true ->
  get "status" o = None ->
  bookings_by_call_id (to_string (get "callId" o)) (store w) = [booking] ->
  b_details booking <> JNull ->
  let '(response, after) := BookingCallback.POST P env Samples.no_faults req w in
  response = json_response [("success", flag true)] 200 /\
  bookings (store after)
  = bookings (update_bookings (b_id booking)
                (set_outcome "failed"
                   (BookingCallback.resultPayload (get "transcript" o) (get "duration" o)
                      (get "reason" o) (get "result" o)))
                (store w)) /\
  exists row,
    messages (store after) = (messages (store w) ++ [row])%list /\
    m_content row
    = "ℹ️ The call to " ++ businessName_of (b_details booking)
        ++ " ended with status: undefined.".
Proof.
  intros Hread Hcall Hstatus Hrows Hdetails. apply read_callbackData_next in Hread.
  unfold BookingCallback.POST, handler, try_catch, bind.
  rewrite Hread, (destructure_truthy _ _ Hcall), Hcall, Hstatus. cbn [negb].
  unfold query. cbn [Samples.no_faults BookingCallback.find_fault
                       BookingCallback.update_fault BookingCallback.insert_fault].
  rewrite Hrows. cbn.
  unfold BookingCallback.messageContent, prop, bind, log, ret, throw.
  destruct (b_details booking) eqn:Hd; try contradiction; cbn;
    (split; [reflexivity |]); (split; [reflexivity |]); eexists; split; reflexivity.
Qed.

(** C6.  The signature variant of the relay checks the call identifier
    only: a signed notification that has a call identifier and no status is
    not answered with 400.  It is processed, the booking becomes "failed"
    and the message reads "status: undefined". *)
Theorem C6_missing_status_is_processed :
  let '(response, after) :=
    BookingCallback.POST Samples.platform Samples.callback_env Samples.no_faults
      (Samples.signed Samples.no_status_text) Samples.world in
  response = json_response [("success", flag true)] 200 /\
  map b_status (bookings (store after)) = ["failed"] /\
  map m_content (messages (store after))
  = ["ℹ️ The call to The Garden Restaurant ended with status: undefined."].
Proof. cbn. repeat split. Qed.

(** The shared-secret variant rejects the same notification with 400 and
    writes nothing. *)
Lemma BookingCallbackSecret_missing_status_rejected :
  let '(response, after) :=
    BookingCallbackSecret.POST Samples.platform Samples.secret_env
      Samples.secret_insert_fails (Samples.with_secret Samples.no_status_text)
      Samples.world in
  response = json_response [("error", str "Missing required fields: callId and status")] 400 /\
  store after = store Samples.world.
Proof. cbn. split; reflexivity. Qed.

(** *** Message templates *)

Lemma messageContent_next status transcript reason details w :
  details <> JNull ->
  exists content,
    BookingCallback.messageContent status transcript reason details w = (Next content, w).
Proof.
  intros H. unfold BookingCallback.messageContent, prop, bind, ret.
  destruct details; try contradiction; eauto.
Qed.

Lemma messageContent_text status transcript reason details w content :
  fst (BookingCallback.messageContent status transcript reason details w) = Next content ->
  let businessName := businessName_of details in
  content =
    match spec_template status with
    | Completed =>
        ("✅ Great news! Your reservation at " ++ businessName
           ++ " is CONFIRMED for " ++ to_string (get "dateTime" details)
           ++ ", party of " ++ to_string (get "partySize" details) ++ ".")
          ++ (if truthy transcript
              then nl ++ nl ++ "Call Summary:" ++ nl ++ to_string transcript
              else "")
    | Failed =>
        ("❌ We couldn't complete your booking at " ++ businessName ++ ".")
          ++ (if truthy reason then " Reason: " ++ to_string reason ++ "." else "")
          ++ " Would you like me to try again or try a different time?"
    | Busy =>
        "📵 The line was busy when we tried to call " ++ businessName
          ++ ". Would you like me to retry?"
    | NoAnswer =>
        "📵 There was no answer when we called " ++ businessName
          ++ ". They might be closed or very busy. Would you like to try again later?"
    | Generic =>
        "ℹ️ The call to " ++ businessName ++ " ended with status: "
          ++ to_string status ++ "."
    end.
Proof.
  unfold BookingCallback.messageContent, prop, bind, ret, spec_template, businessName_of.
  destruct details; cbn [fst]; intros H; try discriminate H; injection H as <-;
    destruct (is_string "completed" status);
    try destruct (is_string "failed" status);
    try destruct (is_string "busy" status);
    try destruct (is_string "no-answer" status);
    reflexivity.
Qed.

Lemma messageContent_opening status transcript reason details w content :
  fst (BookingCallback.messageContent status transcript reason details w) = Next content ->
  opening content = Some (spec_template status).
Proof.
  intros H. apply messageContent_text in H. cbv zeta in H. subst content.
  destruct (spec_template status); reflexivity.
Qed.

Lemma spec_template_generic status :
  status <> str "completed" -> status <> str "failed" ->
  status <> str "busy" -> status <> str "no-answer" ->
  spec_template status = Generic.
Proof.
  intros H1 H2 H3 H4. unfold spec_template, is_string.
  destruct status as [[| | |s| |]|]; try reflexivity.
  destruct (s =? "completed")%string eqn:E1;
    [apply String.eqb_eq in E1; subst; now contradiction H1 |].
  destruct (s =? "failed")%string eqn:E2;
    [apply String.eqb_eq in E2; subst; now contradiction H2 |].
  destruct (s =? "busy")%string eqn:E3;
    [apply String.eqb_eq in E3; subst; now contradiction H3 |].
  destruct (s =? "no-answer")%string eqn:E4;
    [apply String.eqb_eq in E4; subst; now contradiction H4 |].
  reflexivity.
Qed.

(** C7 (as amended).  The signature variant of the relay has four status
    values with a template of their own, "completed", "failed", "busy" and
    "no-answer"; every other status value, "voicemail" included, gets the
    generic text that ends with "status: X".  The five texts never coincide,
    whatever the booking details, transcript and reason are. *)
Theorem C7_message_templates :
  (forall status transcript reason details w,
      details <> JNull ->
      exists content,
        BookingCallback.messageContent status transcript reason details w
        = (Next content, w) /\
        content =
          match spec_template status with
          | Completed =>
              ("✅ Great news! Your reservation at " ++ businessName_of details
                 ++ " is CONFIRMED for " ++ to_string (get "dateTime" details)
                 ++ ", party of " ++ to_string (get "partySize" details) ++ ".")
                ++ (if truthy transcript
                    then nl ++ nl ++ "Call Summary:" ++ nl ++ to_string transcript
                    else "")
          | Failed =>
              ("❌ We couldn't complete your booking at " ++ businessName_of details ++ ".")
                ++ (if truthy reason then " Reason: " ++ to_string reason ++ "." else "")
                ++ " Would you like me to try again or try a different time?"
          | Busy =>
              "📵 The line was busy when we tried to call " ++ businessName_of details
                ++ ". Would you like me to retry?"
          | NoAnswer =>
              "📵 There was no answer when we called " ++ businessName_of details
                ++ ". They might be closed or very busy. Would you like to try again later?"
          | Generic =>
              "ℹ️ The call to " ++ businessName_of details ++ " ended with status: "
                ++ to_string status ++ "."
          end) /\
  (forall status1 transcript1 reason1 details1 w1 content1
          status2 transcript2 reason2 details2 w2 content2,
      fst (BookingCallback.messageContent status1 transcript1 reason1 details1 w1)
      = Next content1 ->
      fst (BookingCallback.messageContent status2 transcript2 reason2 details2 w2)
      = Next content2 ->
      content1 = content2 ->
      spec_template status1 = spec_template status2) /\
  (spec_template (str "completed") = Completed /\
   spec_template (str "failed") = Failed /\
   spec_template (str "busy") = Busy /\
   spec_template (str "no-answer") = NoAnswer) /\
  (forall status,
      status <> str "completed" -> status <> str "failed" ->
      status <> str "busy" -> status <> str "no-answer" ->
      spec_template status = Generic).
Proof.
  split; [| split; [| split]].
  - intros status transcript reason details w Hd.
    destruct (@messageContent_next status transcript reason details w Hd) as [content Hc].
    exists content. split; [exact Hc |].
    apply (messageContent_text status transcript reason details w).
    now rewrite Hc.
  - intros s1 t1 r1 d1 w1 c1 s2 t2 r2 d2 w2 c2 H1 H2 E.
    apply messageContent_opening in H1, H2. subst c2.
    rewrite H1 in H2. now injection H2.
  - repeat split.
  - exact spec_template_generic.
Qed.

Lemma C7_message_templates_witness :
  (exists content,
      BookingCallback.messageContent (str "voicemail") None None
        (b_details Samples.booking) Samples.world
      = (Next content, Samples.world) /\
      content = "ℹ️ The call to The Garden Restaurant ended with status: voicemail.") /\
  spec_template (str "voicemail") = Generic /\
  spec_template (str "busy") = spec_template (str "busy").
Proof.
  destruct C7_message_templates as (Htext & Hdistinct & _ & Hgeneric).
  split; [| split].
  - apply (Htext (str "voicemail") None None (b_details Samples.booking) Samples.world).
    discriminate.
  - apply Hgeneric; discriminate.
  - apply (Hdistinct (str "busy") None None (b_details Samples.booking) Samples.world
             "📵 The line was busy when we tried to call The Garden Restaurant. Would you like me to retry?"
             (str "busy") (str "ignored") None (b_details Samples.booking) Samples.world
             "📵 The line was busy when we tried to call The Garden Restaurant. Would you like me to retry?");
      reflexivity.
Defined.

(** The claim as first stated fails: "voicemail" has no template of its own,
    its message is the generic one. *)
Lemma C7_counterexample :
  map m_content
      (messages (store (snd (BookingCallback.POST Samples.platform Samples.callback_env
                               Samples.no_faults
                               (Samples.signed Samples.voicemail_text) Samples.world))))
  = ["ℹ️ The call to The Garden Restaurant ended with status: voicemail."] /\
  opening "ℹ️ The call to The Garden Restaurant ended with status: voicemail."
  = Some Generic.
Proof. split; reflexivity. Qed.

(* ================================================================= *)
(** ** Rules for the relations of [Logic] *)

Module LogicFacts.

#[export] Instance same_sleeps_preorder : PreOrder same_sleeps.
Proof. split; unfold same_sleeps; [intros w | intros w1 w2 w3]; congruence. Qed.

#[export] Instance same_store_preorder : PreOrder same_store.
Proof. split; unfold same_store; [intros w | intros w1 w2 w3]; congruence. Qed.

#[export] Instance same_messages_preorder : PreOrder same_messages.
Proof. split; unfold same_messages; [intros w | intros w1 w2 w3]; congruence. Qed.

#[export] Instance extends_preorder : PreOrder extends.
Proof.
  split.
  - intros w. split; [reflexivity |]. exists []. now rewrite app_nil_r.
  - intros w1 w2 w3 [Hc1 [t1 Hm1]] [Hc2 [t2 Hm2]]. split; [congruence |].
    exists (t1 ++ t2)%list. rewrite Hm2, Hm1. now rewrite app_assoc.
Qed.

Section Rules.

Context (R : World -> World -> Prop) `{!PreOrder R}.

Lemma stable_ret {A} (a : A) : stable R (ret a).
Proof. intros w. reflexivity. Qed.

Lemma stable_throw {A} e : stable R (@throw A e).
Proof. intros w. reflexivity. Qed.

Lemma stable_respond {A} r : stable R (@respond A r).
Proof. intros w. reflexivity. Qed.

Lemma stable_bind {A B} (m : M A) (k : A -> M B) :
  stable R m -> (forall a, stable R (k a)) -> stable R (bind m k).
Proof.
  intros Hm Hk w. unfold bind. specialize (Hm w).
  destruct (m w) as [[a|r|e] w1]; cbn in *; try assumption.
  transitivity w1; [exact Hm | apply Hk].
Qed.

Lemma stable_try_catch {A} (m : M A) (h : Exn -> M A) :
  stable R m -> (forall e, stable R (h e)) -> stable R (try_catch m h).
Proof.
  intros Hm Hh w. unfold try_catch. specialize (Hm w).
  destruct (m w) as [[a|r|e] w1]; cbn in *; try assumption.
  transitivity w1; [exact Hm | apply Hh].
Qed.

Lemma stable_call {A} (answer : Exn + A) : stable R (call answer).
Proof. intros w. destruct answer; reflexivity. Qed.

Lemma stableF_lift {A} (m : M A) : stable R m -> stableF R (lift m).
Proof.
  intros Hm w o w' E. unfold lift in E. injection E as E. specialize (Hm w).
  rewrite E in Hm. exact Hm.
Qed.

Lemma stableF_bind {A B} (m : MF A) (k : A -> MF B) :
  stableF R m -> (forall a, stableF R (k a)) -> stableF R (bindF m k).
Proof.
  intros Hm Hk w o w' E. unfold bindF in E.
  destruct (m w) as [[[a|r|e] w1]|] eqn:Em; try discriminate.
  - transitivity w1; [eapply Hm; exact Em | eapply Hk; exact E].
  - injection E as <- <-. eapply Hm; exact Em.
  - injection E as <- <-. eapply Hm; exact Em.
Qed.

End Rules.

(** Termination within a number of waits. *)

Lemma bounded_lift {A} (m : M A) : stable same_sleeps m -> bounded 0 (lift m).
Proof.
  intros Hm w. destruct (m w) as [o w'] eqn:E. exists o, w'. split.
  - unfold lift. now rewrite E.
  - specialize (Hm w). rewrite E in Hm. unfold same_sleeps in Hm. cbn in Hm. lia.
Qed.

Lemma bounded_bind {A B} n k (m : MF A) (f : A -> MF B) :
  bounded n m -> (forall a, bounded k (f a)) -> bounded (n + k) (bindF m f).
Proof.
  intros Hm Hf w. destruct (Hm w) as (o & w1 & E & Hle). unfold bindF. rewrite E.
  destruct o as [a|r|e].
  - destruct (Hf a w1) as (o2 & w2 & E2 & Hle2). exists o2, w2. split; [exact E2 | lia].
  - exists (Return r), w1. split; [reflexivity | lia].
  - exists (Throw e), w1. split; [reflexivity | lia].
Qed.

Lemma bounded_weaken {A} n n' (m : MF A) : n <= n' -> bounded n m -> bounded n' m.
Proof.
  intros Hle Hm w. destruct (Hm w) as (o & w' & E & H). exists o, w'. split; [exact E | lia].
Qed.

Lemma same_store_extends w w' : same_store w w' -> extends w w'.
Proof. unfold same_store. intros H. split; [now rewrite H |]. exists []. now rewrite H, app_nil_r. Qed.

Lemma same_store_messages w w' : same_store w w' -> same_messages w w'.
Proof. unfold same_store, same_messages. now intros ->. Qed.

Lemma log_stable R `{!PreOrder R} l text :
  (forall w c, R w {| store := store w; console := c; sleeps := sleeps w |}) ->
  stable R (log l text).
Proof. intros H w. apply H. Qed.

Lemma log_sleeps l text : stable same_sleeps (log l text).
Proof. intros w. reflexivity. Qed.

Lemma log_extends l text : stable extends (log l text).
Proof. intros w. apply same_store_extends. reflexivity. Qed.

Lemma log_messages l text : stable same_messages (log l text).
Proof. intros w. reflexivity. Qed.

Lemma query_sleeps {A} fault (op : Store -> Result A * Store) :
  stable same_sleeps (query fault op).
Proof.
  intros w. unfold query. destruct fault; [reflexivity |].
  destruct (op (store w)). reflexivity.
Qed.

End LogicFacts.

Import LogicFacts.

(* ================================================================= *)
(** ** Booking start: phone-number validation *)

Lemma validate_outcome chatId userId bookingType restaurantName phoneNumber dateTime
      partySize customerName w :
  match BookingStart.validate chatId userId bookingType restaurantName phoneNumber
          dateTime partySize customerName w with
  | (Next _, w') =>
      store w' = store w /\ test phoneRegex (to_string phoneNumber) = true
  | (Return r, w') => status r = 400 /\ store w' = store w
  | (Throw _, _) => False
  end.
Proof.
  unfold BookingStart.validate.
  repeat match goal with
         | |- context [if ?b then _ else _] => destruct b eqn:?
         end; cbn; auto.
  split; [reflexivity |]. now apply negb_false_iff.
Qed.

Lemma check_required_outcome fields body w :
  match BookingStartLegacy.check_required fields body w with
  | (Next _, w') => w' = w
  | (Return r, w') => status r = 400 /\ store w' = store w
  | (Throw _, _) => False
  end.
Proof.
  induction fields as [|field rest IH]; cbn; [reflexivity |].
  destruct (negb (truthy (get field body))); cbn; auto.
Qed.

(** The current handler answers 400 and leaves the store as it was when the
    phone number is outside [^\+[1-9]\d{7,14}$]. *)
Lemma BookingStart_rejects_phone P env oracle req w body s :
  JSON_parse P (BookingStart.raw_body req) = inl body ->
  get "phoneNumber" body = Some (JStr s) ->
  ~ plus_digits 7 14 (list_ascii_of_string s) ->
  status (fst (BookingStart.POST P env oracle req w)) = 400 /\
  store (snd (BookingStart.POST P env oracle req w)) = store w.
Proof.
  intros Hparse Hphone Hshape.
  assert (Htest : test phoneRegex s = false).
  { destruct (test phoneRegex s) eqn:E; [| reflexivity].
    apply phoneRegex_test in E. contradiction. }
  unfold BookingStart.POST, handler, try_catch, bind, parse_json.
  rewrite Hparse.
  destruct body; try discriminate.
  cbn [destructured ret]. rewrite Hphone.
  cbn [BookingStart.mask_for_log ret log].
  match goal with
  | |- context [BookingStart.validate ?a ?b ?c ?d ?e ?f ?g ?h ?w0] =>
      pose proof (validate_outcome a b c d e f g h w0) as Hv;
      destruct (BookingStart.validate a b c d e f g h w0) as [[u|r|e0] w1]
  end.
  - destruct Hv as [_ Hv]. cbn [to_string json_to_string] in Hv. congruence.
  - cbn. exact Hv.
  - contradiction.
Qed.

(** The earlier handler does the same for numbers outside
    [^\+[1-9]\d{1,14}$]. *)
Lemma BookingStartLegacy_rejects_phone P env oracle req w body s :
  JSON_parse P (BookingStartLegacy.raw_body req) = inl body ->
  get "phoneNumber" body = Some (JStr s) ->
  ~ spec_e164 s ->
  status (fst (BookingStartLegacy.POST P env oracle req w)) = 400 /\
  store (snd (BookingStartLegacy.POST P env oracle req w)) = store w.
Proof.
  intros Hparse Hphone Hshape.
  assert (Htest : isValidE164PhoneNumber s = false).
  { destruct (isValidE164PhoneNumber s) eqn:E; [| reflexivity].
    apply isValidE164PhoneNumber_spec in E. contradiction. }
  unfold BookingStartLegacy.POST, handler, try_catch, bind, parse_json.
  rewrite Hparse.
  destruct body; try discriminate.
  cbn [prop ret]. rewrite Hphone.
  cbn [BookingStart.mask_for_log ret log].
  match goal with
  | |- context [BookingStartLegacy.check_required ?a ?b ?w0] =>
      pose proof (check_required_outcome a b w0) as Hv;
      destruct (BookingStartLegacy.check_required a b w0) as [[u|r|e0] w1]
  end.
  - subst w1. cbn [to_string json_to_string]. rewrite Htest. cbn. auto.
  - cbn. exact Hv.
  - contradiction.
Qed.


(* ================================================================= *)
(** ** Chat send *)

Module ChatSendFacts.

Import ChatSend.

(** Closes a goal [R w w'] where [w'] is [w] with some fields replaced. *)
Ltac related :=
  cbn;
  first
    [ reflexivity
    | split; cbn; [reflexivity |];
      first [ exists []; now rewrite app_nil_r | eexists; reflexivity ] ].

(** Unfolds a loop-free computation and inspects every branch. *)
Ltac brute :=
  intros w;
  unfold handleToolCall, handleStartBookingCall, handleGetBookingStatus, destructure,
    get_or_create_thread, finish, on_error, parse_json, query, prop, call,
    try_catch, bind, log, ret, respond, throw;
  run_cases; related.

Section Facts.

Variable P : Platform.
Variable env : Env.
Variable oracle : Oracle.
Variable openai : Service.

Lemma handleToolCall_sleeps tc c u :
  stable same_sleeps (handleToolCall P env oracle tc c u).
Proof. unfold same_sleeps. brute. Qed.

Lemma handleToolCall_extends tc c u :
  stable extends (handleToolCall P env oracle tc c u).
Proof. unfold extends. brute. Qed.

Lemma handleToolCalls_from_stable R `{!PreOrder R} c u :
  (forall tc, stable R (handleToolCall P env oracle tc c u)) ->
  forall tcs acc, stable R (handleToolCalls_from P env oracle acc tcs c u).
Proof.
  intros Hcall. induction tcs as [|tc tcs IH]; intros acc; simpl.
  - now apply stable_ret.
  - apply stable_bind; auto.
Qed.

Lemma handleToolCalls_sleeps tcs c u :
  stable same_sleeps (handleToolCalls P env oracle tcs c u).
Proof.
  apply handleToolCalls_from_stable; [exact _ |]. intros tc. apply handleToolCall_sleeps.
Qed.

Lemma handleToolCalls_extends tcs c u :
  stable extends (handleToolCalls P env oracle tcs c u).
Proof.
  apply handleToolCalls_from_stable; [exact _ |]. intros tc. apply handleToolCall_extends.
Qed.

Lemma get_or_create_thread_sleeps c :
  stable same_sleeps (get_or_create_thread oracle openai c).
Proof. unfold same_sleeps. brute. Qed.

Lemma get_or_create_thread_messages c :
  stable same_messages (get_or_create_thread oracle openai c).
Proof. unfold same_messages. brute. Qed.

Lemma finish_sleeps run c t : stable same_sleeps (finish oracle openai run c t).
Proof. unfold same_sleeps. brute. Qed.

Lemma finish_extends run c t : stable extends (finish oracle openai run c t).
Proof. unfold extends. brute. Qed.

Lemma on_error_sleeps e : stable same_sleeps (on_error e).
Proof. unfold same_sleeps. brute. Qed.

Lemma on_error_store e : stable same_store (on_error e).
Proof. unfold same_store. brute. Qed.

(** One round of polling ends within the attempts that are left, and does
    not touch the store. *)
Lemma poll_bounded label : forall fuel run attempts,
  maxAttempts - attempts <= fuel ->
  bounded (maxAttempts - attempts) (poll openai fuel label run attempts).
Proof.
  induction fuel as [|fuel IH]; intros run attempts Hfuel w;
    remember (maxAttempts - attempts) as left eqn:Hleft; simpl.
  - destruct (pending (run_status run) && (attempts <? maxAttempts)%nat) eqn:E.
    + apply andb_true_iff in E as [_ E]. apply Nat.ltb_lt in E. lia.
    + exists (Next run), w. split; [reflexivity | lia].
  - destruct (pending (run_status run) && (attempts <? maxAttempts)%nat) eqn:E.
    + apply andb_true_iff in E as [_ E]. apply Nat.ltb_lt in E.
      unfold bindF, lift, sleep_1000, slept, call, log. cbn.
      destruct (runs_retrieve openai (S (sleeps w))) as [e|run'].
      * eexists _, _. split; [reflexivity |]. cbn [sleeps]. lia.
      * cbn.
        match goal with
        | |- context [poll openai fuel label run' (S attempts) ?w1] =>
            destruct (IH run' (S attempts) ltac:(lia) w1) as (o & w' & E' & Hle)
        end.
        exists o, w'. split; [exact E' |]. cbn [sleeps] in Hle. lia.
    + exists (Next run), w. split; [reflexivity | lia].
Qed.

Lemma poll_same_store label : forall fuel run attempts,
  stableF same_store (poll openai fuel label run attempts).
Proof.
  induction fuel as [|fuel IH]; intros run attempts w o w'; simpl.
  - destruct (pending (run_status run) && (attempts <? maxAttempts)%nat).
    + discriminate.
    + intros E. injection E as <- <-. reflexivity.
  - destruct (pending (run_status run) && (attempts <? maxAttempts)%nat).
    + unfold bindF, lift, sleep_1000, slept, call, log. cbn.
      destruct (runs_retrieve openai (S (sleeps w))) as [e|run']; cbn.
      * intros E. injection E as <- <-. reflexivity.
      * intros E. apply IH in E. exact E.
    + intros E. injection E as <- <-. reflexivity.
Qed.



Lemma poll_extends label fuel run attempts :
  stableF extends (poll openai fuel label run attempts).
Proof. intros w o w' E. apply same_store_extends. eapply poll_same_store; exact E. Qed.

Lemma poll_messages label fuel run attempts :
  stableF same_messages (poll openai fuel label run attempts).
Proof. intros w o w' E. apply same_store_messages. eapply poll_same_store; exact E. Qed.




Lemma after_first_poll_bounded fuel run c u :
  maxAttempts <= fuel ->
  bounded maxAttempts (after_first_poll P env oracle openai fuel run c u).
Proof.
  intros Hfuel. unfold after_first_poll.
  destruct (run_status run =? "requires_action")%string.
  - apply (@bounded_bind _ _ 0 maxAttempts); [apply bounded_lift, log_sleeps |].
    intros _. destruct (tool_calls run) as [[|tc tcs]|].
    + apply bounded_weaken with (n := 0); [lia |].
      apply bounded_lift, stable_ret; try exact _.
    + apply (@bounded_bind _ _ 0 maxAttempts);
        [apply bounded_lift, handleToolCalls_sleeps |].
      intros outs.
      apply (@bounded_bind _ _ 0 maxAttempts);
        [apply bounded_lift, stable_call; try exact _ |].
      intros run'. apply (poll_bounded _ fuel run' 0). lia.
    + apply bounded_weaken with (n := 0); [lia |].
      apply bounded_lift, stable_ret; try exact _.
  - apply bounded_weaken with (n := 0); [lia |].
    apply bounded_lift, stable_ret; try exact _.
Qed.

Lemma after_first_poll_extends fuel run c u :
  stableF extends (after_first_poll P env oracle openai fuel run c u).
Proof.
  unfold after_first_poll.
  destruct (run_status run =? "requires_action")%string.
  - apply stableF_bind; [exact _ | apply stableF_lift, log_extends |].
    intros _. destruct (tool_calls run) as [[|tc tcs]|].
    + apply stableF_lift, stable_ret; try exact _.
    + apply stableF_bind; try exact _;
        [apply stableF_lift, handleToolCalls_extends |].
      intros outs. apply stableF_bind; try exact _;
        [apply stableF_lift, stable_call; try exact _ |].
      intros run'. apply poll_extends.
    + apply stableF_lift, stable_ret; try exact _.
  - apply stableF_lift, stable_ret; try exact _.
Qed.


Lemma start_run_bounded fuel c m :
  maxAttempts <= fuel ->
  bounded maxAttempts (start_run env oracle openai fuel c m).
Proof.
  intros Hfuel. unfold start_run.
  destruct (negb (str_truthy (OPENAI_ASSISTANT_ID env))).
  - apply bounded_weaken with (n := 0 + 0); [lia |].
    apply bounded_bind; [apply bounded_lift, log_sleeps |].
    intros _. apply bounded_lift, stable_respond; try exact _.
  - apply (@bounded_bind _ _ 0 maxAttempts); [apply bounded_lift, query_sleeps |].
    intros userMessage. destruct (error userMessage).
    + apply bounded_weaken with (n := 0 + 0); [lia |].
      apply bounded_bind; [apply bounded_lift, log_sleeps |].
      intros _. apply bounded_lift, stable_throw; try exact _.
    + apply (@bounded_bind _ _ 0 maxAttempts);
        [apply bounded_lift, get_or_create_thread_sleeps |].
      intros threadId.
      apply (@bounded_bind _ _ 0 maxAttempts).
      { apply bounded_lift. destruct (messages_create openai threadId (to_string m));
          [apply stable_throw | apply stable_ret]; try exact _. }
      intros _.
      apply (@bounded_bind _ _ 0 maxAttempts); [apply bounded_lift, log_sleeps |].
      intros _.
      apply (@bounded_bind _ _ 0 maxAttempts);
        [apply bounded_lift, stable_call; try exact _ |].
      intros run.
      apply bounded_weaken with (n := maxAttempts - 0 + 0); [lia |].
      apply bounded_bind; [apply poll_bounded; lia |].
      intros run1. apply bounded_lift, stable_ret; try exact _.
Qed.

(** The handler ends, and has then waited at most twice [maxAttempts]
    seconds. *)
Lemma POST_bounded fuel req w :
  maxAttempts <= fuel ->
  exists r w',
    POST P env oracle openai fuel req w = Some (r, w') /\
    sleeps w' <= sleeps w + 2 * maxAttempts.
Proof.
  intros Hfuel. unfold POST, handlerF, try_catchF.
  match goal with
  | |- context [bindF ?m ?k w] =>
      assert (Hb : bounded (2 * maxAttempts) (bindF m k))
  end.
  { apply (@bounded_bind _ _ 0 (2 * maxAttempts)).
    { apply bounded_lift. unfold parse_json.
      destruct (JSON_parse P (raw_body req));
        [apply stable_ret | apply stable_throw]; try exact _. }
    intros body.
    apply (@bounded_bind _ _ 0 (2 * maxAttempts)).
    { apply bounded_lift. unfold destructured. destruct body;
        first [apply stable_throw | apply stable_ret]; try exact _. }
    intros chatId.
    destruct (negb (truthy chatId) || negb (truthy (get "userId" body))
              || negb (truthy (get "message" body))).
    - apply bounded_weaken with (n := 0); [lia |].
      apply bounded_lift, stable_respond; try exact _.
    - apply bounded_weaken with (n := maxAttempts + (maxAttempts + 0)); [lia |].
      apply bounded_bind; [now apply start_run_bounded |].
      intros started. apply bounded_bind; [now apply after_first_poll_bounded |].
      intros run2. apply bounded_lift, finish_sleeps. }
  destruct (Hb w) as (o & w1 & E & Hle). rewrite E.
  destruct o as [r|r|e].
  - exists r, w1. split; [reflexivity | exact Hle].
  - exists r, w1. split; [reflexivity | exact Hle].
  - unfold lift. pose proof (on_error_sleeps e w1) as Hs. unfold same_sleeps in Hs.
    destruct (on_error e w1) as [[r|r|e'] w2]; cbn in Hs;
      eexists _, _; (split; [reflexivity | lia]).
Qed.


(** *** Tool calls *)

Lemma handleToolCall_malformed tc c u w msg :
  JSON_parse P (fn_arguments tc) = inr msg ->
  handleToolCall P env oracle tc c u w
  = (Throw (SyntaxError msg),
     {| store := store w;
        console := console w ++ [(LOG, "Processing tool call:")];
        sleeps := sleeps w |}).
Proof.
  intros H. unfold handleToolCall, bind, log, parse_json. cbn. now rewrite H.
Qed.

Lemma handleToolCall_parsed tc c u w v :
  JSON_parse P (fn_arguments tc) = inl v ->
  exists out w',
    handleToolCall P env oracle tc c u w = (Next out, w') /\
    tool_call_id out = tc_id tc.
Proof.
  intros H.
  unfold handleToolCall, handleStartBookingCall, handleGetBookingStatus, destructure,
    parse_json, query, prop, try_catch, bind, log, ret, respond, throw.
  rewrite H. run_cases; eexists _, _; split; reflexivity.
Qed.

Lemma handleToolCall_unknown tc c u w v :
  JSON_parse P (fn_arguments tc) = inl v ->
  fn_name tc <> "start_booking_call" ->
  fn_name tc <> "get_booking_status" ->
  handleToolCall P env oracle tc c u w
  = (Next {| tool_call_id := tc_id tc;
             output := JSON_stringify P
                         (JObj [("error", JStr ("Unknown function: " ++ fn_name tc))]) |},
     {| store := store w;
        console := console w ++ [(LOG, "Processing tool call:")]
                             ++ [(WARN, "Unknown tool call:")];
        sleeps := sleeps w |}).
Proof.
  intros H H1 H2. apply String.eqb_neq in H1, H2.
  unfold handleToolCall, parse_json, try_catch, bind, log, ret. cbn.
  rewrite H, H1, H2. cbn. now rewrite <- app_assoc.
Qed.

Lemma handleToolCalls_from_malformed c u : forall tcs acc w,
  (exists tc, In tc tcs /\ exists msg, JSON_parse P (fn_arguments tc) = inr msg) ->
  exists e w',
    handleToolCalls_from P env oracle acc tcs c u w = (Throw e, w') /\
    name e = "SyntaxError".
Proof.
  induction tcs as [|tc tcs IH]; intros acc w (bad & Hin & msg & Hbad).
  - destruct Hin.
  - simpl. unfold bind.
    destruct (JSON_parse P (fn_arguments tc)) as [v|msg'] eqn:Hp.
    + destruct (handleToolCall_parsed tc c u w v Hp) as (out & w1 & E & _). rewrite E.
      apply IH. destruct Hin as [<- | Hin]; [congruence |].
      exists bad. split; [exact Hin | now exists msg].
    + rewrite (handleToolCall_malformed tc c u w msg' Hp). eexists _, _. split; reflexivity.
Qed.

Lemma handleToolCalls_from_parsed c u : forall tcs acc w,
  (forall tc, In tc tcs -> exists v, JSON_parse P (fn_arguments tc) = inl v) ->
  exists outs w',
    handleToolCalls_from P env oracle acc tcs c u w = (Next outs, w') /\
    map tool_call_id outs = (map tool_call_id acc ++ map tc_id tcs)%list.
Proof.
  induction tcs as [|tc tcs IH]; intros acc w Hall; simpl.
  - exists acc, w. split; [reflexivity |]. now rewrite app_nil_r.
  - unfold bind. destruct (Hall tc (or_introl eq_refl)) as [v Hp].
    destruct (handleToolCall_parsed tc c u w v Hp) as (out & w1 & E & Hid). rewrite E.
    destruct (IH (acc ++ [out])%list w1) as (outs & w2 & E2 & Hids).
    { intros tc' Hin. apply Hall. now right. }
    exists outs, w2. split; [exact E2 |].
    rewrite Hids, map_app. simpl. rewrite Hid. now rewrite <- app_assoc.
Qed.


(** *** The user identifier *)

(** The handler on a well-formed request: the first stage has no [userId]. *)
Lemma POST_accepted fuel req w body :
  JSON_parse P (raw_body req) = inl body ->
  truthy (get "chatId" body) = true ->
  truthy (get "userId" body) = true ->
  truthy (get "message" body) = true ->
  POST P env oracle openai fuel req w
  = accepted P env oracle openai fuel (get "chatId" body) (get "message" body) (get "userId" body) w.
Proof.
  intros Hp Hc Hu Hm.
  unfold accepted, POST, handlerF, try_catchF.
  unfold bindF at 1. unfold lift at 1. unfold parse_json. rewrite Hp. cbn [ret].
  unfold bindF at 1. unfold lift at 1.
  assert (Hprop : destructured "chatId" "body" body w = (Next (get "chatId" body), w)).
  { destruct body; try reflexivity. discriminate Hc. }
  rewrite Hprop, Hc, Hu, Hm. reflexivity.
Qed.

Lemma start_run_messages fuel c m w o w3 :
  start_run env oracle openai fuel c m w = Some (o, w3) ->
  messages (store w3) = (messages (store w) ++ [userRow c m])%list \/
  (messages (store w3) = messages (store w) /\ forall a, o <> Next a).
Proof.
  unfold start_run.
  destruct (negb (str_truthy (OPENAI_ASSISTANT_ID env))).
  - cbn. intros E. injection E as <- <-. right. split; [reflexivity | discriminate].
  - unfold bindF at 1. unfold lift at 1. unfold query.
    destruct (user_insert_fault oracle) as [msg|].
    + cbn. intros E. injection E as <- <-. right. split; [reflexivity | discriminate].
    + cbn [found insert_message error data store].
      match goal with
      | |- ?rem ?wins = Some _ -> _ =>
          assert (Hrem : stableF same_messages rem)
      end.
      { apply stableF_bind; [exact _ | apply stableF_lift, get_or_create_thread_messages |].
        intros threadId. apply stableF_bind; [exact _ | |].
        { apply stableF_lift. destruct (messages_create openai threadId (to_string m));
            [apply stable_throw | apply stable_ret]; exact _. }
        intros _. apply stableF_bind; [exact _ | apply stableF_lift, log_messages |].
        intros _. apply stableF_bind; [exact _ | apply stableF_lift, stable_call; exact _ |].
        intros run. apply stableF_bind; [exact _ | apply poll_messages |].
        intros run1. apply stableF_lift, stable_ret. exact _. }
      intros E. apply Hrem in E. unfold same_messages in E. cbn in E. left. exact E.
Qed.


Lemma tail_extends fuel run c u t :
  stableF extends
    (bindF (after_first_poll P env oracle openai fuel run c u)
       (fun run2 => lift (finish oracle openai run2 c t))).
Proof.
  apply stableF_bind; [exact _ | apply after_first_poll_extends |].
  intros run2. apply stableF_lift, finish_extends.
Qed.

(** What a whole request does to the transcript and to the chats, given
    the world [w3] its first stage ended in. *)
Lemma handlerF_extends {body : MF Response} {w0 w r w'} :
  stableF extends body ->
  extends w0 w ->
  handlerF body on_error w = Some (r, w') ->
  extends w0 w'.
Proof.
  intros Hbody H0 E. unfold handlerF, try_catchF in E.
  destruct (body w) as [[[a|a|e] w1]|] eqn:Eb; try discriminate.
  - injection E as <- <-. transitivity w; [exact H0 | eapply Hbody; exact Eb].
  - injection E as <- <-. transitivity w; [exact H0 | eapply Hbody; exact Eb].
  - unfold lift in E. pose proof (on_error_store e w1) as Hs.
    destruct (on_error e w1) as [[a|a|e'] w2]; cbn in Hs; injection E as <- <-;
      (transitivity w; [exact H0 |]); (transitivity w1; [eapply Hbody; exact Eb |]);
      now apply same_store_extends.
Qed.


Lemma POST_rejected fuel req w body :
  JSON_parse P (raw_body req) = inl body ->
  negb (truthy (get "chatId" body)) || negb (truthy (get "userId" body))
  || negb (truthy (get "message" body)) = true ->
  POST P env oracle openai fuel req w
  = match body with
    | JNull =>
        (let '(o, w') :=
           on_error
             (TypeError "Cannot destructure property 'chatId' of 'body' as it is null.") w in
         match o with
         | Next r | Return r => Some (r, w')
         | Throw _ => Some ({| status := 500; body := JNull |}, w')
         end)
    | _ => Some (json_response [("success", flag false);
                                ("error", str "Missing required fields")] 400, w)
    end.
Proof.
  intros Hp Hbad.
  unfold POST, handlerF, try_catchF.
  unfold bindF at 1. unfold lift at 1. unfold parse_json. rewrite Hp. cbn [ret].
  unfold bindF at 1. unfold lift at 1.
  destruct body; cbn [destructured ret throw]; try (rewrite Hbad; reflexivity).
  reflexivity.
Qed.

Lemma handlerF_bind_next {A} (m : MF A) (k : A -> MF Response) h w a w3 :
  m w = Some (Next a, w3) ->
  handlerF (bindF m k) h w = handlerF (k a) h w3.
Proof. intros E. unfold handlerF, try_catchF, bindF. now rewrite E. Qed.

Lemma bindF_ext {A B} (m : MF A) (k1 k2 : A -> MF B) w :
  (forall a w', k1 a w' = k2 a w') -> bindF m k1 w = bindF m k2 w.
Proof.
  intros H. unfold bindF. destruct (m w) as [[[a|r|e] w1]|]; auto.
Qed.

Lemma handlerF_ext (body1 body2 : MF Response) h w :
  body1 w = body2 w -> handlerF body1 h w = handlerF body2 h w.
Proof. intros H. unfold handlerF, try_catchF. now rewrite H. Qed.

Lemma accepted_run fuel c m u w r w' :
  accepted P env oracle openai fuel c m u w = Some (r, w') ->
  exists o w3,
    start_run env oracle openai fuel c m w = Some (o, w3) /\
    extends w3 w' /\
    ((exists started, o = Next started) \/
     (same_store w3 w' /\ forall u', accepted P env oracle openai fuel c m u' w = Some (r, w'))).
Proof.
  unfold accepted. intros E.
  destruct (start_run env oracle openai fuel c m w) as [[o w3]|] eqn:Es;
    [| unfold handlerF, try_catchF, bindF in E; rewrite Es in E; discriminate].
  exists o, w3. split; [reflexivity |].
  destruct o as [started|r0|e].
  - split; [| left; now exists started].
    rewrite (handlerF_bind_next _ _ _ _ _ _ Es) in E.
    eapply handlerF_extends; [apply tail_extends | reflexivity | exact E].
  - unfold handlerF, try_catchF, bindF in E. rewrite Es in E. injection E as <- <-.
    split; [reflexivity |]. right. split; [reflexivity |].
    intros u'. unfold handlerF, try_catchF, bindF. now rewrite Es.
  - unfold handlerF, try_catchF, bindF in E. rewrite Es in E.
    assert (Hs : same_store w3 w').
    { unfold lift in E. pose proof (on_error_store e w3) as Hs.
      destruct (on_error e w3) as [[a|a|e'] w4]; cbn in Hs; injection E as <- <-;
        exact Hs. }
    split; [now apply same_store_extends |]. right. split; [exact Hs |].
    intros u'. unfold handlerF, try_catchF, bindF. rewrite Es. exact E.
Qed.

Section UserId.

(** The booking-start route answers the same whoever the request names as
    the user. *)
Hypothesis api_ignores_user :
  forall url a c u u' s,
    booking_api oracle url (bookingRequest a c u) s
    = booking_api oracle url (bookingRequest a c u') s.

Lemma handleToolCall_userId tc c u u' w :
  handleToolCall P env oracle tc c u w = handleToolCall P env oracle tc c u' w.
Proof.
  unfold handleToolCall, bind, log, parse_json, try_catch. cbn.
  destruct (JSON_parse P (fn_arguments tc)) as [args|msg]; [| reflexivity].
  cbn. destruct (fn_name tc =? "start_booking_call")%string; [| reflexivity].
  unfold handleStartBookingCall, bind, destructure.
  destruct args; try reflexivity; cbn [ret];
    rewrite (api_ignores_user _ _ c u u' _); reflexivity.
Qed.

Lemma handleToolCalls_from_userId c u u' : forall tcs acc w,
  handleToolCalls_from P env oracle acc tcs c u w
  = handleToolCalls_from P env oracle acc tcs c u' w.
Proof.
  induction tcs as [|tc tcs IH]; intros acc w; simpl; [reflexivity |].
  unfold bind. rewrite (handleToolCall_userId tc c u u' w).
  destruct (handleToolCall P env oracle tc c u' w) as [[out|r|e] w1]; auto.
Qed.

Lemma after_first_poll_userId fuel run c u u' w :
  after_first_poll P env oracle openai fuel run c u w
  = after_first_poll P env oracle openai fuel run c u' w.
Proof.
  unfold after_first_poll.
  destruct (run_status run =? "requires_action")%string; [| reflexivity].
  apply bindF_ext. intros _ w1.
  destruct (tool_calls run) as [[|tc tcs]|]; try reflexivity.
  unfold bindF, lift, handleToolCalls.
  now rewrite (handleToolCalls_from_userId c u u' (tc :: tcs) [] w1).
Qed.

Lemma accepted_userId fuel c m u u' w :
  accepted P env oracle openai fuel c m u w = accepted P env oracle openai fuel c m u' w.
Proof.
  unfold accepted. apply handlerF_ext. apply bindF_ext. intros started w1.
  unfold bindF. now rewrite (after_first_poll_userId fuel (snd started) c u u' w1).
Qed.

End UserId.

End Facts.
End ChatSendFacts.

(* ================================================================= *)
(** ** [lib/openai.ts] *)

Module OpenAiLibFacts.

Import OpenAiLib.

Section Facts.

Variable P : Platform.
Variable env : Env.
Variable openai : Service.
Variable now : nat -> Z.

(** [handleToolCalls] of the library answers every call of the batch. *)

Lemma handleToolCall_answers tc handler w :
  exists out w',
    handleToolCall P tc handler w = (Next out, w') /\
    tool_call_id out = tc_id tc /\
    (forall msg,
        JSON_parse P (fn_arguments tc) = inr msg ->
        output out = JSON_stringify P
                       (JObj [("error", JStr "Failed to parse function arguments")]) /\
        store w' = store w).
Proof.
  unfold handleToolCall, invoke, try_catch, bind, log, ret.
  destruct (JSON_parse P (fn_arguments tc)) as [args|msg]; cbn.
  - match goal with |- context [handler ?n ?a ?w0] => destruct (handler n a w0) as [[e|v] w1] end;
      cbn; eexists _, _; (split; [reflexivity |]); (split; [reflexivity |]);
      intros msg Hmsg; discriminate Hmsg.
  - eexists _, _. split; [reflexivity |]. split; [reflexivity |]. intros _ _. now split.
Qed.

Lemma handleToolCalls_from_answers handler : forall tcs acc w,
  exists outs w',
    handleToolCalls_from P acc tcs handler w = (Next outs, w') /\
    map tool_call_id outs = (map tool_call_id acc ++ map tc_id tcs)%list.
Proof.
  induction tcs as [|tc tcs IH]; intros acc w; simpl.
  - exists acc, w. split; [reflexivity |]. now rewrite app_nil_r.
  - unfold bind.
    destruct (handleToolCall_answers tc handler w) as (out & w1 & E & Hid & _). rewrite E.
    destruct (IH (acc ++ [out])%list w1) as (outs & w2 & E2 & Hids).
    exists outs, w2. split; [exact E2 |].
    rewrite Hids, map_app. simpl. rewrite Hid. now rewrite <- app_assoc.
Qed.

Lemma handleToolCalls_answers tcs handler w :
  exists outs w',
    handleToolCalls P tcs handler w = (Next outs, w') /\
    map tool_call_id outs = map tc_id tcs.
Proof. apply (handleToolCalls_from_answers handler tcs [] w). Qed.

Lemma lib_handleToolCall_sleeps tc handler :
  quiet handler -> stable same_sleeps (handleToolCall P tc handler).
Proof.
  intros Hq w. unfold same_sleeps, handleToolCall, invoke, try_catch, bind, log, ret.
  destruct (JSON_parse P (fn_arguments tc)) as [args|msg]; cbn; [| reflexivity].
  match goal with
  | |- context [handler ?n ?a ?w0] =>
      pose proof (Hq n a w0) as H; destruct (handler n a w0) as [[e|v] w1]
  end; cbn in *; exact H.
Qed.

Lemma lib_handleToolCalls_sleeps tcs handler :
  quiet handler -> stable same_sleeps (handleToolCalls P tcs handler).
Proof.
  intros Hq. unfold handleToolCalls. generalize (@nil ToolOutput).
  induction tcs as [|tc tcs IH]; intros acc; simpl.
  - apply stable_ret. exact _.
  - apply stable_bind; [exact _ | now apply lib_handleToolCall_sleeps | auto].
Qed.

Lemma reply_sleeps thread run2 : stable same_sleeps (reply openai thread run2).
Proof.
  intros w. unfold same_sleeps, reply, call, bind, log, ret, throw.
  run_cases; reflexivity.
Qed.

Section Clock.

Variable maxWaitTime : Z.
Hypothesis maxWaitTime_nonneg : (0 <= maxWaitTime)%Z.
(** The first check follows the reading of [startTime] at once; every later
    check comes after a wait of a second. *)
Hypothesis first_reading : (now 0%nat <= now 1%nat)%Z.
Hypothesis later_readings : forall k, 1 <= k -> (now k + 1000 <= now (S k))%Z.

Lemma clock_advances k : 1 <= k -> (now 0 + 1000 * Z.of_nat (k - 1) <= now k)%Z.
Proof.
  induction k as [|k IH]; intros Hk; [lia |].
  destruct k as [|k'].
  - simpl. lia.
  - specialize (IH ltac:(lia)). specialize (later_readings (S k') ltac:(lia)).
    replace (S (S k') - 1) with (S (S k' - 1)) by lia.
    rewrite Nat2Z.inj_succ. lia.
Qed.

Lemma lib_poll_bounded label : forall fuel run attempts reads w,
  1 <= reads ->
  Z.to_nat maxWaitTime + 2 - reads < fuel ->
  exists o w',
    poll openai now fuel label maxWaitTime (now 0) run attempts reads w = Some (o, w') /\
    sleeps w' <= sleeps w + (Z.to_nat maxWaitTime + 2 - reads) /\
    (forall run' reads',
        o = Next (run', reads') ->
        reads <= reads' /\ sleeps w' = sleeps w + (reads' - reads)).
Proof.
  induction fuel as [|fuel IH]; intros run attempts reads w Hreads Hfuel; [lia |].
  simpl. destruct (pending (run_status run)).
  - destruct (maxWaitTime * 1000 <? now reads - now 0)%Z eqn:Hcheck.
    + eexists _, _. split; [reflexivity |]. split; [lia |]. intros ? ? [=].
    + apply Z.ltb_ge in Hcheck. pose proof (clock_advances reads Hreads) as Hclock.
      assert (Hle : reads <= Z.to_nat maxWaitTime + 1) by lia.
      unfold bindF, lift, sleep_1000, slept, call, log. cbn.
      destruct (runs_retrieve openai (S (sleeps w))) as [e|run'].
      * eexists _, _. split; [reflexivity |]. cbn [sleeps]. split; [lia |].
        intros ? ? [=].
      * cbn.
        match goal with
        | |- context [poll openai now fuel label maxWaitTime (now 0) run' (S attempts)
                        (S reads) ?w1] =>
            destruct (IH run' (S attempts) (S reads) w1 ltac:(lia) ltac:(lia))
              as (o & w' & E & Hb & Hn)
        end.
        exists o, w'. split; [exact E |]. cbn [sleeps] in Hb. split; [lia |].
        intros run'' reads' Ho. destruct (Hn run'' reads' Ho) as [H1 H2].
        cbn [sleeps] in H2. lia.
  - eexists _, _. split; [reflexivity |]. split; [lia |].
    intros run' reads' [= <- <-]. lia.
Qed.

Lemma dispatch_bounded fuel handler run1 reads1 w :
  match handler with Some h => quiet h | None => True end ->
  1 <= reads1 ->
  Z.to_nat maxWaitTime + 2 - reads1 < fuel ->
  exists o w',
    dispatch P openai now fuel handler maxWaitTime (now 0) run1 reads1 w = Some (o, w') /\
    sleeps w' <= sleeps w + (Z.to_nat maxWaitTime + 2 - reads1).
Proof.
  intros Hq Hreads Hfuel. unfold dispatch.
  destruct (run_status run1 =? "requires_action")%string;
    [| eexists _, _; split; [reflexivity | lia]].
  unfold bindF at 1. unfold lift at 1, log. cbn [fst snd].
  destruct handler as [h|]; [| eexists _, _; split; [reflexivity | cbn; lia]].
  destruct (tool_calls run1) as [[|tc tcs]|];
    try (eexists _, _; split; [reflexivity | cbn; lia]).
  unfold bindF at 1. unfold lift at 1.
  match goal with
  | |- context [handleToolCalls P ?l h ?w0] =>
      pose proof (lib_handleToolCalls_sleeps l h Hq w0) as Hs
  end.
  match goal with
  | |- context [handleToolCalls P ?l h ?w0] =>
      destruct (handleToolCalls_answers l h w0) as (outs & w1 & E & _)
  end.
  rewrite E in Hs |- *. unfold same_sleeps in Hs. cbn in Hs.
  unfold bindF at 1. unfold lift at 1, log. cbn [fst snd].
  unfold bindF at 1. unfold lift at 1, call.
  destruct (runs_submitToolOutputs openai outs) as [e|run'].
  - eexists _, _. split; [reflexivity |]. cbn. lia.
  - cbn [ret]. unfold bindF at 1.
    match goal with
    | |- context [poll openai now fuel ?label maxWaitTime (now 0) run' 0 reads1 ?w2] =>
        destruct (lib_poll_bounded label fuel run' 0 reads1 w2 Hreads Hfuel)
          as (o & w' & Ep & Hb & _)
    end.
    rewrite Ep. cbn [sleeps] in Hb.
    destruct o as [[run2 reads2]|r|e]; eexists _, _; (split; [reflexivity |]); cbn; lia.
Qed.

(** [runAssistant] ends, after at most [maxWaitTime + 1] waits in all. *)
Lemma runAssistant_bounded fuel thread handler w :
  match handler with Some h => quiet h | None => True end ->
  Z.to_nat maxWaitTime + 2 <= fuel ->
  exists o w',
    runAssistant P env openai now fuel thread handler maxWaitTime w = Some (o, w') /\
    sleeps w' <= sleeps w + (Z.to_nat maxWaitTime + 1).
Proof.
  intros Hq Hfuel. unfold runAssistant.
  destruct (negb (str_truthy (OPENAI_ASSISTANT_ID env)));
    [eexists _, _; split; [reflexivity | cbn; lia] |].
  assert (Hwrap : forall e w0, exists o w',
             wrap_error e w0 = Some (o, w') /\ sleeps w' = sleeps w0).
  { intros e w0. eexists _, _. split; reflexivity. }
  unfold try_catchF.
  unfold bindF at 1. unfold lift at 1, log. cbn [fst snd].
  unfold bindF at 1. unfold lift at 1, call.
  destruct (runs_create openai thread) as [e|run].
  { cbn [throw]. destruct (Hwrap e {| store := store w;
                                      console := console w ++ [(LOG, "Starting assistant run on thread:")];
                                      sleeps := sleeps w |}) as (o & w' & E & Hs).
    exists o, w'. split; [exact E | cbn in Hs; lia]. }
  cbn [ret]. unfold bindF at 1.
  match goal with
  | |- context [poll openai now fuel ?label maxWaitTime (now 0) run 0 1 ?w1] =>
      destruct (lib_poll_bounded label fuel run 0 1 w1 (le_n 1) ltac:(lia))
        as (o1 & w2 & E1 & Hb1 & Hn1)
  end.
  rewrite E1. cbn [sleeps] in Hb1.
  destruct o1 as [[run1 reads1]|r|e].
  - destruct (Hn1 run1 reads1 eq_refl) as [Hr1 Hs1]. cbn [sleeps] in Hs1.
    destruct (dispatch_bounded fuel handler run1 reads1 w2 Hq Hr1 ltac:(lia))
      as (o2 & w3 & E2 & Hb2).
    cbn [fst snd]. unfold bindF at 1. rewrite E2.
    destruct o2 as [run2|r|e].
    + unfold lift. pose proof (reply_sleeps thread run2 w3) as Hs.
      unfold same_sleeps in Hs.
      destruct (reply openai thread run2 w3) as [[a|r|e] w4]; cbn in Hs.
      * eexists _, _. split; [reflexivity |]. lia.
      * eexists _, _. split; [reflexivity |]. lia.
      * destruct (Hwrap e w4) as (o & w' & E & Hs'). exists o, w'.
        split; [exact E | lia].
    + eexists _, _. split; [reflexivity |]. lia.
    + destruct (Hwrap e w3) as (o & w' & E & Hs'). exists o, w'. split; [exact E | lia].
  - eexists _, _. split; [reflexivity |]. lia.
  - destruct (Hwrap e w2) as (o & w' & E & Hs'). exists o, w'. split; [exact E | lia].
Qed.

End Clock.

End Facts.

End OpenAiLibFacts.

(* ================================================================= *)
(** ** The earlier [runAssistant]: no limit on the wait *)

Module OpenAiLegacyFacts.

Import OpenAiLegacy.

Section Facts.

Variable P : Platform.
Variable env : Env.
Variable openai : Service.

(** A run that the service keeps reporting as queued or in progress. *)
Hypothesis never_done :
  forall n, exists run, runs_retrieve openai n = inr run /\ pending (run_status run) = true.

Lemma poll_never_returns : forall fuel run w,
  pending (run_status run) = true -> poll openai fuel run w = None.
Proof.
  induction fuel as [|fuel IH]; intros run w Hp; simpl; rewrite Hp; [reflexivity |].
  unfold bindF, lift, sleep_1000, slept, call. cbn.
  destruct (never_done (S (sleeps w))) as (run' & -> & Hp'). cbn.
  now apply IH.
Qed.

Lemma runAssistant_never_returns fuel thread w run :
  str_truthy (OPENAI_ASSISTANT_ID env) = true ->
  runs_create openai thread = inr run ->
  pending (run_status run) = true ->
  runAssistant P env openai fuel thread w = None.
Proof.
  intros Hid Hcreate Hp. unfold runAssistant. rewrite Hid. cbn [negb].
  unfold bindF at 1. unfold lift at 1, call. rewrite Hcreate. cbn [ret].
  unfold bindF at 1. now rewrite (poll_never_returns fuel run w Hp).
Qed.

End Facts.

End OpenAiLegacyFacts.

(* ================================================================= *)
(** ** Booking start: the call-placing request and its timer *)

Lemma BookingStart_place_call_aborted P oracle url request w e :
  BookingStart.mcp_fetch oracle (url ++ "/mcp") request 30000%Z = Rejected e ->
  name e = "AbortError" ->
  BookingStart.place_call P oracle url request w
  = (Throw (Error "MCP server request timed out. Please try again."),
     {| store := store w;
        console := console w ++ [(ERROR, "MCP server request timed out after 30 seconds")];
        sleeps := sleeps w |}).
Proof.
  intros Hfetch Hname. unfold BookingStart.place_call. rewrite Hfetch, Hname. reflexivity.
Qed.

Lemma BookingStartLegacy_place_call_aborted P oracle url request w e :
  BookingStartLegacy.mcp_fetch oracle (url ++ "/mcp") request 30000%Z = Rejected e ->
  is_Error e = true ->
  name e = "AbortError" ->
  BookingStartLegacy.place_call P oracle url request w
  = (Return (json_response
               [("success", flag false);
                ("error", str "MCP server request timeout after 30 seconds")] 504),
     {| store := store w;
        console := console w ++ [(ERROR, "[Booking Start] MCP server request timeout")];
        sleeps := sleeps w |}).
Proof.
  intros Hfetch Herr Hname. unfold BookingStartLegacy.place_call, try_catch.
  rewrite Hfetch. cbn [throw]. rewrite Herr, Hname. reflexivity.
Qed.

(** *** The user identifier is never compared with the owner of the chat *)

Lemma firstn_past_prefix {A} (l : list A) (u : A) (t : list A) :
  firstn (S (length l)) ((l ++ [u]) ++ t) = (l ++ [u])%list.
Proof.
  rewrite firstn_app. rewrite length_app. simpl length.
  replace (S (length l) - (length l + 1)) with 0 by lia.
  rewrite firstn_O, app_nil_r. apply firstn_all2. rewrite length_app. simpl. lia.
Qed.

Lemma nth_error_past_prefix {A} (l : list A) (u : A) (t : list A) :
  nth_error ((l ++ [u]) ++ t) (length l) = Some u.
Proof.
  rewrite nth_error_app1 by (rewrite length_app; simpl; lia).
  rewrite nth_error_app2 by lia. now rewrite Nat.sub_diag.
Qed.

Lemma nth_error_at_length {A} (l : list A) : nth_error l (length l) = None.
Proof. apply nth_error_None. lia. Qed.

(** C10.  The send-message handler never compares [userId] with the owner
    of the chat.  Two requests that differ in [userId] only (both
    non-empty), run from the same world, leave the same chats (the same
    thread lookup and thread write) and the same persisted user message, a
    row made of [chatId] and [message] alone; [userId] reaches nothing but
    the body posted by the tool-call handler to the booking-start route, so
    when that route answers alike for both users the two runs are equal. *)
Theorem C10_userId_not_checked P env oracle openai fuel req1 req2 w body1 body2 r1 w1 r2 w2 :
  JSON_parse P (ChatSend.raw_body req1) = inl body1 ->
  JSON_parse P (ChatSend.raw_body req2) = inl body2 ->
  get "chatId" body1 = get "chatId" body2 ->
  get "message" body1 = get "message" body2 ->
  truthy (get "userId" body1) = true ->
  truthy (get "userId" body2) = true ->
  ChatSend.POST P env oracle openai fuel req1 w = Some (r1, w1) ->
  ChatSend.POST P env oracle openai fuel req2 w = Some (r2, w2) ->
  chats (store w1) = chats (store w2) /\
  firstn (S (length (messages (store w)))) (messages (store w1))
  = firstn (S (length (messages (store w)))) (messages (store w2)) /\
  (forall row,
      nth_error (messages (store w1)) (length (messages (store w))) = Some row ->
      row = ChatSend.userRow (get "chatId" body1) (get "message" body1)) /\
  ((forall url a c u u' s,
       ChatSend.booking_api oracle url (ChatSend.bookingRequest a c u) s
       = ChatSend.booking_api oracle url (ChatSend.bookingRequest a c u') s) ->
   r1 = r2 /\ w1 = w2).
Proof.
  intros Hp1 Hp2 Hc Hm Hu1 Hu2 E1 E2.
  destruct (truthy (get "chatId" body1) && truthy (get "message" body1)) eqn:Hok.
  - apply andb_true_iff in Hok as [Tc Tm].
    rewrite (ChatSendFacts.POST_accepted P env oracle openai fuel req1 w body1
               Hp1 Tc Hu1 Tm) in E1.
    assert (Tc2 : truthy (get "chatId" body2) = true) by now rewrite <- Hc.
    assert (Tm2 : truthy (get "message" body2) = true) by now rewrite <- Hm.
    rewrite (ChatSendFacts.POST_accepted P env oracle openai fuel req2 w body2
               Hp2 Tc2 Hu2 Tm2) in E2.
    rewrite <- Hc, <- Hm in E2.
    set (c := get "chatId" body1) in *. set (m := get "message" body1) in *.
    destruct (ChatSendFacts.accepted_run P env oracle openai fuel c m _ w r1 w1 E1)
      as (o & w3 & Es & Hext1 & Hcase1).
    destruct (ChatSendFacts.accepted_run P env oracle openai fuel c m _ w r2 w2 E2)
      as (o' & w3' & Es' & Hext2 & _).
    rewrite Es in Es'. injection Es' as <- <-.
    pose proof (ChatSendFacts.start_run_messages env oracle openai fuel c m w o w3 Es)
      as Hmsgs.
    destruct Hext1 as [Hch1 [t1 Hm1]]. destruct Hext2 as [Hch2 [t2 Hm2]].
    split; [congruence |].
    assert (Hapi : (forall url a c u u' s,
                       ChatSend.booking_api oracle url (ChatSend.bookingRequest a c u) s
                       = ChatSend.booking_api oracle url (ChatSend.bookingRequest a c u') s) ->
                   r1 = r2 /\ w1 = w2).
    { intros Hapi.
      rewrite (ChatSendFacts.accepted_userId P env oracle openai Hapi fuel c m
                 (get "userId" body1) (get "userId" body2) w) in E1.
      rewrite E1 in E2. now injection E2. }
    destruct Hcase1 as [[started ->] | [Hsame Hany]].
    + destruct Hmsgs as [Hmsgs | [_ Hno]]; [| now contradiction (Hno started)].
      rewrite Hm1, Hm2, Hmsgs. split; [| split; [| exact Hapi]].
      * now rewrite !firstn_past_prefix.
      * intros row. rewrite nth_error_past_prefix. now intros [= <-].
    + specialize (Hany (get "userId" body2)). rewrite Hany in E2. injection E2 as <- <-.
      split; [reflexivity |]. split; [| exact Hapi].
      intros row. unfold same_store in Hsame. rewrite Hsame.
      destruct Hmsgs as [Hmsgs | [Hmsgs _]]; rewrite Hmsgs.
      * rewrite <- (app_nil_r (messages (store w) ++ [ChatSend.userRow c m])).
        rewrite nth_error_past_prefix. now intros [= <-].
      * rewrite nth_error_at_length. discriminate.
  - assert (Hbad : forall body u,
               get "chatId" body = get "chatId" body1 ->
               get "message" body = get "message" body1 ->
               truthy u = true ->
               negb (truthy (get "chatId" body)) || negb (truthy u)
               || negb (truthy (get "message" body)) = true).
    { intros body u -> -> ->. apply andb_false_iff in Hok as [-> | ->]; cbn;
        [reflexivity | now rewrite orb_true_r]. }
    rewrite (ChatSendFacts.POST_rejected P env oracle openai fuel req1 w body1 Hp1
               (Hbad body1 _ eq_refl eq_refl Hu1)) in E1.
    rewrite (ChatSendFacts.POST_rejected P env oracle openai fuel req2 w body2 Hp2
               (Hbad body2 _ (eq_sym Hc) (eq_sym Hm) Hu2)) in E2.
    assert (Hn1 : body1 <> JNull) by (intros ->; discriminate Hu1).
    assert (Hn2 : body2 <> JNull) by (intros ->; discriminate Hu2).
    destruct body1; try contradiction; destruct body2; try contradiction;
      injection E1 as <- <-; injection E2 as <- <-;
      (split; [reflexivity |]; split; [reflexivity |]; split; [| auto]);
      intros row; rewrite nth_error_at_length; discriminate.
Qed.

(* ================================================================= *)
(** ** Tool calls that cannot be dispatched *)

(** C5.  In the send-message handler [JSON.parse] of the arguments stands
    outside the [try] of [handleToolCalls]: a tool call with malformed
    arguments throws out of the loop, no output is produced for any call of
    the batch and the request ends with a 500. *)
Theorem C5_malformed_arguments_abort_the_run :
  fst (ChatSend.handleToolCalls Samples.platform Samples.send_env Samples.send_oracle
         [Samples.call_status; Samples.call_malformed]
         (str "chat-1") (str "user-1") Samples.world)
  = Throw (SyntaxError "Unexpected token in JSON") /\
  option_map fst
    (ChatSend.POST Samples.platform Samples.send_env Samples.send_oracle
       (Samples.quick_service [Samples.call_status; Samples.call_malformed])
       60 (Samples.send_request "user-1") Samples.world)
  = Some {| status := 500;
            body := JObj [("success", JBool false);
                          ("error", JStr "Unexpected token in JSON")] |}.
Proof. split; vm_compute; reflexivity. Qed.

(** An unrecognised name alone does not abort the run: its output is the
    error object and the other calls are answered. *)
Lemma ChatSend_unknown_tool_is_answered :
  fst (ChatSend.handleToolCalls Samples.platform Samples.send_env Samples.send_oracle
         [Samples.call_status; Samples.call_unknown]
         (str "chat-1") (str "user-1") Samples.world)
  = Next [ {| tool_call_id := "tc-1";
              output := Samples.print
                          (JObj [("bookingId", JStr "booking-1");
                                 ("status", JStr "calling");
                                 ("bookingType", JStr "restaurant");
                                 ("details", b_details Samples.booking);
                                 ("result", b_result Samples.booking)]) |};
           {| tool_call_id := "tc-2";
              output := Samples.print
                          (JObj [("error", JStr "Unknown function: send_flowers")]) |} ].
Proof. vm_compute. reflexivity. Qed.

(** [handleToolCalls] of [lib/openai.ts] parses inside a [try]: the same
    batch is answered call by call. *)
Lemma OpenAiLib_malformed_arguments_are_answered :
  fst (OpenAiLib.handleToolCalls Samples.platform
         [Samples.call_status; Samples.call_malformed] Samples.echo_handler Samples.world)
  = Next [ {| tool_call_id := "tc-1";
              output := Samples.print (JObj [("tool", JStr "get_booking_status")]) |};
           {| tool_call_id := "tc-3";
              output := Samples.print
                          (JObj [("error", JStr "Failed to parse function arguments")]) |} ].
Proof. vm_compute. reflexivity. Qed.

(* ================================================================= *)
(** ** Bounded waits *)

(** Each round of polling of the send-message handler is limited to
    [maxAttempts] waits (lemma [ChatSendFacts.poll_bounded]) and the handler
    always ends (lemma [ChatSendFacts.POST_bounded]); [runAssistant] of
    [lib/openai.ts] shares one time limit between its rounds (lemma
    [OpenAiLibFacts.runAssistant_bounded]).  The two statements below show
    where the 60-second budget is not kept. *)

(** The earlier [runAssistant] never returns while the run is reported as
    queued, whatever the fuel. *)
Lemma OpenAiLegacy_runAssistant_unbounded fuel :
  OpenAiLegacy.runAssistant Samples.platform Samples.legacy_lib_env Samples.stuck_service
    fuel "thread-1" Samples.world
  = None.
Proof.
  apply OpenAiLegacyFacts.runAssistant_never_returns
    with (run := Samples.run_in "queued" None); try reflexivity.
  intros n. exists (Samples.run_in "queued" None). split; reflexivity.
Qed.

(** C8.  The 60-second budget of the polling is not kept.  In the
    send-message handler [attempts] is set back to 0 before the second
    polling loop: for a run that is reported as queued for 29 status checks,
    asks for a tool call at the 30th and is reported as queued ever after,
    the handler waits ninety times one second, [maxAttempts] being 60, and
    then answers 200.  The earlier [runAssistant] has no limit at all: while
    the run is reported as queued it never returns. *)
Theorem C8_polling_exceeds_budget :
  ChatSend.maxAttempts = 60 /\
  option_map (fun rw => (status (fst rw), sleeps (snd rw)))
    (ChatSend.POST Samples.platform Samples.send_env Samples.send_oracle
       (Samples.slow_service [Samples.call_status]) 200
       (Samples.send_request "user-1") Samples.world)
  = Some (200, 90) /\
  (forall fuel,
      OpenAiLegacy.runAssistant Samples.platform Samples.legacy_lib_env
        Samples.stuck_service fuel "thread-1" Samples.world
      = None).
Proof.
  split; [reflexivity |].
  split; [vm_compute; reflexivity |].
  exact OpenAiLegacy_runAssistant_unbounded.
Qed.

(* ================================================================= *)
(** ** A request on behalf of another user *)

Lemma C10_userId_not_checked_witness :
  match
    ChatSend.POST Samples.platform Samples.send_env Samples.send_oracle
      (Samples.quick_service [Samples.call_status]) 60
      (Samples.send_request "user-1") Samples.world,
    ChatSend.POST Samples.platform Samples.send_env Samples.send_oracle
      (Samples.quick_service [Samples.call_status]) 60
      (Samples.send_request "user-2") Samples.world
  with
  | Some (r1, w1), Some (r2, w2) =>
      chats (store w1) = chats (store w2) /\
      firstn 1 (messages (store w1)) = firstn 1 (messages (store w2)) /\
      (forall row,
          nth_error (messages (store w1)) 0 = Some row ->
          row = ChatSend.userRow (str "chat-1") (str "Book a table")) /\
      r1 = r2 /\ w1 = w2
  | _, _ => False
  end.
Proof.
  destruct (ChatSend.POST Samples.platform Samples.send_env Samples.send_oracle
              (Samples.quick_service [Samples.call_status]) 60
              (Samples.send_request "user-1") Samples.world)
    as [[r1 w1]|] eqn:E1; [| vm_compute in E1; discriminate E1].
  destruct (ChatSend.POST Samples.platform Samples.send_env Samples.send_oracle
              (Samples.quick_service [Samples.call_status]) 60
              (Samples.send_request "user-2") Samples.world)
    as [[r2 w2]|] eqn:E2; [| vm_compute in E2; discriminate E2].
  destruct (C10_userId_not_checked Samples.platform Samples.send_env Samples.send_oracle
              (Samples.quick_service [Samples.call_status]) 60
              (Samples.send_request "user-1") (Samples.send_request "user-2")
              Samples.world (Samples.send_body "user-1") (Samples.send_body "user-2")
              r1 w1 r2 w2 eq_refl eq_refl eq_refl eq_refl eq_refl eq_refl E1 E2)
    as (Hchats & Hfirst & Hrow & Hsame).
  split; [exact Hchats |]. split; [exact Hfirst |]. split; [exact Hrow |].
  apply Hsame. intros url a c u u' s. reflexivity.
Defined.

Import Columns Hoare.

(* ================================================================= *)
(** ** Rules for postconditions *)

Module HoareFacts.

Section Rules.

Context {A : Type}.
Variable Q : Outcome A -> World -> Prop.
Variable w : World.

Lemma wp_ret a : Q (Next a) w -> wp (ret a) Q w.
Proof. exact (fun H => H). Qed.

Lemma wp_respond r : Q (Return r) w -> wp (respond r) Q w.
Proof. exact (fun H => H). Qed.

Lemma wp_throw e : Q (Throw e) w -> wp (throw e) Q w.
Proof. exact (fun H => H). Qed.

Lemma wp_bind {B} (m : M B) (k : B -> M A) :
  wp m (fun o w' =>
          match o with
          | Next b => wp (k b) Q w'
          | Return r => Q (Return r) w'
          | Throw e => Q (Throw e) w'
          end) w ->
  wp (bind m k) Q w.
Proof.
  unfold wp, bind. destruct (m w) as [[b|r|e] w']; cbn; auto.
Qed.

Lemma wp_try_catch (m : M A) (h : Exn -> M A) :
  wp m (fun o w' =>
          match o with
          | Throw e => wp (h e) Q w'
          | other => Q other w'
          end) w ->
  wp (try_catch m h) Q w.
Proof.
  unfold wp, try_catch. destruct (m w) as [[b|r|e] w']; cbn; auto.
Qed.

Lemma wp_pure (m : M A) :
  pure m ->
  (forall a, fst (m w) = Next a -> Q (Next a) w) ->
  (forall e, fst (m w) = Throw e -> Q (Throw e) w) ->
  wp m Q w.
Proof.
  intros Hp Hn Ht. unfold wp. destruct (Hp w) as [-> Hr].
  destruct (fst (m w)) as [a|r|e]; [now apply Hn | now destruct (Hr r) | now apply Ht].
Qed.

Lemma wp_call (answer : Exn + A) :
  match answer with
  | inl e => Q (Throw e) w
  | inr a => Q (Next a) w
  end ->
  wp (call answer) Q w.
Proof. destruct answer; exact (fun H => H). Qed.

End Rules.

Lemma wp_log Q w l text :
  Q (Next tt) {| store := store w; console := console w ++ [(l, text)]; sleeps := sleeps w |} ->
  wp (log l text) Q w.
Proof. exact (fun H => H). Qed.

Lemma wp_query {A} Q w fault (op : Store -> Result A * Store) :
  match fault with
  | Some msg => Q (Next (failed msg)) w
  | None =>
      Q (Next (fst (op (store w))))
        {| store := snd (op (store w)); console := console w; sleeps := sleeps w |}
  end ->
  wp (query fault op) Q w.
Proof.
  unfold wp, query. destruct fault; [exact (fun H => H) |].
  destruct (op (store w)); exact (fun H => H).
Qed.

Lemma wp_parse_json Q w P text :
  match JSON_parse P text with
  | inl v => Q (Next v) w
  | inr msg => Q (Throw (SyntaxError msg)) w
  end ->
  wp (parse_json P text) Q w.
Proof. unfold wp, parse_json. destruct (JSON_parse P text); exact (fun H => H). Qed.

Lemma wp_prop Q w k o :
  (o = JNull ->
   Q (Throw (TypeError ("Cannot read properties of null (reading '" ++ k ++ "')"))) w) ->
  (o <> JNull -> Q (Next (get k o)) w) ->
  wp (prop k o) Q w.
Proof.
  intros H1 H2. unfold wp, prop. destruct o; try (apply H2; discriminate). now apply H1.
Qed.

Lemma wp_destructured Q w k source o :
  (o = JNull ->
   Q (Throw (TypeError ("Cannot destructure property '" ++ k ++ "' of '" ++ source
                          ++ "' as it is null."))) w) ->
  (o <> JNull -> Q (Next (get k o)) w) ->
  wp (destructured k source o) Q w.
Proof.
  intros H1 H2. unfold wp, destructured. destruct o; try (apply H2; discriminate).
  now apply H1.
Qed.

Lemma answers_handler Q w body on_error :
  wp body (caught on_error Q) w -> answers (handler body on_error) Q w.
Proof.
  unfold answers, handler, try_catch, wp, caught.
  destruct (body w) as [[r|r|e] w1]; cbn; auto.
  unfold wp. destruct (on_error e w1) as [[r|r|e'] w2]; cbn; auto.
Qed.

Lemma wp_conseq {A} (m : M A) (Q Q' : Outcome A -> World -> Prop) w :
  (forall o w', Q o w' -> Q' o w') -> wp m Q w -> wp m Q' w.
Proof. unfold wp. auto. Qed.

End HoareFacts.

Import HoareFacts.

(** One step of a computation under [wp]: an atomic computation by its
    rule, a branch by what the context knows of its condition or else by
    cases. *)
Ltac split_on x :=
  lazymatch x with
  | context [single ?l] =>
      lazymatch l with
      | nil => fail
      | cons _ _ => fail
      | _ =>
          match goal with
          | H : l = _ |- _ => rewrite H
          | _ => let E := fresh "E" in destruct l as [|? [|? ?]] eqn:E
          end
      end
  | _ =>
      match goal with
      | H : x = _ |- _ => rewrite H
      | _ => let E := fresh "E" in destruct x eqn:E; try discriminate E
      end
  end.

Ltac wp_head :=
  lazymatch goal with
  | |- wp (bind _ _) _ _ => apply wp_bind
  | |- wp (ret _) _ _ => apply wp_ret
  | |- wp (respond _) _ _ => apply wp_respond
  | |- wp (throw _) _ _ => apply wp_throw
  | |- wp (log _ _) _ _ => apply wp_log
  | |- wp (call _) _ _ => apply wp_call
  | |- wp (parse_json _ _) _ _ => apply wp_parse_json
  | |- wp (try_catch _ _) _ _ => apply wp_try_catch
  | |- wp (query ?fault _) _ _ => apply wp_query; split_on fault
  | |- wp (prop _ ?o) _ _ => apply wp_prop; intros ?
  | |- wp (destructured _ _ ?o) _ _ => apply wp_destructured; intros ?
  | |- wp (match ?x with _ => _ end) _ _ => split_on x
  | |- match ?x with _ => _ end => split_on x
  end.

Ltac wp_simpl :=
  cbv beta iota zeta;
  cbn [fst snd error data failed found single store console sleeps].

Ltac wp_run := repeat (wp_simpl; wp_head).

(** The same, with the steps [known] takes from the context tried first. *)
Ltac wp_run_with known := repeat (wp_simpl; first [known | wp_head]).

(* ================================================================= *)
(** ** The outcome webhook: what it writes and what it leaves *)

Lemma outcome_only_refl l : Forall2 outcome_only l l.
Proof. induction l; constructor; auto. repeat split. Qed.

Lemma outcome_only_update id status result l :
  Forall2 outcome_only l
    (map (fun b => if (b_id b =? id)%string then set_outcome status result b else b) l).
Proof.
  induction l as [|b l IH]; simpl; constructor; auto.
  destruct (b_id b =? id)%string; repeat split.
Qed.

(** What [read_callbackData] answers does not depend on the world. *)
Lemma read_callbackData_any P env req w o :
  fst (BookingCallback.read_callbackData P env req w) = Next o ->
  forall w', BookingCallback.read_callbackData P env req w' = (Next o, w').
Proof.
  unfold BookingCallback.read_callbackData, parse_json, bind, log, respond, ret, throw.
  intros H w'. revert H. run_cases; intros H; try discriminate H; cbn in H; congruence.
Qed.

Lemma wp_callback_destructure Q w o :
  (o = JNull ->
   Q (Throw (TypeError
               "Cannot destructure property 'callId' of 'callbackData' as it is null.")) w) ->
  (o <> JNull -> Q (Next o) w) ->
  wp (BookingCallback.destructure o) Q w.
Proof.
  intros H1 H2. unfold wp. destruct o; try (apply H2; discriminate). now apply H1.
Qed.

Lemma messageContent_pure status transcript reason details :
  pure (BookingCallback.messageContent status transcript reason details).
Proof.
  intros w. unfold BookingCallback.messageContent, bind, prop, ret, throw.
  destruct details; cbn; split; try reflexivity; discriminate.
Qed.

Ltac callback_head :=
  lazymatch goal with
  | |- wp (BookingCallback.destructure _) _ _ => apply wp_callback_destructure; intros ?
  | |- wp (BookingCallback.messageContent _ _ _ _) _ _ =>
      apply wp_pure; [apply messageContent_pure | intros ? ? | intros ? ?]
  | |- wp (BookingCallback.read_callbackData _ _ _) _ _ =>
      unfold BookingCallback.read_callbackData
  | |- wp (BookingCallback.on_error _) _ _ => unfold BookingCallback.on_error
  | |- _ => wp_head
  end.

Ltac callback_run := repeat (wp_simpl; callback_head).

Ltac frame_goal :=
  cbn;
  repeat match goal with
         | |- _ /\ _ => split
         end;
  cbn;
  try reflexivity;
  try (apply outcome_only_refl);
  try (apply outcome_only_update);
  try (simpl; tauto);
  try (now left);
  try (right; split; [reflexivity | eexists; split; reflexivity]);
  try (intros ?; exfalso; lia).

(** X1.  Whatever the request, the outcome webhook leaves the chats alone,
    waits for nothing, and changes no column of a booking other than its
    status and its result; it adds at most one message, a system message,
    and only when it answers 200; a request answered 400, 401 or 404 has
    written nothing. *)
Theorem BookingCallback_writes_outcome_only P env faults req w :
  let '(r, w') := BookingCallback.POST P env faults req w in
  In (status r) [200; 400; 401; 404; 500] /\
  chats (store w') = chats (store w) /\
  sleeps w' = sleeps w /\
  Forall2 outcome_only (bookings (store w)) (bookings (store w')) /\
  (messages (store w') = messages (store w) \/
   status r = 200 /\
   exists row, messages (store w') = (messages (store w) ++ [row])%list /\
               m_role row = "system") /\
  (status r = 400 \/ status r = 401 \/ status r = 404 -> store w' = store w).
Proof.
  set (Q := fun (r : Response) (w' : World) =>
       In (status r) [200; 400; 401; 404; 500] /\
       chats (store w') = chats (store w) /\
       sleeps w' = sleeps w /\
       Forall2 outcome_only (bookings (store w)) (bookings (store w')) /\
       (messages (store w') = messages (store w) \/
        status r = 200 /\
        exists row, messages (store w') = (messages (store w) ++ [row])%list /\
                    m_role row = "system") /\
       (status r = 400 \/ status r = 401 \/ status r = 404 -> store w' = store w)).
  enough (H : answers (BookingCallback.POST P env faults req) Q w).
  { unfold answers in H. destruct (BookingCallback.POST P env faults req w). exact H. }
  unfold BookingCallback.POST. apply answers_handler.
  callback_run.
  all: unfold caught; callback_run.
  all: try contradiction.
  all: subst Q; frame_goal.
Qed.

(** The text of the message depends on the notification and on the details
    of the booking only. *)
Lemma messageContent_const status transcript reason details :
  details <> JNull ->
  exists content, forall w,
    BookingCallback.messageContent status transcript reason details w = (Next content, w).
Proof.
  intros Hd. unfold BookingCallback.messageContent, bind, prop, ret.
  destruct details; try contradiction; eexists; intros w; reflexivity.
Qed.

(** The row written for a notification [o] about [booking]. *)
Lemma callback_processed P env faults req w o booking :
  fst (BookingCallback.read_callbackData P env req w) = Next o ->
  truthy (get "callId" o) = true ->
  BookingCallback.find_fault faults = None ->
  bookings_by_call_id (to_string (get "callId" o)) (store w) = [booking] ->
  BookingCallback.update_fault faults = None ->
  b_details booking <> JNull ->
  BookingCallback.insert_fault faults = None ->
  exists content,
    (forall w0,
        BookingCallback.messageContent (get "status" o) (get "transcript" o)
          (get "reason" o) (b_details booking) w0 = (Next content, w0)) /\
    fst (BookingCallback.POST P env faults req w)
    = json_response [("success", flag true)] 200 /\
    store (snd (BookingCallback.POST P env faults req w))
    = insert_message
        {| m_chat_id := b_chat_id booking;
           m_role := "system";
           m_content := content;
           m_metadata := JObj (literal [("callId", get "callId" o);
                                        ("bookingId", str (b_id booking));
                                        ("status", get "status" o)]) |}
        (update_bookings (b_id booking)
           (set_outcome (BookingCallback.bookingStatus (get "status" o))
              (BookingCallback.resultPayload (get "transcript" o) (get "duration" o)
                 (get "reason" o) (get "result" o)))
           (store w)).
Proof.
  intros Hread Hcall Hfind Hrows Hupd Hdetails Hins. apply read_callbackData_next in Hread.
  destruct (messageContent_const (get "status" o) (get "transcript" o) (get "reason" o)
              (b_details booking) Hdetails) as [content Hc].
  exists content. split; [exact Hc |].
  unfold BookingCallback.POST, handler, try_catch, bind.
  rewrite Hread, (destructure_truthy _ _ Hcall), Hcall. cbn [negb].
  unfold query. rewrite Hfind, Hrows, Hupd, Hins. cbn [single found error data].
  cbv beta iota zeta. cbn [ret]. rewrite Hc. cbv beta iota zeta.
  cbn [error data log ret fst snd store]. split; reflexivity.
Qed.

Lemma filter_map_same {A} (p : A -> bool) (g : A -> A) l :
  (forall a, p (g a) = p a) -> filter p (map g l) = map g (filter p l).
Proof.
  intros H. induction l as [|a l IH]; simpl; [reflexivity |].
  rewrite H. destruct (p a); simpl; now rewrite IH.
Qed.

Lemma map_update_twice id status result (l : list BookingRow) :
  let g := fun b => if (b_id b =? id)%string then set_outcome status result b else b in
  map g (map g l) = map g l.
Proof.
  intros g. rewrite map_map. apply map_ext. intros b. unfold g.
  destruct (b_id b =? id)%string eqn:E; [| now rewrite E].
  cbn [set_outcome b_id]. now rewrite E.
Qed.

(** X2.  The webhook is not protected against a notification delivered
    twice: the second delivery of an accepted notification is accepted
    again, leaves the bookings as the first delivery left them, and writes
    the same system message a second time. *)
Theorem BookingCallback_replay_repeats_message P env faults req w o booking :
  fst (BookingCallback.read_callbackData P env req w) = Next o ->
  truthy (get "callId" o) = true ->
  BookingCallback.find_fault faults = None ->
  BookingCallback.update_fault faults = None ->
  BookingCallback.insert_fault faults = None ->
  bookings_by_call_id (to_string (get "callId" o)) (store w) = [booking] ->
  b_details booking <> JNull ->
  let '(r1, w1) := BookingCallback.POST P env faults req w in
  let '(r2, w2) := BookingCallback.POST P env faults req w1 in
  r1 = json_response [("success", flag true)] 200 /\
  r2 = json_response [("success", flag true)] 200 /\
  bookings (store w2) = bookings (store w1) /\
  exists row,
    messages (store w1) = (messages (store w) ++ [row])%list /\
    messages (store w2) = (messages (store w) ++ [row; row])%list.
Proof.
  intros Hread Hcall Hfind Hupd Hins Hrows Hdetails.
  destruct (callback_processed P env faults req w o booking Hread Hcall Hfind Hrows Hupd
              Hdetails Hins) as (content & Hc & Hr1 & Hs1).
  destruct (BookingCallback.POST P env faults req w) as [r1 w1] eqn:E1.
  cbn [fst snd] in Hr1, Hs1.
  set (f := set_outcome (BookingCallback.bookingStatus (get "status" o))
              (BookingCallback.resultPayload (get "transcript" o) (get "duration" o)
                 (get "reason" o) (get "result" o))) in *.
  assert (Hread1 : fst (BookingCallback.read_callbackData P env req w1) = Next o).
  { now rewrite (read_callbackData_any P env req w o Hread w1). }
  assert (Hrows1 : bookings_by_call_id (to_string (get "callId" o)) (store w1) = [f booking]).
  { rewrite Hs1. unfold bookings_by_call_id, insert_message, update_bookings.
    cbn [bookings]. rewrite filter_map_same.
    - fold (bookings_by_call_id (to_string (get "callId" o)) (store w)). rewrite Hrows.
      cbn [map]. now rewrite String.eqb_refl.
    - intros b. destruct (b_id b =? b_id booking)%string; reflexivity. }
  destruct (callback_processed P env faults req w1 o (f booking) Hread1 Hcall Hfind Hrows1
              Hupd Hdetails Hins) as (content' & Hc' & Hr2 & Hs2).
  destruct (BookingCallback.POST P env faults req w1) as [r2 w2] eqn:E2.
  cbn [fst snd] in Hr2, Hs2.
  assert (content' = content) as ->.
  { specialize (Hc w). specialize (Hc' w). cbn [f set_outcome b_details] in Hc'. congruence. }
  split; [exact Hr1 |]. split; [exact Hr2 |]. split.
  - rewrite Hs2, Hs1. cbn [insert_message update_bookings bookings f set_outcome b_id].
    apply map_update_twice.
  - eexists. split.
    + rewrite Hs1. cbn [insert_message update_bookings messages]. reflexivity.
    + rewrite Hs2, Hs1. cbn [insert_message update_bookings messages f set_outcome b_id b_chat_id].
      rewrite <- app_assoc. reflexivity.
Qed.

Lemma BookingCallback_replay_repeats_message_witness :
  let '(r1, w1) :=
    BookingCallback.POST Samples.platform Samples.callback_env Samples.no_faults
      (Samples.signed Samples.busy_text) Samples.world in
  let '(r2, w2) :=
    BookingCallback.POST Samples.platform Samples.callback_env Samples.no_faults
      (Samples.signed Samples.busy_text) w1 in
  r1 = json_response [("success", flag true)] 200 /\
  r2 = json_response [("success", flag true)] 200 /\
  bookings (store w2) = bookings (store w1) /\
  exists row,
    messages (store w1) = (messages (store Samples.world) ++ [row])%list /\
    messages (store w2) = (messages (store Samples.world) ++ [row; row])%list.
Proof.
  apply (BookingCallback_replay_repeats_message Samples.platform Samples.callback_env
           Samples.no_faults (Samples.signed Samples.busy_text) Samples.world
           Samples.notification_busy Samples.booking);
    try reflexivity; discriminate.
Defined.

(** X3.  When the store refuses the update of the booking, the webhook
    answers 500 with [success: false] and the generic error text (the
    store's error object is not an [Error]); nothing has been written: the
    booking keeps its status and no message is added. *)
Theorem BookingCallback_update_failure P env faults req w o booking updateError :
  fst (BookingCallback.read_callbackData P env req w) = Next o ->
  truthy (get "callId" o) = true ->
  BookingCallback.find_fault faults = None ->
  bookings_by_call_id (to_string (get "callId" o)) (store w) = [booking] ->
  BookingCallback.update_fault faults = Some updateError ->
  BookingCallback.POST P env faults req w
  = (json_response [("success", flag false); ("error", str "Internal server error")] 500,
     {| store := store w;
        console := console w ++ [(ERROR, "Error updating booking:")]
                             ++ [(ERROR, "Error in booking callback API:")];
        sleeps := sleeps w |}).
Proof.
  intros Hread Hcall Hfind Hrows Hupd. apply read_callbackData_next in Hread.
  unfold BookingCallback.POST, handler, try_catch, bind.
  rewrite Hread, (destructure_truthy _ _ Hcall), Hcall. cbn [negb].
  unfold query. rewrite Hfind, Hrows, Hupd. cbn. rewrite <- app_assoc.
  destruct w; reflexivity.
Qed.

Lemma BookingCallback_update_failure_witness :
  BookingCallback.POST Samples.platform Samples.callback_env Scenarios.update_fails
    (Samples.signed Samples.completed_text) Samples.world
  = (json_response [("success", flag false); ("error", str "Internal server error")] 500,
     {| store := store Samples.world;
        console := [(ERROR, "Error updating booking:");
                    (ERROR, "Error in booking callback API:")];
        sleeps := 0 |}).
Proof.
  apply (BookingCallback_update_failure Samples.platform Samples.callback_env
           Scenarios.update_fails (Samples.signed Samples.completed_text) Samples.world
           Samples.notification_completed Samples.booking "row is locked");
    reflexivity.
Defined.

(** *** Which requests are checked *)

Lemma read_callbackData_unchecked P env req :
  str_truthy (BookingCallback.x_webhook_signature req) = false \/
  (exists secret,
      BookingCallback.WEBHOOK_SECRET env = Some secret /\
      BookingCallback.x_webhook_signature req
      = Some (hmac_sha256_hex P secret (BookingCallback.raw_body req))) ->
  BookingCallback.read_callbackData P env req = parse_json P (BookingCallback.raw_body req).
Proof.
  intros H. unfold BookingCallback.read_callbackData.
  destruct (BookingCallback.WEBHOOK_SECRET env) as [secret|];
    destruct (BookingCallback.x_webhook_signature req) as [sig|]; try reflexivity.
  destruct (negb (secret =? "") && negb (sig =? "")) eqn:Eboth; [| reflexivity].
  apply andb_true_iff in Eboth as [_ Esig].
  destruct H as [H | (secret' & Hs & Hsig)].
  - cbn in H. rewrite H in Esig. discriminate.
  - injection Hs as <-. injection Hsig as ->. now rewrite String.eqb_refl.
Qed.

(** X4.  The signature is checked only when the request carries one.  A
    request without the header (or with an empty one) is processed
    whatever the configured secret is, and a request with the right
    signature is processed too: both are handled exactly as the same body
    would be by a deployment without a secret. *)
Theorem BookingCallback_unsigned_request_is_processed P env faults req w :
  str_truthy (BookingCallback.x_webhook_signature req) = false \/
  (exists secret,
      BookingCallback.WEBHOOK_SECRET env = Some secret /\
      BookingCallback.x_webhook_signature req
      = Some (hmac_sha256_hex P secret (BookingCallback.raw_body req))) ->
  BookingCallback.POST P env faults req w
  = BookingCallback.POST P {| BookingCallback.WEBHOOK_SECRET := None |} faults
      {| BookingCallback.x_webhook_signature := None;
         BookingCallback.raw_body := BookingCallback.raw_body req |} w /\
  status (fst (BookingCallback.POST P env faults req w)) <> 401.
Proof.
  intros H. pose proof (read_callbackData_unchecked P env req H) as Hread.
  assert (Hnext : forall o,
             fst (parse_json P (BookingCallback.raw_body req) w) = Next o ->
             BookingCallback.read_callbackData P env req w = (Next o, w)).
  { intros o Ho. rewrite Hread. unfold parse_json in *.
    destruct (JSON_parse P (BookingCallback.raw_body req)); [| discriminate Ho].
    cbn in Ho. injection Ho as ->. reflexivity. }
  split.
  - unfold BookingCallback.POST. rewrite Hread. reflexivity.
  - destruct (fst (parse_json P (BookingCallback.raw_body req) w)) as [o|r|e] eqn:Ep.
    + apply (POST_never_401_after_read P env faults req w o). now apply Hnext.
    + unfold parse_json in Ep. destruct (JSON_parse P (BookingCallback.raw_body req));
        discriminate Ep.
    + unfold BookingCallback.POST, handler, try_catch, bind. rewrite Hread.
      unfold parse_json in *. destruct (JSON_parse P (BookingCallback.raw_body req));
        [discriminate Ep |]. cbn. discriminate.
Qed.

Lemma BookingCallback_unsigned_request_is_processed_witness :
  BookingCallback.POST Samples.platform Samples.callback_env Samples.no_faults
    (Samples.unsigned Samples.busy_text) Samples.world
  = BookingCallback.POST Samples.platform {| BookingCallback.WEBHOOK_SECRET := None |}
      Samples.no_faults
      {| BookingCallback.x_webhook_signature := None;
         BookingCallback.raw_body := Samples.busy_text |} Samples.world /\
  status (fst (BookingCallback.POST Samples.platform Samples.callback_env Samples.no_faults
                 (Samples.unsigned Samples.busy_text) Samples.world)) <> 401.
Proof.
  apply (BookingCallback_unsigned_request_is_processed Samples.platform
           Samples.callback_env Samples.no_faults (Samples.unsigned Samples.busy_text)
           Samples.world).
  left. reflexivity.
Defined.

(** *** The message of an accepted notification *)

(** X5.  The system message of an accepted notification goes to the chat
    of the booking found by the call identifier; it is the only row added,
    its text is the one [messageContent] builds from the notification and
    the details of that booking, and its metadata name the call, the
    booking and the status of the notification. *)
Theorem BookingCallback_message_goes_to_booking_chat P env faults req w o booking :
  fst (BookingCallback.read_callbackData P env req w) = Next o ->
  truthy (get "callId" o) = true ->
  BookingCallback.find_fault faults = None ->
  BookingCallback.update_fault faults = None ->
  BookingCallback.insert_fault faults = None ->
  bookings_by_call_id (to_string (get "callId" o)) (store w) = [booking] ->
  b_details booking <> JNull ->
  let '(r, w') := BookingCallback.POST P env faults req w in
  r = json_response [("success", flag true)] 200 /\
  exists row,
    messages (store w') = (messages (store w) ++ [row])%list /\
    m_chat_id row = b_chat_id booking /\
    m_role row = "system" /\
    fst (BookingCallback.messageContent (get "status" o) (get "transcript" o)
           (get "reason" o) (b_details booking) w) = Next (m_content row) /\
    get "callId" (m_metadata row) = get "callId" o /\
    get "bookingId" (m_metadata row) = Some (JStr (b_id booking)) /\
    get "status" (m_metadata row) = get "status" o.
Proof.
  intros Hread Hcall Hfind Hupd Hins Hrows Hdetails.
  destruct (callback_processed P env faults req w o booking Hread Hcall Hfind Hrows Hupd
              Hdetails Hins) as (content & Hc & Hr & Hs).
  destruct (BookingCallback.POST P env faults req w) as [r w']. cbn [fst snd] in Hr, Hs.
  split; [exact Hr |]. eexists. rewrite Hs. cbn [insert_message messages update_bookings].
  split; [reflexivity |]. cbn [m_chat_id m_role m_content m_metadata].
  split; [reflexivity |]. split; [reflexivity |]. split; [now rewrite Hc |].
  cbn [get].
  repeat split; rewrite assoc_literal; try reflexivity;
    repeat constructor; simpl; intuition discriminate.
Qed.

Lemma BookingCallback_message_goes_to_booking_chat_witness :
  let '(r, w') :=
    BookingCallback.POST Samples.platform Samples.callback_env Samples.no_faults
      (Samples.signed Samples.completed_text) Samples.world in
  r = json_response [("success", flag true)] 200 /\
  exists row,
    messages (store w') = (messages (store Samples.world) ++ [row])%list /\
    m_chat_id row = "chat-1" /\
    m_role row = "system" /\
    fst (BookingCallback.messageContent (str "completed") (str "Table booked.") None
           (b_details Samples.booking) Samples.world) = Next (m_content row) /\
    get "callId" (m_metadata row) = str "call-1" /\
    get "bookingId" (m_metadata row) = Some (JStr "booking-1") /\
    get "status" (m_metadata row) = str "completed".
Proof.
  apply (BookingCallback_message_goes_to_booking_chat Samples.platform
           Samples.callback_env Samples.no_faults (Samples.signed Samples.completed_text)
           Samples.world Samples.notification_completed Samples.booking);
    try reflexivity; discriminate.
Defined.

Lemma is_string_other lit status : status <> str lit -> is_string lit status = false.
Proof.
  intros H. destruct status as [[| | |s| |]|]; try reflexivity. cbn.
  destruct (s =? lit)%string eqn:E; [| reflexivity].
  apply String.eqb_eq in E. subst. now destruct H.
Qed.

(** X6.  The transcript of the call reaches the text of the message only
    when the status is "completed", and the reason only when it is
    "failed": for every other status the text is the same whatever they
    are (a busy line is reported without the transcript). *)
Theorem BookingCallback_messageContent_fields status details w :
  (status <> str "completed" ->
   forall transcript transcript' reason,
     BookingCallback.messageContent status transcript reason details w
     = BookingCallback.messageContent status transcript' reason details w) /\
  (status <> str "failed" ->
   forall transcript reason reason',
     BookingCallback.messageContent status transcript reason details w
     = BookingCallback.messageContent status transcript reason' details w).
Proof.
  split; intros H; intros; apply is_string_other in H;
    unfold BookingCallback.messageContent, bind, prop, ret;
    destruct details; try reflexivity; cbv beta iota; rewrite H;
    destruct (is_string "completed" status); reflexivity.
Qed.

Lemma BookingCallback_messageContent_fields_witness :
  BookingCallback.messageContent (str "busy") (str "beep") None
    (b_details Samples.booking) Samples.world
  = BookingCallback.messageContent (str "busy") None None
      (b_details Samples.booking) Samples.world /\
  BookingCallback.messageContent (str "busy") None (str "line engaged")
    (b_details Samples.booking) Samples.world
  = BookingCallback.messageContent (str "busy") None None
      (b_details Samples.booking) Samples.world.
Proof.
  split.
  - apply (proj1 (BookingCallback_messageContent_fields (str "busy")
                    (b_details Samples.booking) Samples.world)).
    discriminate.
  - apply (proj2 (BookingCallback_messageContent_fields (str "busy")
                    (b_details Samples.booking) Samples.world)).
    discriminate.
Defined.

(* ================================================================= *)
(** ** The outcome webhook, shared-secret variant *)

(** X7.  The shared-secret webhook authenticates before it reads the body.
    With no secret configured every request is answered 500 "Server
    configuration error"; with a secret configured every request whose
    [x-webhook-secret] header is missing or differs from it is answered 401
    "Unauthorized".  In both cases nothing is read from or written to the
    store, whatever the body. *)
Theorem BookingCallbackSecret_authenticates_first P env faults req w :
  (str_truthy (BookingCallbackSecret.WEBHOOK_SECRET env) = false ->
   BookingCallbackSecret.POST P env faults req w
   = (json_response [("error", str "Server configuration error")] 500,
      {| store := store w;
         console := console w
                    ++ [(ERROR, "[Booking Callback] WEBHOOK_SECRET not configured")];
         sleeps := sleeps w |})) /\
  (str_truthy (BookingCallbackSecret.WEBHOOK_SECRET env) = true ->
   BookingCallbackSecret.x_webhook_secret req <> BookingCallbackSecret.WEBHOOK_SECRET env ->
   BookingCallbackSecret.POST P env faults req w
   = (json_response [("error", str "Unauthorized")] 401,
      {| store := store w;
         console := console w
                    ++ [(ERROR, "[Booking Callback] Unauthorized webhook attempt at")];
         sleeps := sleeps w |})).
Proof.
  split.
  - intros H. unfold BookingCallbackSecret.POST, handler, try_catch, bind.
    rewrite H. reflexivity.
  - intros H Hne. unfold BookingCallbackSecret.POST, handler, try_catch, bind.
    rewrite H. cbn [negb].
    destruct (BookingCallbackSecret.x_webhook_secret req) as [given|];
      destruct (BookingCallbackSecret.WEBHOOK_SECRET env) as [expected|];
      try reflexivity.
    destruct (given =? expected)%string eqn:E; [| reflexivity].
    apply String.eqb_eq in E. subst. now destruct Hne.
Qed.

Lemma BookingCallbackSecret_authenticates_first_witness :
  BookingCallbackSecret.POST Samples.platform Scenarios.secret_env_unconfigured
    Scenarios.secret_no_faults (Samples.with_secret Samples.completed_text) Samples.world
  = (json_response [("error", str "Server configuration error")] 500,
     {| store := store Samples.world;
        console := [(ERROR, "[Booking Callback] WEBHOOK_SECRET not configured")];
        sleeps := 0 |}) /\
  BookingCallbackSecret.POST Samples.platform Samples.secret_env
    Scenarios.secret_no_faults (Scenarios.with_wrong_secret "not json") Samples.world
  = (json_response [("error", str "Unauthorized")] 401,
     {| store := store Samples.world;
        console := [(ERROR, "[Booking Callback] Unauthorized webhook attempt at")];
        sleeps := 0 |}).
Proof.
  split.
  - apply (proj1 (BookingCallbackSecret_authenticates_first Samples.platform
                    Scenarios.secret_env_unconfigured Scenarios.secret_no_faults
                    (Samples.with_secret Samples.completed_text) Samples.world)).
    reflexivity.
  - apply (proj2 (BookingCallbackSecret_authenticates_first Samples.platform
                    Samples.secret_env Scenarios.secret_no_faults
                    (Scenarios.with_wrong_secret "not json") Samples.world)).
    + reflexivity.
    + discriminate.
Defined.

Lemma createSystemMessage_pure status booking result :
  pure (BookingCallbackSecret.createSystemMessage status booking result).
Proof.
  intros w. unfold BookingCallbackSecret.createSystemMessage, bind, prop, ret, throw.
  destruct (b_details booking); cbn; split; try reflexivity; discriminate.
Qed.

Lemma createSystemMessage_const status booking result :
  b_details booking <> JNull ->
  exists content, forall w,
    BookingCallbackSecret.createSystemMessage status booking result w = (Next content, w).
Proof.
  intros Hd. unfold BookingCallbackSecret.createSystemMessage, bind, prop, ret.
  destruct (b_details booking); try contradiction; eexists; intros w; reflexivity.
Qed.

(** The request passes the authentication. *)
Lemma secret_authorised env req secret :
  BookingCallbackSecret.WEBHOOK_SECRET env = Some secret ->
  secret <> "" ->
  BookingCallbackSecret.x_webhook_secret req = Some secret ->
  negb (str_truthy (BookingCallbackSecret.WEBHOOK_SECRET env)) = false /\
  negb match BookingCallbackSecret.x_webhook_secret req,
             BookingCallbackSecret.WEBHOOK_SECRET env with
       | Some given, Some expected => (given =? expected)%string
       | _, _ => false
       end = false.
Proof.
  intros -> Hne ->. cbn. rewrite String.eqb_refl. apply String.eqb_neq in Hne.
  now rewrite Hne.
Qed.

(** X8.  An authenticated notification for a known call stores the status
    of the notification as it is (no mapping to "completed" or "failed")
    together with the payload [{ transcript: transcript || '', duration:
    duration || 0, ...result }], and is answered with a success whether or
    not the insertion of the system message worked: when the store refuses
    the message the booking stays updated and no message is written. *)
Theorem BookingCallbackSecret_stores_raw_status P env faults req w secret body booking :
  BookingCallbackSecret.WEBHOOK_SECRET env = Some secret ->
  secret <> "" ->
  BookingCallbackSecret.x_webhook_secret req = Some secret ->
  JSON_parse P (BookingCallbackSecret.raw_body req) = inl body ->
  truthy (get "callId" body) = true ->
  truthy (get "status" body) = true ->
  BookingCallbackSecret.find_fault faults = None ->
  bookings_by_call_id (to_string (get "callId" body)) (store w) = [booking] ->
  BookingCallbackSecret.update_fault faults = None ->
  b_details booking <> JNull ->
  let '(r, w') := BookingCallbackSecret.POST P env faults req w in
  r = json_response [("success", flag true)] 200 /\
  bookings (store w')
  = map (fun b =>
           if (b_id b =? b_id booking)%string
           then set_outcome (to_string (get "status" body))
                  (JObj (literal
                           (assign
                              [("transcript", or_else (get "transcript" body) (str ""));
                               ("duration", or_else (get "duration" body) (Some (JNum 0)))]
                              (map defined (spread_entries (get "result" body)))))) b
           else b)
        (bookings (store w)) /\
  match BookingCallbackSecret.insert_fault faults with
  | Some _ => messages (store w') = messages (store w)
  | None =>
      exists row,
        messages (store w') = (messages (store w) ++ [row])%list /\
        m_chat_id row = b_chat_id booking /\ m_role row = "system" /\
        fst (BookingCallbackSecret.createSystemMessage (get "status" body) booking
               (get "result" body) w) = Next (m_content row)
  end.
Proof.
  intros Hsecret Hne Hheader Hparse Hcall Hstatus Hfind Hrows Hupd Hdetails.
  destruct (secret_authorised env req secret Hsecret Hne Hheader) as [Ha1 Ha2].
  destruct (createSystemMessage_const (get "status" body) booking (get "result" body)
              Hdetails) as [content Hc].
  assert (Hprop : forall w0, prop "callId" body w0 = (Next (get "callId" body), w0)).
  { intros w0. destruct body; try reflexivity. discriminate Hcall. }
  unfold BookingCallbackSecret.POST, handler, try_catch, bind.
  cbv zeta. rewrite Ha1, Ha2. unfold parse_json. rewrite Hparse. cbn [ret].
  rewrite Hprop. cbn [log]. rewrite Hcall, Hstatus. cbn [negb orb].
  unfold query. rewrite Hfind. cbn [store]. rewrite Hrows, Hupd.
  cbn [single found error data store console sleeps log ret]. rewrite Hc.
  destruct (BookingCallbackSecret.insert_fault faults) as [messageError|].
  - cbn. repeat split.
  - cbn. rewrite (Hc w). split; [reflexivity |]. split; [reflexivity |].
    eexists. repeat split.
Qed.

Lemma BookingCallbackSecret_stores_raw_status_witness :
  let '(r, w') :=
    BookingCallbackSecret.POST Samples.platform Samples.secret_env
      Samples.secret_insert_fails (Samples.with_secret Samples.busy_text) Samples.world in
  r = json_response [("success", flag true)] 200 /\
  bookings (store w')
  = [set_outcome "busy" (JObj [("transcript", JStr "beep"); ("duration", JNum 0)])
       Samples.booking] /\
  messages (store w') = messages (store Samples.world).
Proof.
  apply (BookingCallbackSecret_stores_raw_status Samples.platform Samples.secret_env
           Samples.secret_insert_fails (Samples.with_secret Samples.busy_text)
           Samples.world Samples.secret Samples.notification_busy Samples.booking);
    try reflexivity; discriminate.
Defined.

(** X9.  An authenticated notification that lacks the call identifier or
    the status is answered 400 "Missing required fields: callId and status"
    and leaves the store as it was. *)
Theorem BookingCallbackSecret_requires_callId_and_status P env faults req w secret body :
  BookingCallbackSecret.WEBHOOK_SECRET env = Some secret ->
  secret <> "" ->
  BookingCallbackSecret.x_webhook_secret req = Some secret ->
  JSON_parse P (BookingCallbackSecret.raw_body req) = inl body ->
  body <> JNull ->
  truthy (get "callId" body) = false \/ truthy (get "status" body) = false ->
  let '(r, w') := BookingCallbackSecret.POST P env faults req w in
  r = json_response [("error", str "Missing required fields: callId and status")] 400 /\
  store w' = store w.
Proof.
  intros Hsecret Hne Hheader Hparse Hbody Hmissing.
  destruct (secret_authorised env req secret Hsecret Hne Hheader) as [Ha1 Ha2].
  assert (Hprop : forall w0, prop "callId" body w0 = (Next (get "callId" body), w0)).
  { intros w0. destruct body; try reflexivity. contradiction. }
  assert (Hcond : negb (truthy (get "callId" body)) || negb (truthy (get "status" body))
                  = true).
  { destruct Hmissing as [-> | ->]; [reflexivity | apply orb_true_r]. }
  unfold BookingCallbackSecret.POST, handler, try_catch, bind.
  cbv zeta. rewrite Ha1, Ha2. unfold parse_json. rewrite Hparse. cbn [ret].
  rewrite Hprop. cbn [log]. rewrite Hcond. cbn. split; reflexivity.
Qed.

Lemma BookingCallbackSecret_requires_callId_and_status_witness :
  let '(r, w') :=
    BookingCallbackSecret.POST Samples.platform Samples.secret_env
      Scenarios.secret_no_faults (Samples.with_secret Samples.no_status_text)
      Samples.world in
  r = json_response [("error", str "Missing required fields: callId and status")] 400 /\
  store w' = store Samples.world.
Proof.
  apply (BookingCallbackSecret_requires_callId_and_status Samples.platform
           Samples.secret_env Scenarios.secret_no_faults
           (Samples.with_secret Samples.no_status_text) Samples.world Samples.secret
           Samples.notification_no_status);
    try reflexivity; try discriminate.
  right. reflexivity.
Defined.

Import BookingRows.

(* ================================================================= *)
(** ** Booking start: the route of [app/api/booking/start/route.ts] *)

Lemma wp_mask_for_log Q w callee phoneNumber :
  Q (Next tt) w ->
  Q (Throw (TypeError (callee ++ " is not a function"))) w ->
  wp (BookingStart.mask_for_log callee phoneNumber) Q w.
Proof.
  intros H1 H2. unfold wp, BookingStart.mask_for_log.
  destruct phoneNumber as [[| | | | |]|]; assumption.
Qed.

Lemma wp_mask_for_log_string Q w callee phoneNumber s :
  phoneNumber = Some (JStr s) ->
  Q (Next tt) w ->
  wp (BookingStart.mask_for_log callee phoneNumber) Q w.
Proof. intros -> H. exact H. Qed.

Ltac start_head :=
  lazymatch goal with
  | |- wp (BookingStart.mask_for_log _ _) _ _ => apply wp_mask_for_log
  | |- wp (BookingStart.validate _ _ _ _ _ _ _ _) _ _ => unfold BookingStart.validate
  | |- wp (BookingStart.place_call _ _ _ _) _ _ => unfold BookingStart.place_call
  | |- wp (BookingStart.on_error _ _) _ _ => unfold BookingStart.on_error
  | |- _ => wp_head
  end.

Ltac start_run := repeat (wp_simpl; start_head).

Lemma place_call_wp P oracle url request w :
  wp (BookingStart.place_call P oracle url request)
     (fun o w' =>
        store w' = store w /\ sleeps w' = sleeps w /\
        match o with
        | Next callId => truthy callId = true
        | Return _ => False
        | Throw e => is_Error e = true
        end) w.
Proof.
  start_run.
  all: cbn; repeat split; try reflexivity.
  all: try (apply negb_false_iff; assumption).
Qed.

(** X17.  The call to the call-placing service, made under the 30 second
    abort timer, has two outcomes only: an identifier of the call, which is
    then a truthy value, or an [Error] thrown to the handler (time-out,
    connection failure, HTTP error status, unreadable body, error member,
    missing identifier).  It never answers the request itself and writes
    nothing to the store. *)
Theorem BookingStart_place_call_outcome P oracle url request w :
  let '(o, w') := BookingStart.place_call P oracle url request w in
  store w' = store w /\
  match o with
  | Next callId => truthy callId = true
  | Return _ => False
  | Throw e => is_Error e = true
  end.
Proof.
  pose proof (place_call_wp P oracle url request w) as H. unfold wp in H.
  destruct (BookingStart.place_call P oracle url request w) as [o w'].
  destruct H as (Hstore & _ & Ho). split; assumption.
Qed.

(** What the call answers does not depend on the world it is made in. *)
Lemma place_call_any P oracle url request w w' :
  fst (BookingStart.place_call P oracle url request w)
  = fst (BookingStart.place_call P oracle url request w').
Proof.
  unfold BookingStart.place_call, try_catch, parse_json, prop, bind, log, ret, throw.
  run_cases; reflexivity.
Qed.

Lemma wp_place_call Q P oracle url request w0 w o :
  fst (BookingStart.place_call P oracle url request w0) = o ->
  (forall w', store w' = store w -> sleeps w' = sleeps w -> Q o w') ->
  wp (BookingStart.place_call P oracle url request) Q w.
Proof.
  intros Ho H. pose proof (place_call_wp P oracle url request w) as Hw. unfold wp in *.
  rewrite (place_call_any P oracle url request w0 w) in Ho. rewrite Ho.
  apply H; apply Hw.
Qed.

Lemma validate_passes body w :
  passes_validation body ->
  BookingStart.validate (get "chatId" body) (get "userId" body) (get "bookingType" body)
    (get "restaurantName" body) (get "phoneNumber" body) (get "dateTime" body)
    (get "partySize" body) (get "customerName" body) w
  = (Next tt, w).
Proof.
  intros ((H1 & H2 & H3 & H4 & H5 & H6 & H7 & H8) & Ht & Hp & Hs).
  unfold BookingStart.validate. rewrite H1, H2, H3, H4, H5, H6, H7, H8, Ht, Hp, Hs.
  reflexivity.
Qed.

Lemma wp_validate_passes Q body w :
  passes_validation body ->
  Q (Next tt) w ->
  wp (BookingStart.validate (get "chatId" body) (get "userId" body)
        (get "bookingType" body) (get "restaurantName" body) (get "phoneNumber" body)
        (get "dateTime" body) (get "partySize" body) (get "customerName" body)) Q w.
Proof. intros Hv H. unfold wp. now rewrite (validate_passes body w Hv). Qed.

(** The handler up to the answer of the call-placing service [o], for a
    valid request about a chat of the user. *)
Lemma start_reaches_call P env oracle req w body phone c url o :
  JSON_parse P (BookingStart.raw_body req) = inl body ->
  get "phoneNumber" body = Some (JStr phone) ->
  passes_validation body ->
  BookingStart.chat_fault oracle = None ->
  chats_by_id_user (to_string (get "chatId" body)) (to_string (get "userId" body)) (store w)
  = [c] ->
  BookingStart.insert_fault oracle = None ->
  BookingStart.MCP_SERVER_URL env = Some url ->
  url <> "" ->
  fst (BookingStart.place_call P oracle url (call_request body) w) = o ->
  answers (BookingStart.POST P env oracle req)
    (fun r w' =>
       let id := BookingStart.new_booking_id oracle in
       let s1 := insert_booking (row id body) (store w) in
       match o with
       | Next callId =>
           r = json_response [("success", flag true); ("callId", callId);
                              ("bookingId", str id)] 200 /\
           store w' = match BookingStart.update_fault oracle with
                      | None => update_bookings id (set_calling (to_string callId)) s1
                      | Some _ => s1
                      end
       | Return r0 => r = r0 /\ store w' = s1
       | Throw e =>
           r = json_response
                 [("success", flag false);
                  ("error", str (if is_Error e then message e
                                 else "Internal server error"))] 500 /\
           store w' = s1
       end) w.
Proof.
  intros Hparse Hphone Hvalid Hchat Hrows Hins Hurl Hne Ho.
  apply String.eqb_neq in Hne.
  unfold BookingStart.POST. apply answers_handler.
  destruct o as [callId|r0|err].
  all: wp_run_with
    ltac:(idtac; lazymatch goal with
          | |- wp (BookingStart.mask_for_log _ _) _ _ =>
              apply (wp_mask_for_log_string _ _ _ _ phone Hphone)
          | |- wp (BookingStart.validate _ _ _ _ _ _ _ _) _ _ =>
              apply wp_validate_passes; [exact Hvalid |]
          | |- wp (BookingStart.place_call _ _ _ _) _ _ =>
              apply (wp_place_call _ P oracle url _ w _ _ Ho); intros w' Hs' Hz'
          | |- caught _ _ _ _ => unfold caught
          | |- wp (BookingStart.on_error _ _) _ _ => unfold BookingStart.on_error
          end).
  all: try (subst; discriminate Hphone).
  all: cbn; rewrite ?Hs'; cbn; try (split; reflexivity).
Qed.

Lemma place_call_answered P oracle url request w st stt text mcpData :
  BookingStart.mcp_fetch oracle (url ++ "/mcp") request 30000%Z = Resolved true st stt text ->
  JSON_parse P text = inl mcpData ->
  mcpData <> JNull ->
  truthy (get "error" mcpData) = false ->
  truthy (callId_of mcpData) = true ->
  fst (BookingStart.place_call P oracle url request w) = Next (callId_of mcpData).
Proof.
  intros Hfetch Hparse Hnull Herr Hid.
  unfold BookingStart.place_call. rewrite Hfetch. cbn [negb].
  unfold try_catch, parse_json, bind. rewrite Hparse. cbn [ret log].
  assert (Hprop : forall w0, prop "error" mcpData w0 = (Next (get "error" mcpData), w0)).
  { intros w0. destruct mcpData; try reflexivity. contradiction. }
  rewrite Hprop, Herr. cbn [ret].
  assert (Hgoal : forall (X : M value) w1,
             fst ((if negb (truthy (callId_of mcpData)) then X
                   else ret (callId_of mcpData)) w1)
             = Next (callId_of mcpData)).
  { intros X w1. rewrite Hid. reflexivity. }
  apply Hgoal.
Qed.

Lemma map_update_fresh id (f : BookingRow -> BookingRow) l :
  (forall b, In b l -> b_id b <> id) ->
  map (fun b => if (b_id b =? id)%string then f b else b) l = l.
Proof.
  intros H. induction l as [|b l IH]; simpl; [reflexivity |].
  rewrite IH by (intros b' Hb'; apply H; now right).
  assert (Hb : b_id b <> id) by (apply H; now left).
  apply String.eqb_neq in Hb. now rewrite Hb.
Qed.

Lemma filter_none {A} (p : A -> bool) l :
  (forall a, In a l -> p a = false) -> filter p l = [].
Proof.
  intros H. induction l as [|a l IH]; simpl; [reflexivity |].
  rewrite (H a (or_introl eq_refl)). apply IH. intros a' Ha'. apply H. now right.
Qed.

(** X12.  The booking-start route creates a booking only for a chat that
    belongs to the user named in the request: when the lookup of the chat
    by identifier and user finds no single row, a request that passed every
    validation is answered 404 "Chat not found or access denied" and the
    store is left as it was. *)
Theorem BookingStart_requires_own_chat P env oracle req w body phone :
  JSON_parse P (BookingStart.raw_body req) = inl body ->
  get "phoneNumber" body = Some (JStr phone) ->
  passes_validation body ->
  (forall c,
      chats_by_id_user (to_string (get "chatId" body)) (to_string (get "userId" body))
        (store w) <> [c]) ->
  let '(r, w') := BookingStart.POST P env oracle req w in
  r = json_response [("success", flag false);
                     ("error", str "Chat not found or access denied")] 404 /\
  store w' = store w.
Proof.
  intros Hparse Hphone Hvalid Hrows.
  enough (H : answers (BookingStart.POST P env oracle req)
                (fun r w' =>
                   r = json_response [("success", flag false);
                                      ("error", str "Chat not found or access denied")] 404 /\
                   store w' = store w) w).
  { unfold answers in H. destruct (BookingStart.POST P env oracle req w). exact H. }
  unfold BookingStart.POST. apply answers_handler.
  wp_run_with
    ltac:(idtac; lazymatch goal with
          | |- wp (BookingStart.mask_for_log _ _) _ _ =>
              apply (wp_mask_for_log_string _ _ _ _ phone Hphone)
          | |- wp (BookingStart.validate _ _ _ _ _ _ _ _) _ _ =>
              apply wp_validate_passes; [exact Hvalid |]
          | |- wp (query (BookingStart.insert_fault _) _) _ _ => fail 1
          end).
  all: try (subst; discriminate Hphone).
  all: try (cbn; split; reflexivity).
  all: exfalso; exact (Hrows _ eq_refl).
Qed.

Lemma BookingStart_requires_own_chat_witness :
  let '(r, w') :=
    BookingStart.POST Scenarios.platform Samples.start_env Samples.start_oracle
      (Scenarios.start_request "start as user-2") Samples.world in
  r = json_response [("success", flag false);
                     ("error", str "Chat not found or access denied")] 404 /\
  store w' = store Samples.world.
Proof.
  apply (BookingStart_requires_own_chat Scenarios.platform Samples.start_env
           Samples.start_oracle (Scenarios.start_request "start as user-2") Samples.world
           (Scenarios.start_body_as "user-2") "+12125551234").
  - reflexivity.
  - reflexivity.
  - repeat split; reflexivity.
  - intros c. discriminate.
Defined.

(** X13.  For a valid request about a chat of the user, when the store
    accepts the row and the call-placing service answers with a call
    identifier, the route answers 200 with that identifier and the
    identifier of the new booking; the store then holds exactly one more
    booking, made of the fields of the request, in status "calling" and
    carrying the call identifier, and nothing else has changed. *)
Theorem BookingStart_records_the_call P env oracle req w body phone c url st stt text mcpData :
  JSON_parse P (BookingStart.raw_body req) = inl body ->
  get "phoneNumber" body = Some (JStr phone) ->
  passes_validation body ->
  BookingStart.chat_fault oracle = None ->
  chats_by_id_user (to_string (get "chatId" body)) (to_string (get "userId" body)) (store w)
  = [c] ->
  BookingStart.insert_fault oracle = None ->
  (forall b, In b (bookings (store w)) -> b_id b <> BookingStart.new_booking_id oracle) ->
  BookingStart.MCP_SERVER_URL env = Some url ->
  url <> "" ->
  BookingStart.mcp_fetch oracle (url ++ "/mcp") (call_request body) 30000%Z
  = Resolved true st stt text ->
  JSON_parse P text = inl mcpData ->
  mcpData <> JNull ->
  truthy (get "error" mcpData) = false ->
  truthy (callId_of mcpData) = true ->
  BookingStart.update_fault oracle = None ->
  let '(r, w') := BookingStart.POST P env oracle req w in
  r = json_response [("success", flag true); ("callId", callId_of mcpData);
                     ("bookingId", str (BookingStart.new_booking_id oracle))] 200 /\
  bookings (store w')
  = (bookings (store w)
     ++ [set_calling (to_string (callId_of mcpData))
           (row (BookingStart.new_booking_id oracle) body)])%list /\
  messages (store w') = messages (store w) /\
  chats (store w') = chats (store w).
Proof.
  intros Hparse Hphone Hvalid Hchat Hrows Hins Hfresh Hurl Hne Hfetch Hp Hnull Herr Hid Hupd.
  pose proof (place_call_answered P oracle url (call_request body) w st stt text mcpData
                Hfetch Hp Hnull Herr Hid) as Ho.
  pose proof (start_reaches_call P env oracle req w body phone c url _
                Hparse Hphone Hvalid Hchat Hrows Hins Hurl Hne Ho) as H.
  unfold answers in H. destruct (BookingStart.POST P env oracle req w) as [r w'].
  cbn [fst snd] in H. destruct H as [-> Hs]. rewrite Hupd in Hs. rewrite Hs.
  split; [reflexivity |].
  cbn [update_bookings insert_booking bookings messages chats].
  repeat split. rewrite map_app, (map_update_fresh _ _ _ Hfresh). cbn [map row b_id].
  now rewrite String.eqb_refl.
Qed.

Lemma BookingStart_records_the_call_witness :
  let '(r, w') :=
    BookingStart.POST Samples.platform Samples.start_env Samples.start_oracle
      (Scenarios.start_request "start:+12125551234") Samples.world in
  r = json_response [("success", flag true); ("callId", str "call-2");
                     ("bookingId", str "booking-2")] 200 /\
  bookings (store w')
  = [Samples.booking;
     set_calling "call-2" (row "booking-2" (Samples.start_body "+12125551234"))] /\
  messages (store w') = [] /\
  chats (store w') = [Samples.chat].
Proof.
  apply (BookingStart_records_the_call Samples.platform Samples.start_env
           Samples.start_oracle (Scenarios.start_request "start:+12125551234")
           Samples.world (Samples.start_body "+12125551234") "+12125551234" Samples.chat
           "https://mcp.example" 200 "OK" Samples.mcp_ok_text
           (JObj [("jsonrpc", JStr "2.0"); ("result", JObj [("callId", JStr "call-2")]);
                  ("id", JNum 1)]));
    try reflexivity; try discriminate.
  - repeat split; reflexivity.
  - intros b [<- | []]. discriminate.
Defined.

(** X14.  When the call was placed and the store then refuses to record
    the call identifier, the route still answers 200 with the identifier:
    the booking stays in status "initiated" without a call identifier, so
    the outcome notification of that call finds no booking and is answered
    404. *)
Theorem BookingStart_unrecorded_call_is_lost
    P env oracle req w body phone c url st stt text mcpData updateError
    P' env' faults' notification o :
  JSON_parse P (BookingStart.raw_body req) = inl body ->
  get "phoneNumber" body = Some (JStr phone) ->
  passes_validation body ->
  BookingStart.chat_fault oracle = None ->
  chats_by_id_user (to_string (get "chatId" body)) (to_string (get "userId" body)) (store w)
  = [c] ->
  BookingStart.insert_fault oracle = None ->
  BookingStart.MCP_SERVER_URL env = Some url ->
  url <> "" ->
  BookingStart.mcp_fetch oracle (url ++ "/mcp") (call_request body) 30000%Z
  = Resolved true st stt text ->
  JSON_parse P text = inl mcpData ->
  mcpData <> JNull ->
  truthy (get "error" mcpData) = false ->
  truthy (callId_of mcpData) = true ->
  BookingStart.update_fault oracle = Some updateError ->
  fst (BookingCallback.read_callbackData P' env' notification w) = Next o ->
  get "callId" o = callId_of mcpData ->
  bookings_by_call_id (to_string (callId_of mcpData)) (store w) = [] ->
  let '(r, w1) := BookingStart.POST P env oracle req w in
  let '(r', w2) := BookingCallback.POST P' env' faults' notification w1 in
  r = json_response [("success", flag true); ("callId", callId_of mcpData);
                     ("bookingId", str (BookingStart.new_booking_id oracle))] 200 /\
  bookings (store w1)
  = (bookings (store w) ++ [row (BookingStart.new_booking_id oracle) body])%list /\
  r' = json_response [("success", flag false); ("error", str "Booking not found")] 404 /\
  store w2 = store w1.
Proof.
  intros Hparse Hphone Hvalid Hchat Hrows Hins Hurl Hne Hfetch Hp Hnull Herr Hid Hupd
         Hread Hcall Hnone.
  pose proof (place_call_answered P oracle url (call_request body) w st stt text mcpData
                Hfetch Hp Hnull Herr Hid) as Ho.
  pose proof (start_reaches_call P env oracle req w body phone c url _
                Hparse Hphone Hvalid Hchat Hrows Hins Hurl Hne Ho) as H.
  unfold answers in H. destruct (BookingStart.POST P env oracle req w) as [r w1].
  cbn [fst snd] in H. destruct H as [-> Hs]. rewrite Hupd in Hs.
  assert (Hnone1 : bookings_by_call_id (to_string (get "callId" o)) (store w1) = []).
  { rewrite Hcall, Hs. unfold bookings_by_call_id in *. cbn [insert_booking bookings].
    rewrite filter_app, Hnone. reflexivity. }
  assert (Htruthy : truthy (get "callId" o) = true) by now rewrite Hcall.
  pose proof (read_callbackData_any P' env' notification w o Hread w1) as Hread1.
  assert (H404 : BookingCallback.POST P' env' faults' notification w1
                 = (json_response [("success", flag false);
                                   ("error", str "Booking not found")] 404,
                    {| store := store w1;
                       console := console w1 ++ [(ERROR, "Booking not found for callId:")];
                       sleeps := sleeps w1 |})).
  { unfold BookingCallback.POST, handler, try_catch, bind.
    rewrite Hread1, (destructure_truthy _ _ Htruthy), Htruthy. cbn [negb].
    unfold query. destruct (BookingCallback.find_fault faults') as [msg|].
    - reflexivity.
    - rewrite Hnone1. reflexivity. }
  rewrite H404. rewrite Hs. repeat split.
Qed.

Lemma BookingStart_unrecorded_call_is_lost_witness :
  let '(r, w1) :=
    BookingStart.POST Scenarios.platform Samples.start_env
      Scenarios.start_oracle_update_fails
      (Scenarios.start_request "start:+12125551234") Samples.world in
  let '(r', w2) :=
    BookingCallback.POST Scenarios.platform Samples.callback_env Samples.no_faults
      (Samples.signed "{'callId':'call-2','status':'completed','transcript':'Table booked.'}")
      w1 in
  r = json_response [("success", flag true); ("callId", str "call-2");
                     ("bookingId", str "booking-2")] 200 /\
  bookings (store w1)
  = [Samples.booking; row "booking-2" (Samples.start_body "+12125551234")] /\
  r' = json_response [("success", flag false); ("error", str "Booking not found")] 404 /\
  store w2 = store w1.
Proof.
  apply (BookingStart_unrecorded_call_is_lost Scenarios.platform Samples.start_env
           Scenarios.start_oracle_update_fails
           (Scenarios.start_request "start:+12125551234") Samples.world
           (Samples.start_body "+12125551234") "+12125551234" Samples.chat
           "https://mcp.example" 200 "OK" Samples.mcp_ok_text
           (JObj [("jsonrpc", JStr "2.0"); ("result", JObj [("callId", JStr "call-2")]);
                  ("id", JNum 1)])
           "connection reset"
           Scenarios.platform Samples.callback_env Samples.no_faults
           (Samples.signed "{'callId':'call-2','status':'completed','transcript':'Table booked.'}")
           Scenarios.completed_call_2);
    try reflexivity; try discriminate.
  repeat split; reflexivity.
Defined.

(** X15.  When the call-placing service gives no call identifier (time-out,
    connection failure, HTTP error, unreadable or error-carrying answer),
    the route answers 500 with the message of the error, and the booking
    it has already inserted stays in the store, in status "initiated" and
    without a call identifier: it is neither removed nor marked "failed". *)
Theorem BookingStart_failed_call_leaves_booking_initiated
    P env oracle req w body phone c url e :
  JSON_parse P (BookingStart.raw_body req) = inl body ->
  get "phoneNumber" body = Some (JStr phone) ->
  passes_validation body ->
  BookingStart.chat_fault oracle = None ->
  chats_by_id_user (to_string (get "chatId" body)) (to_string (get "userId" body)) (store w)
  = [c] ->
  BookingStart.insert_fault oracle = None ->
  BookingStart.MCP_SERVER_URL env = Some url ->
  url <> "" ->
  fst (BookingStart.place_call P oracle url (call_request body) w) = Throw e ->
  let '(r, w') := BookingStart.POST P env oracle req w in
  r = json_response [("success", flag false); ("error", str (message e))] 500 /\
  bookings (store w')
  = (bookings (store w) ++ [row (BookingStart.new_booking_id oracle) body])%list /\
  b_status (row (BookingStart.new_booking_id oracle) body) = "initiated" /\
  b_call_id (row (BookingStart.new_booking_id oracle) body) = None.
Proof.
  intros Hparse Hphone Hvalid Hchat Hrows Hins Hurl Hne Ho.
  assert (He : is_Error e = true).
  { pose proof (place_call_wp P oracle url (call_request body) w) as Hw.
    unfold wp in Hw. rewrite Ho in Hw. apply Hw. }
  pose proof (start_reaches_call P env oracle req w body phone c url _
                Hparse Hphone Hvalid Hchat Hrows Hins Hurl Hne Ho) as H.
  unfold answers in H. destruct (BookingStart.POST P env oracle req w) as [r w'].
  cbn [fst snd] in H. destruct H as [-> Hs]. rewrite He, Hs. repeat split.
Qed.

Lemma BookingStart_failed_call_leaves_booking_initiated_witness :
  let '(r, w') :=
    BookingStart.POST Samples.platform Samples.start_env Samples.start_oracle_timeout
      (Scenarios.start_request "start:+12125551234") Samples.world in
  r = json_response [("success", flag false);
                     ("error", str "MCP server request timed out. Please try again.")] 500 /\
  bookings (store w')
  = [Samples.booking; row "booking-2" (Samples.start_body "+12125551234")] /\
  b_status (row "booking-2" (Samples.start_body "+12125551234")) = "initiated" /\
  b_call_id (row "booking-2" (Samples.start_body "+12125551234")) = None.
Proof.
  apply (BookingStart_failed_call_leaves_booking_initiated Samples.platform
           Samples.start_env Samples.start_oracle_timeout
           (Scenarios.start_request "start:+12125551234") Samples.world
           (Samples.start_body "+12125551234") "+12125551234" Samples.chat
           "https://mcp.example"
           (Error "MCP server request timed out. Please try again."));
    try reflexivity; try discriminate.
  repeat split; reflexivity.
Defined.

(** X16.  Start and outcome fit together: after a booking start that
    recorded the call, the outcome notification that names the returned
    call identifier finds exactly the new booking, is answered 200, sets
    that booking to "completed" or "failed" with the result payload of the
    notification, and writes its system message to the chat of the
    request.  (The identifiers the store and the service hand out are
    taken to be new.) *)
Theorem BookingStart_then_callback
    P env oracle req w body phone c url st stt text mcpData cid
    P' env' faults' notification o :
  JSON_parse P (BookingStart.raw_body req) = inl body ->
  get "phoneNumber" body = Some (JStr phone) ->
  passes_validation body ->
  BookingStart.chat_fault oracle = None ->
  chats_by_id_user (to_string (get "chatId" body)) (to_string (get "userId" body)) (store w)
  = [c] ->
  BookingStart.insert_fault oracle = None ->
  (forall b, In b (bookings (store w)) -> b_id b <> BookingStart.new_booking_id oracle) ->
  BookingStart.MCP_SERVER_URL env = Some url ->
  url <> "" ->
  BookingStart.mcp_fetch oracle (url ++ "/mcp") (call_request body) 30000%Z
  = Resolved true st stt text ->
  JSON_parse P text = inl mcpData ->
  truthy (get "error" mcpData) = false ->
  callId_of mcpData = Some (JStr cid) ->
  cid <> "" ->
  (forall b, In b (bookings (store w)) -> b_call_id b <> Some cid) ->
  BookingStart.update_fault oracle = None ->
  fst (BookingCallback.read_callbackData P' env' notification w) = Next o ->
  get "callId" o = Some (JStr cid) ->
  BookingCallback.find_fault faults' = None ->
  BookingCallback.update_fault faults' = None ->
  BookingCallback.insert_fault faults' = None ->
  let '(r, w1) := BookingStart.POST P env oracle req w in
  let '(r', w2) := BookingCallback.POST P' env' faults' notification w1 in
  r = json_response [("success", flag true); ("callId", str cid);
                     ("bookingId", str (BookingStart.new_booking_id oracle))] 200 /\
  r' = json_response [("success", flag true)] 200 /\
  bookings (store w2)
  = (bookings (store w)
     ++ [set_outcome (BookingCallback.bookingStatus (get "status" o))
           (BookingCallback.resultPayload (get "transcript" o) (get "duration" o)
              (get "reason" o) (get "result" o))
           (set_calling cid (row (BookingStart.new_booking_id oracle) body))])%list /\
  exists message,
    messages (store w2) = (messages (store w) ++ [message])%list /\
    m_chat_id message = to_string (get "chatId" body) /\
    m_role message = "system".
Proof.
  intros Hparse Hphone Hvalid Hchat Hrows Hins Hfresh Hurl Hne Hfetch Hp Herr Hcid Hcne
         Hunique Hupd Hread Hcall Hf1 Hf2 Hf3.
  assert (Hnull : mcpData <> JNull) by (intros ->; discriminate Hcid).
  assert (Hid : truthy (callId_of mcpData) = true).
  { rewrite Hcid. cbn. apply String.eqb_neq in Hcne. now rewrite Hcne. }
  pose proof (place_call_answered P oracle url (call_request body) w st stt text mcpData
                Hfetch Hp Hnull Herr Hid) as Ho.
  pose proof (start_reaches_call P env oracle req w body phone c url _
                Hparse Hphone Hvalid Hchat Hrows Hins Hurl Hne Ho) as H.
  unfold answers in H. destruct (BookingStart.POST P env oracle req w) as [r w1].
  cbn [fst snd] in H. destruct H as [-> Hs]. rewrite Hupd, Hcid in Hs.
  cbn [to_string json_to_string] in Hs.
  set (id := BookingStart.new_booking_id oracle) in *.
  set (booking := set_calling cid (row id body)).
  assert (Hb1 : bookings (store w1) = (bookings (store w) ++ [booking])%list).
  { rewrite Hs. cbn [update_bookings insert_booking bookings].
    rewrite map_app, (map_update_fresh _ _ _ Hfresh). cbn [map row b_id].
    now rewrite String.eqb_refl. }
  assert (Hfound : bookings_by_call_id (to_string (get "callId" o)) (store w1) = [booking]).
  { rewrite Hcall. cbn [to_string json_to_string]. unfold bookings_by_call_id.
    rewrite Hb1, filter_app, filter_none.
    - cbn. now rewrite String.eqb_refl.
    - intros b Hb. specialize (Hunique b Hb). unfold opt_eqb.
      destruct (b_call_id b) as [x|]; [| reflexivity].
      apply String.eqb_neq. congruence. }
  assert (Htruthy : truthy (get "callId" o) = true).
  { rewrite Hcall. cbn. apply String.eqb_neq in Hcne. now rewrite Hcne. }
  assert (Hread1 : fst (BookingCallback.read_callbackData P' env' notification w1) = Next o).
  { now rewrite (read_callbackData_any P' env' notification w o Hread w1). }
  assert (Hdetails : b_details booking <> JNull) by discriminate.
  destruct (callback_processed P' env' faults' notification w1 o booking Hread1 Htruthy
              Hf1 Hfound Hf2 Hdetails Hf3) as (content & _ & Hr & Hs2).
  destruct (BookingCallback.POST P' env' faults' notification w1) as [r' w2].
  cbn [fst snd] in Hr, Hs2. rewrite Hcid. split; [reflexivity |]. split; [exact Hr |].
  rewrite Hs2. cbn [insert_message update_bookings bookings messages]. split.
  - rewrite Hb1, map_app.
    rewrite (map_update_fresh (b_id booking) _ _ Hfresh). cbn [map].
    now rewrite String.eqb_refl.
  - eexists. split; [rewrite Hs; reflexivity | split; reflexivity].
Qed.

Lemma BookingStart_then_callback_witness :
  let '(r, w1) :=
    BookingStart.POST Scenarios.platform Samples.start_env Samples.start_oracle
      (Scenarios.start_request "start:+12125551234") Samples.world in
  let '(r', w2) :=
    BookingCallback.POST Scenarios.platform Samples.callback_env Samples.no_faults
      (Samples.signed "{'callId':'call-2','status':'completed','transcript':'Table booked.'}")
      w1 in
  r = json_response [("success", flag true); ("callId", str "call-2");
                     ("bookingId", str "booking-2")] 200 /\
  r' = json_response [("success", flag true)] 200 /\
  bookings (store w2)
  = [Samples.booking;
     set_outcome "completed" (JObj [("transcript", JStr "Table booked.")])
       (set_calling "call-2" (row "booking-2" (Samples.start_body "+12125551234")))] /\
  exists message,
    messages (store w2) = [message] /\
    m_chat_id message = "chat-1" /\
    m_role message = "system".
Proof.
  apply (BookingStart_then_callback Scenarios.platform Samples.start_env
           Samples.start_oracle (Scenarios.start_request "start:+12125551234")
           Samples.world (Samples.start_body "+12125551234") "+12125551234" Samples.chat
           "https://mcp.example" 200 "OK" Samples.mcp_ok_text
           (JObj [("jsonrpc", JStr "2.0"); ("result", JObj [("callId", JStr "call-2")]);
                  ("id", JNum 1)])
           "call-2"
           Scenarios.platform Samples.callback_env Samples.no_faults
           (Samples.signed "{'callId':'call-2','status':'completed','transcript':'Table booked.'}")
           Scenarios.completed_call_2);
    try reflexivity; try discriminate.
  - repeat split; reflexivity.
  - intros b [<- | []]. discriminate.
  - intros b [<- | []]. discriminate.
Defined.

Import BookingRows Schema.

(* ================================================================= *)
(** ** The handlers and the constraints of the schema *)

Lemma includes_type_check v :
  BookingStart.includes BookingStart.booking_types v = true ->
  booking_type_check (to_string v) = true.
Proof.
  unfold BookingStart.includes, BookingStart.booking_types, booking_type_check.
  destruct v as [[| | |s| |]|]; cbn; try discriminate. intros H. exact H.
Qed.

Lemma store_ok_insert_booking b s :
  booking_ok b = true -> store_ok s -> store_ok (insert_booking b s).
Proof.
  intros Hb [H1 H2]. split; [| exact H2]. cbn. apply Forall_app. split; auto.
Qed.

Lemma store_ok_update id f s :
  (forall b, booking_ok b = true -> booking_ok (f b) = true) ->
  store_ok s -> store_ok (update_bookings id f s).
Proof.
  intros Hf [H1 H2]. split; [| exact H2]. cbn. apply Forall_map.
  eapply Forall_impl; [| exact H1]. intros b Hb. cbn.
  destruct (b_id b =? id)%string; auto.
Qed.

Lemma booking_ok_set_calling callId b :
  booking_ok b = true -> booking_ok (set_calling callId b) = true.
Proof.
  unfold booking_ok. cbn. intros H. apply andb_true_iff in H as [-> _]. reflexivity.
Qed.

Lemma booking_ok_set_outcome status result b :
  booking_ok b = true ->
  booking_ok (set_outcome (BookingCallback.bookingStatus status) result b) = true.
Proof.
  unfold booking_ok, BookingCallback.bookingStatus. cbn. intros H.
  apply andb_true_iff in H as [-> _]. destruct (is_string "completed" status); reflexivity.
Qed.

Lemma store_ok_insert_message m s :
  message_ok m = true -> store_ok s -> store_ok (insert_message m s).
Proof.
  intros Hm [H1 H2]. split; [exact H1 |]. cbn. apply Forall_app. split; auto.
Qed.

Ltac schema_goal :=
  cbn [store];
  repeat first
    [ assumption
    | apply store_ok_update; [intros ? ?; first [now apply booking_ok_set_calling
                                                | now apply booking_ok_set_outcome] |]
    | apply store_ok_insert_message; [reflexivity |]
    | apply store_ok_insert_booking ].

(** X11.  The booking-start route never writes a row that the CHECK
    constraints of the bookings table would refuse: the booking type it
    stores is one of restaurant, hotel and taxi (it was validated) and the
    statuses it writes are "initiated" and "calling".  If every row of the
    store meets the constraints before a request, every row meets them
    after it, whatever the request and the answers of the services. *)
Theorem BookingStart_respects_schema_checks P env oracle req w :
  store_ok (store w) ->
  store_ok (store (snd (BookingStart.POST P env oracle req w))).
Proof.
  intros Hok.
  enough (H : answers (BookingStart.POST P env oracle req)
                (fun _ w' => store_ok (store w')) w) by exact H.
  unfold BookingStart.POST. apply answers_handler.
  start_run.
  all: unfold caught; start_run.
  all: schema_goal.
  all: unfold booking_ok; cbn [b_booking_type b_status];
    rewrite includes_type_check; [reflexivity |];
    match goal with
    | H : negb (BookingStart.includes _ _) = false |- _ =>
        apply negb_false_iff in H; exact H
    end.
Qed.

Lemma BookingStart_respects_schema_checks_witness :
  store_ok (store (snd (BookingStart.POST Samples.platform Samples.start_env
                          Samples.start_oracle
                          (Scenarios.start_request "start:+12125551234")
                          Samples.world))).
Proof.
  apply (BookingStart_respects_schema_checks Samples.platform Samples.start_env
           Samples.start_oracle (Scenarios.start_request "start:+12125551234")
           Samples.world).
  split; repeat constructor.
Defined.

(** X18.  The outcome webhook never writes a row that the CHECK
    constraints of the schema would refuse: the status it stores is
    "completed" or "failed" whatever the notification says, and the role of
    the message it inserts is "system".  If every row of the store meets
    the constraints before a notification, every row meets them after it. *)
Theorem BookingCallback_respects_schema_checks P env faults req w :
  store_ok (store w) ->
  store_ok (store (snd (BookingCallback.POST P env faults req w))).
Proof.
  intros Hok.
  enough (H : answers (BookingCallback.POST P env faults req)
                (fun _ w' => store_ok (store w')) w) by exact H.
  unfold BookingCallback.POST. apply answers_handler.
  callback_run.
  all: unfold caught; callback_run.
  all: schema_goal.
Qed.

Lemma BookingCallback_respects_schema_checks_witness :
  store_ok (store (snd (BookingCallback.POST Samples.platform Samples.callback_env
                          Samples.no_faults (Samples.signed Samples.busy_text)
                          Samples.world))).
Proof.
  apply (BookingCallback_respects_schema_checks Samples.platform Samples.callback_env
           Samples.no_faults (Samples.signed Samples.busy_text) Samples.world).
  split; repeat constructor.
Defined.

Import BookingRows Blind.

(* ================================================================= *)
(** ** Booking start, earlier handler *)

(** X19.  The earlier booking-start handler checks the required fields in
    the order chatId, userId, bookingType, restaurantName, phoneNumber,
    dateTime, partySize, customerName and reports the first one that is
    missing: the loop answers 400 "Missing required field: f" for the first
    field [f] of the list without a truthy value, and writes nothing. *)
Theorem BookingStartLegacy_reports_first_missing_field before field after body w :
  Forall (fun f => truthy (get f body) = true) before ->
  truthy (get field body) = false ->
  BookingStartLegacy.check_required (before ++ field :: after) body w
  = (Return (json_response
               [("success", flag false);
                ("error", str ("Missing required field: " ++ field))] 400),
     {| store := store w;
        console := console w
                   ++ [(ERROR, "[Booking Start] Missing required field: " ++ field)];
        sleeps := sleeps w |}).
Proof.
  intros Hbefore Hfield. induction Hbefore as [|f before Hf _ IH]; simpl.
  - rewrite Hfield. reflexivity.
  - rewrite Hf. exact IH.
Qed.

Lemma BookingStartLegacy_reports_first_missing_field_witness :
  BookingStartLegacy.check_required BookingStartLegacy.requiredFields
    (JObj [("chatId", JStr "chat-1"); ("userId", JStr "user-1");
           ("restaurantName", JStr "The Garden Restaurant"); ("partySize", JNum 0)])
    Samples.world
  = (Return (json_response
               [("success", flag false);
                ("error", str "Missing required field: bookingType")] 400),
     {| store := store Samples.world;
        console := [(ERROR, "[Booking Start] Missing required field: bookingType")];
        sleeps := 0 |}).
Proof.
  apply (BookingStartLegacy_reports_first_missing_field ["chatId"; "userId"] "bookingType"
           ["restaurantName"; "phoneNumber"; "dateTime"; "partySize"; "customerName"]).
  - repeat constructor.
  - reflexivity.
Defined.

Ltac legacy_head :=
  lazymatch goal with
  | |- wp (BookingStart.mask_for_log _ _) _ _ => apply wp_mask_for_log
  | |- wp (BookingStartLegacy.place_call _ _ _ _) _ _ => unfold BookingStartLegacy.place_call
  | |- wp (BookingStartLegacy.on_error _) _ _ => unfold BookingStartLegacy.on_error
  | |- _ => wp_head
  end.

Ltac legacy_run := repeat (wp_simpl; legacy_head).

(** X20.  In the earlier handler a failure of the call to the call-placing
    service never reaches the outer error handler: the call either yields
    the parsed answer of the service or answers the request itself, with
    504 only when the request was aborted (by the 30 second timer) and with
    502 for every other failure (connection error, HTTP error status,
    unreadable body).  It writes nothing to the store. *)
Theorem BookingStartLegacy_place_call_outcome P oracle url request w :
  let '(o, w') := BookingStartLegacy.place_call P oracle url request w in
  store w' = store w /\
  match o with
  | Next _ => exists st stt text,
      BookingStartLegacy.mcp_fetch oracle (url ++ "/mcp") request 30000%Z
      = Resolved true st stt text
  | Return r =>
      (status r = 504 /\
       exists e, BookingStartLegacy.mcp_fetch oracle (url ++ "/mcp") request 30000%Z
                 = Rejected e /\ name e = "AbortError") \/
      status r = 502
  | Throw _ => False
  end.
Proof.
  set (Q := fun (o : Outcome json) (w' : World) =>
              store w' = store w /\
              match o with
              | Next _ => exists st stt text,
                  BookingStartLegacy.mcp_fetch oracle (url ++ "/mcp") request 30000%Z
                  = Resolved true st stt text
              | Return r =>
                  (status r = 504 /\
                   exists e,
                     BookingStartLegacy.mcp_fetch oracle (url ++ "/mcp") request 30000%Z
                     = Rejected e /\ name e = "AbortError") \/
                  status r = 502
              | Throw _ => False
              end).
  enough (H : wp (BookingStartLegacy.place_call P oracle url request) Q w).
  { unfold wp in H. destruct (BookingStartLegacy.place_call P oracle url request w).
    exact H. }
  legacy_run.
  all: subst Q; cbn; repeat split; try reflexivity.
  all: try (right; reflexivity).
  all: try (left; split; [reflexivity |]; eexists; split; [reflexivity |];
            match goal with
            | H : _ && (_ =? "AbortError")%string = true |- _ =>
                apply andb_true_iff in H as [_ H]; apply String.eqb_eq in H; exact H
            end).
  all: match goal with
       | H : negb ?b = false |- _ =>
           apply negb_false_iff in H; subst; eexists _, _, _; reflexivity
       end.
Qed.

(** *** The chats table *)

Lemma blind_ret {A} (a : A) : chat_blind (ret a).
Proof. intros cs w. reflexivity. Qed.

Lemma blind_respond {A} r : chat_blind (@respond A r).
Proof. intros cs w. reflexivity. Qed.

Lemma blind_throw {A} e : chat_blind (@throw A e).
Proof. intros cs w. reflexivity. Qed.

Lemma blind_log l text : chat_blind (log l text).
Proof. intros cs w. reflexivity. Qed.

Lemma blind_bind {A B} (m : M A) (k : A -> M B) :
  chat_blind m -> (forall a, chat_blind (k a)) -> chat_blind (bind m k).
Proof.
  intros Hm Hk cs w. unfold bind. rewrite Hm.
  destruct (m w) as [[a|r|e] w1]; cbn [fst snd]; try reflexivity. apply Hk.
Qed.

Lemma blind_try_catch {A} (m : M A) (h : Exn -> M A) :
  chat_blind m -> (forall e, chat_blind (h e)) -> chat_blind (try_catch m h).
Proof.
  intros Hm Hh cs w. unfold try_catch. rewrite Hm.
  destruct (m w) as [[a|r|e] w1]; cbn [fst snd]; try reflexivity. apply Hh.
Qed.

Lemma blind_parse_json P text : chat_blind (parse_json P text).
Proof. intros cs w. unfold parse_json. destruct (JSON_parse P text); reflexivity. Qed.

Lemma blind_prop k o : chat_blind (prop k o).
Proof. intros cs w. destruct o; reflexivity. Qed.

Lemma blind_mask_for_log callee phoneNumber :
  chat_blind (BookingStart.mask_for_log callee phoneNumber).
Proof. intros cs w. destruct phoneNumber as [[| | | | |]|]; reflexivity. Qed.

(** A call to the store that works on the bookings only. *)
Lemma blind_query {A} fault (op : Store -> Result A * Store) :
  (forall cs s,
      op {| bookings := bookings s; messages := messages s; chats := cs |}
      = (fst (op s),
         {| bookings := bookings (snd (op s));
            messages := messages (snd (op s));
            chats := cs |})) ->
  chat_blind (query fault op).
Proof.
  intros H cs w. unfold query. destruct fault; [reflexivity |].
  unfold with_chats at 1. cbn [store]. rewrite H.
  destruct (op (store w)); reflexivity.
Qed.

Lemma blind_check_required fields body :
  chat_blind (BookingStartLegacy.check_required fields body).
Proof.
  induction fields as [|f fields IH]; simpl; [apply blind_ret |].
  destruct (negb (truthy (get f body))); [| exact IH].
  apply blind_bind; [apply blind_log | intros _; apply blind_respond].
Qed.

Ltac blind_step :=
  lazymatch goal with
  | |- chat_blind (bind _ _) => apply blind_bind; [| intros ?]
  | |- chat_blind (try_catch _ _) => apply blind_try_catch; [| intros ?]
  | |- chat_blind (ret _) => apply blind_ret
  | |- chat_blind (respond _) => apply blind_respond
  | |- chat_blind (throw _) => apply blind_throw
  | |- chat_blind (log _ _) => apply blind_log
  | |- chat_blind (parse_json _ _) => apply blind_parse_json
  | |- chat_blind (prop _ _) => apply blind_prop
  | |- chat_blind (BookingStart.mask_for_log _ _) => apply blind_mask_for_log
  | |- chat_blind (BookingStartLegacy.check_required _ _) => apply blind_check_required
  | |- chat_blind (BookingStartLegacy.place_call _ _ _ _) =>
      unfold BookingStartLegacy.place_call
  | |- chat_blind (query _ _) => apply blind_query; intros ? ?; reflexivity
  | |- chat_blind (match ?x with _ => _ end) => destruct x
  end.

(** X21.  The earlier handler neither reads nor writes the chats table: it
    does not check that the chat of the request exists or belongs to the
    user.  Run against any other chats table (an empty one included) it
    gives the same response and makes the same changes to the bookings. *)
Theorem BookingStartLegacy_ignores_chats P env oracle req cs w :
  BookingStartLegacy.POST P env oracle req (with_chats cs w)
  = (fst (BookingStartLegacy.POST P env oracle req w),
     with_chats cs (snd (BookingStartLegacy.POST P env oracle req w))).
Proof.
  unfold BookingStartLegacy.POST, handler.
  match goal with
  | |- context [try_catch ?b ?h] => assert (Hb : chat_blind (try_catch b h))
  end.
  { apply blind_try_catch.
    - repeat (cbv zeta; blind_step).
    - intros e. unfold BookingStartLegacy.on_error. repeat blind_step. }
  rewrite Hb.
  match goal with
  | |- context [try_catch ?b ?h w] => destruct (try_catch b h w) as [[r|r|e] w1]
  end; reflexivity.
Qed.
(* ================================================================= *)
(** ** Booking start: numbers that pass the phone-number validation *)

(** A row of the store is still there, under its identifier and with its
    details, after an update that sets the call. *)
Lemma inserted_row_kept row s :
  exists b, In b (bookings (insert_booking row s)) /\
            b_id b = b_id row /\ b_details b = b_details row.
Proof. exists row. split; [apply in_or_app; right; now left | split; reflexivity]. Qed.

Lemma inserted_row_kept_calling row s id callId :
  exists b, In b (bookings (update_bookings id (set_calling callId) (insert_booking row s))) /\
            b_id b = b_id row /\ b_details b = b_details row.
Proof.
  exists (if (b_id row =? id)%string then set_calling callId row else row). split.
  - cbn [update_bookings bookings insert_booking]. rewrite map_app. apply in_or_app. right.
    now left.
  - destruct (b_id row =? id)%string; split; reflexivity.
Qed.

(** A number of the pattern is never answered with the error of the
    phone-number validation, whatever the other fields are. *)
Lemma BookingStart_never_phone_error P env oracle req w body s :
  JSON_parse P (BookingStart.raw_body req) = inl body ->
  get "phoneNumber" body = Some (JStr s) ->
  test phoneRegex s = true ->
  fst (BookingStart.POST P env oracle req w)
  <> json_response
       [("success", flag false);
        ("error", str "Invalid phone number format");
        ("details", str "Phone number must be in E.164 format (e.g., +12125551234 or +972501234567)")]
       400.
Proof.
  intros Hparse Hphone Htest.
  assert (Hneg : negb (test phoneRegex (to_string (get "phoneNumber" body))) = false).
  { rewrite Hphone. cbn [to_string json_to_string]. now rewrite Htest. }
  set (bad := json_response _ 400).
  set (Q := fun (r : Response) (w' : World) => r <> bad).
  enough (H : answers (BookingStart.POST P env oracle req) Q w) by exact H.
  unfold BookingStart.POST. apply answers_handler.
  start_run.
  all: unfold caught; start_run.
  all: subst Q bad; cbv beta; try discriminate.
Qed.

(** A request that passes every validation is not answered 400, and once
    the chat is found and the store accepts the insertion its row is in the
    store. *)
Lemma BookingStart_valid_request_not_400 P env oracle req w body s :
  JSON_parse P (BookingStart.raw_body req) = inl body ->
  get "phoneNumber" body = Some (JStr s) ->
  passes_validation body ->
  status (fst (BookingStart.POST P env oracle req w)) <> 400 /\
  (forall c,
      BookingStart.chat_fault oracle = None ->
      chats_by_id_user (to_string (get "chatId" body)) (to_string (get "userId" body))
        (store w) = [c] ->
      BookingStart.insert_fault oracle = None ->
      exists b,
        In b (bookings (store (snd (BookingStart.POST P env oracle req w)))) /\
        b_id b = BookingStart.new_booking_id oracle /\
        b_details b = b_details (row (BookingStart.new_booking_id oracle) body)).
Proof.
  intros Hparse Hphone Hvalid.
  set (Q := fun (r : Response) (w' : World) =>
              status r <> 400 /\
              (forall c,
                  BookingStart.chat_fault oracle = None ->
                  chats_by_id_user (to_string (get "chatId" body))
                    (to_string (get "userId" body)) (store w) = [c] ->
                  BookingStart.insert_fault oracle = None ->
                  exists b,
                    In b (bookings (store w')) /\
                    b_id b = BookingStart.new_booking_id oracle /\
                    b_details b = b_details (row (BookingStart.new_booking_id oracle) body))).
  enough (H : answers (BookingStart.POST P env oracle req) Q w) by exact H.
  unfold BookingStart.POST. apply answers_handler.
  wp_run_with
    ltac:(idtac; lazymatch goal with
          | |- wp (BookingStart.mask_for_log _ _) _ _ =>
              apply (wp_mask_for_log_string _ _ _ _ s Hphone)
          | |- wp (BookingStart.validate _ _ _ _ _ _ _ _) _ _ =>
              apply wp_validate_passes; [exact Hvalid |]
          | |- wp (BookingStart.place_call _ _ _ _) _ _ =>
              unfold BookingStart.place_call
          | |- caught _ _ _ _ => unfold caught
          | |- wp (BookingStart.on_error _ _) _ _ => unfold BookingStart.on_error
          end).
  all: try (subst; discriminate Hphone).
  all: subst Q; cbv beta; cbn [status json_response store]; split; [discriminate |].
  all: intros ? ? ? ?; try congruence.
  all: try exact (inserted_row_kept (row (BookingStart.new_booking_id oracle) body) _).
  all: exact (inserted_row_kept_calling (row (BookingStart.new_booking_id oracle) body) _ _ _).
Qed.

(** The loop over the required fields, as a rule of the calculus. *)
Lemma wp_check_required Q fields body w :
  (Forall (fun f => truthy (get f body) = true) fields -> Q (Next tt) w) ->
  (forall field w',
      In field fields -> truthy (get field body) = false -> store w' = store w ->
      Q (Return (json_response
                   [("success", flag false);
                    ("error", str ("Missing required field: " ++ field))] 400)) w') ->
  wp (BookingStartLegacy.check_required fields body) Q w.
Proof.
  unfold wp. induction fields as [|f fields IH]; intros Hnext Hreturn.
  - apply Hnext. constructor.
  - cbn [BookingStartLegacy.check_required].
    destruct (truthy (get f body)) eqn:E; cbn [negb].
    + apply IH.
      * intros H. apply Hnext. now constructor.
      * intros field w' Hin. apply Hreturn. now right.
    + apply Hreturn; [now left | exact E | reflexivity].
Qed.

(** The same two facts for the earlier handler, which validates with
    [isValidE164PhoneNumber] and looks up no chat. *)
Lemma BookingStartLegacy_never_phone_error P env oracle req w body s :
  JSON_parse P (BookingStartLegacy.raw_body req) = inl body ->
  get "phoneNumber" body = Some (JStr s) ->
  isValidE164PhoneNumber s = true ->
  fst (BookingStartLegacy.POST P env oracle req w)
  <> json_response
       [("success", flag false);
        ("error", str "Phone number must be in E.164 format (e.g., +1234567890 or +972501234567)")]
       400.
Proof.
  intros Hparse Hphone Htest.
  assert (Hneg : negb (isValidE164PhoneNumber (to_string (get "phoneNumber" body))) = false).
  { rewrite Hphone. cbn [to_string json_to_string]. now rewrite Htest. }
  set (bad := json_response _ 400).
  set (Q := fun (r : Response) (w' : World) => r <> bad).
  enough (H : answers (BookingStartLegacy.POST P env oracle req) Q w) by exact H.
  unfold BookingStartLegacy.POST. apply answers_handler.
  wp_run_with
    ltac:(idtac; lazymatch goal with
          | |- wp (BookingStart.mask_for_log _ _) _ _ =>
              apply (wp_mask_for_log_string _ _ _ _ s Hphone)
          | |- wp (BookingStartLegacy.check_required _ _) _ _ =>
              apply wp_check_required; [intros _ | intros ? ? _ _ _]
          | |- wp (BookingStartLegacy.place_call _ _ _ _) _ _ =>
              unfold BookingStartLegacy.place_call
          | |- caught _ _ _ _ => unfold caught
          | |- wp (BookingStartLegacy.on_error _) _ _ => unfold BookingStartLegacy.on_error
          end).
  all: try (subst; discriminate Hphone).
  all: subst Q bad; cbv beta; try discriminate.
Qed.

Lemma BookingStartLegacy_valid_request_not_400 P env oracle req w body s :
  JSON_parse P (BookingStartLegacy.raw_body req) = inl body ->
  get "phoneNumber" body = Some (JStr s) ->
  isValidE164PhoneNumber s = true ->
  Forall (fun f => truthy (get f body) = true) BookingStartLegacy.requiredFields ->
  status (fst (BookingStartLegacy.POST P env oracle req w)) <> 400 /\
  (BookingStartLegacy.insert_fault oracle = None ->
   exists b,
     In b (bookings (store (snd (BookingStartLegacy.POST P env oracle req w)))) /\
     b_id b = BookingStartLegacy.new_booking_id oracle /\
     b_details b = b_details (legacy_row (BookingStartLegacy.new_booking_id oracle) body)).
Proof.
  intros Hparse Hphone Htest Hfields.
  assert (Hneg : negb (isValidE164PhoneNumber (to_string (get "phoneNumber" body))) = false).
  { rewrite Hphone. cbn [to_string json_to_string]. now rewrite Htest. }
  set (Q := fun (r : Response) (w' : World) =>
              status r <> 400 /\
              (BookingStartLegacy.insert_fault oracle = None ->
               exists b,
                 In b (bookings (store w')) /\
                 b_id b = BookingStartLegacy.new_booking_id oracle /\
                 b_details b
                 = b_details (legacy_row (BookingStartLegacy.new_booking_id oracle) body))).
  enough (H : answers (BookingStartLegacy.POST P env oracle req) Q w) by exact H.
  unfold BookingStartLegacy.POST. apply answers_handler.
  wp_run_with
    ltac:(idtac; lazymatch goal with
          | |- wp (BookingStart.mask_for_log _ _) _ _ =>
              apply (wp_mask_for_log_string _ _ _ _ s Hphone)
          | |- wp (BookingStartLegacy.check_required _ _) _ _ =>
              apply wp_check_required;
              [intros _
              | let Hin := fresh "Hin" in
                let Hf := fresh "Hf" in
                intros ? ? Hin Hf _; exfalso;
                rewrite (proj1 (Forall_forall _ _) Hfields _ Hin) in Hf; discriminate Hf]
          | |- wp (BookingStartLegacy.place_call _ _ _ _) _ _ =>
              unfold BookingStartLegacy.place_call
          | |- caught _ _ _ _ => unfold caught
          | |- wp (BookingStartLegacy.on_error _) _ _ => unfold BookingStartLegacy.on_error
          end).
  all: try (subst; discriminate Hphone).
  all: subst Q; cbv beta; cbn [status json_response store]; split; [discriminate |].
  all: intros ?; try congruence.
  all: try exact (inserted_row_kept
                    (legacy_row (BookingStartLegacy.new_booking_id oracle) body) _).
  all: exact (inserted_row_kept_calling
                (legacy_row (BookingStartLegacy.new_booking_id oracle) body) _ _ _).
Qed.

Lemma passes_validation_of_parts body :
  passes_other_validations body ->
  test phoneRegex (to_string (get "phoneNumber" body)) = true ->
  passes_validation body.
Proof. intros (Hfields & Htype & Hsize) Hphone. repeat split; try assumption; apply Hfields. Qed.

(** C4 (as amended).  The current booking-start handler validates the phone
    number against [^\+[1-9]\d{7,14}$], that is a leading ["+"], a first
    digit 1-9 and 8 to 15 digits in all; the earlier handler validates it
    with [isValidE164PhoneNumber], which holds exactly for the numbers of
    [^\+[1-9]\d{1,14}$] (2 to 15 digits in all).  In either handler a
    request whose phone number fails the handler's pattern is answered with
    400 and no row is written.  In either handler a number that matches the
    handler's pattern passes the validation of the phone number: the
    request is never answered with the handler's phone-number error, and
    when the other validations of the handler pass too the request is not
    answered 400 and, once the store accepts the insertion (in the current
    handler for a chat of the user), a row with the details of the request
    is in the store. *)
Theorem C4_phone_validation :
  (forall s, test phoneRegex s = true <-> plus_digits 7 14 (list_ascii_of_string s)) /\
  (forall s, isValidE164PhoneNumber s = true <-> spec_e164 s) /\
  (forall P env oracle req w body s,
      JSON_parse P (BookingStart.raw_body req) = inl body ->
      get "phoneNumber" body = Some (JStr s) ->
      ~ plus_digits 7 14 (list_ascii_of_string s) ->
      status (fst (BookingStart.POST P env oracle req w)) = 400 /\
      store (snd (BookingStart.POST P env oracle req w)) = store w) /\
  (forall P env oracle req w body s,
      JSON_parse P (BookingStartLegacy.raw_body req) = inl body ->
      get "phoneNumber" body = Some (JStr s) ->
      ~ spec_e164 s ->
      status (fst (BookingStartLegacy.POST P env oracle req w)) = 400 /\
      store (snd (BookingStartLegacy.POST P env oracle req w)) = store w) /\
  (forall P env oracle req w body s,
      JSON_parse P (BookingStart.raw_body req) = inl body ->
      get "phoneNumber" body = Some (JStr s) ->
      plus_digits 7 14 (list_ascii_of_string s) ->
      fst (BookingStart.POST P env oracle req w)
      <> json_response
           [("success", flag false);
            ("error", str "Invalid phone number format");
            ("details",
             str "Phone number must be in E.164 format (e.g., +12125551234 or +972501234567)")]
           400 /\
      (passes_other_validations body ->
       status (fst (BookingStart.POST P env oracle req w)) <> 400 /\
       (forall c,
           BookingStart.chat_fault oracle = None ->
           chats_by_id_user (to_string (get "chatId" body)) (to_string (get "userId" body))
             (store w) = [c] ->
           BookingStart.insert_fault oracle = None ->
           exists b,
             In b (bookings (store (snd (BookingStart.POST P env oracle req w)))) /\
             b_id b = BookingStart.new_booking_id oracle /\
             b_details b = b_details (row (BookingStart.new_booking_id oracle) body)))) /\
  (forall P env oracle req w body s,
      JSON_parse P (BookingStartLegacy.raw_body req) = inl body ->
      get "phoneNumber" body = Some (JStr s) ->
      spec_e164 s ->
      fst (BookingStartLegacy.POST P env oracle req w)
      <> json_response
           [("success", flag false);
            ("error",
             str "Phone number must be in E.164 format (e.g., +1234567890 or +972501234567)")]
           400 /\
      (Forall (fun f => truthy (get f body) = true) BookingStartLegacy.requiredFields ->
       status (fst (BookingStartLegacy.POST P env oracle req w)) <> 400 /\
       (BookingStartLegacy.insert_fault oracle = None ->
        exists b,
          In b (bookings (store (snd (BookingStartLegacy.POST P env oracle req w)))) /\
          b_id b = BookingStartLegacy.new_booking_id oracle /\
          b_details b
          = b_details (legacy_row (BookingStartLegacy.new_booking_id oracle) body)))).
Proof.
  split; [exact phoneRegex_test |].
  split; [exact isValidE164PhoneNumber_spec |].
  split; [intros; eapply BookingStart_rejects_phone; eassumption |].
  split; [intros; eapply BookingStartLegacy_rejects_phone; eassumption |].
  split.
  - intros P env oracle req w body s Hparse Hphone Hshape.
    apply phoneRegex_test in Hshape. split.
    + now apply (BookingStart_never_phone_error P env oracle req w body s).
    + intros Hother.
      apply (BookingStart_valid_request_not_400 P env oracle req w body s Hparse Hphone).
      apply passes_validation_of_parts; [exact Hother |].
      rewrite Hphone. exact Hshape.
  - intros P env oracle req w body s Hparse Hphone Hshape.
    apply isValidE164PhoneNumber_spec in Hshape. split.
    + now apply (BookingStartLegacy_never_phone_error P env oracle req w body s).
    + intros Hfields.
      now apply (BookingStartLegacy_valid_request_not_400 P env oracle req w body s).
Qed.

(** The claim as first stated fails on the current handler: ["+12345"] has
    the shape [^\+[1-9]\d{1,14}$] and is turned away as a malformed phone
    number. *)
Lemma C4_counterexample :
  spec_e164 "+12345" /\
  fst (BookingStart.POST Samples.platform Samples.start_env Samples.start_oracle
         {| BookingStart.raw_body := "start:+12345" |} Samples.world)
  = {| status := 400;
       body := JObj [("success", JBool false);
                     ("error", JStr "Invalid phone number format");
                     ("details",
                      JStr "Phone number must be in E.164 format (e.g., +12125551234 or +972501234567)")] |}.
Proof.
  split.
  - apply isValidE164PhoneNumber_spec. reflexivity.
  - reflexivity.
Qed.

Lemma C4_phone_validation_witness :
  (status (fst (BookingStart.POST Samples.platform Samples.start_env Samples.start_oracle
                  {| BookingStart.raw_body := "start:+12345" |} Samples.world)) = 400 /\
   store (snd (BookingStart.POST Samples.platform Samples.start_env Samples.start_oracle
                 {| BookingStart.raw_body := "start:+12345" |} Samples.world))
   = store Samples.world) /\
  (status (fst (BookingStartLegacy.POST Samples.platform Samples.legacy_env
                  Samples.legacy_oracle
                  {| BookingStartLegacy.raw_body := "start:+0123456789" |}
                  Samples.world)) = 400 /\
   store (snd (BookingStartLegacy.POST Samples.platform Samples.legacy_env
                 Samples.legacy_oracle
                 {| BookingStartLegacy.raw_body := "start:+0123456789" |}
                 Samples.world))
   = store Samples.world) /\
  (status (fst (BookingStart.POST Samples.platform Samples.start_env Samples.start_oracle
                  {| BookingStart.raw_body := "start:+12125551234" |} Samples.world))
   <> 400 /\
   exists b,
     In b (bookings
             (store (snd (BookingStart.POST Samples.platform Samples.start_env
                            Samples.start_oracle
                            {| BookingStart.raw_body := "start:+12125551234" |}
                            Samples.world)))) /\
     b_id b = "booking-2" /\
     b_details b = b_details (row "booking-2" (Samples.start_body "+12125551234"))) /\
  (status (fst (BookingStartLegacy.POST Samples.platform Samples.legacy_env
                  Samples.legacy_oracle
                  {| BookingStartLegacy.raw_body := "start:+12345" |} Samples.world))
   <> 400 /\
   exists b,
     In b (bookings
             (store (snd (BookingStartLegacy.POST Samples.platform Samples.legacy_env
                            Samples.legacy_oracle
                            {| BookingStartLegacy.raw_body := "start:+12345" |}
                            Samples.world)))) /\
     b_id b = "booking-2" /\
     b_details b = b_details (legacy_row "booking-2" (Samples.start_body "+12345"))).
Proof.
  destruct C4_phone_validation as (Hregex & He164 & Hcurrent & Hlegacy & Haccepts & Hearlier).
  split; [| split; [| split]].
  - apply (Hcurrent Samples.platform Samples.start_env Samples.start_oracle
             {| BookingStart.raw_body := "start:+12345" |} Samples.world
             (Samples.start_body "+12345") "+12345").
    + reflexivity.
    + reflexivity.
    + intros (d & ds & E & _ & _ & Hl). injection E as _ <-. simpl in Hl. lia.
  - apply (Hlegacy Samples.platform Samples.legacy_env Samples.legacy_oracle
             {| BookingStartLegacy.raw_body := "start:+0123456789" |} Samples.world
             (Samples.start_body "+0123456789") "+0123456789").
    + reflexivity.
    + reflexivity.
    + intros (d & ds & E & Hd & _). injection E as <- _. discriminate Hd.
  - destruct (Haccepts Samples.platform Samples.start_env Samples.start_oracle
                {| BookingStart.raw_body := "start:+12125551234" |} Samples.world
                (Samples.start_body "+12125551234") "+12125551234" eq_refl eq_refl)
      as [_ Hvalid].
    + apply Hregex. reflexivity.
    + destruct Hvalid as [Hstatus Hrow].
      * repeat split; reflexivity.
      * split; [exact Hstatus |].
        exact (Hrow Samples.chat eq_refl eq_refl eq_refl).
  - destruct (Hearlier Samples.platform Samples.legacy_env Samples.legacy_oracle
                {| BookingStartLegacy.raw_body := "start:+12345" |} Samples.world
                (Samples.start_body "+12345") "+12345" eq_refl eq_refl)
      as [_ Hvalid].
    + apply He164. reflexivity.
    + destruct Hvalid as [Hstatus Hrow].
      * repeat constructor.
      * split; [exact Hstatus |]. exact (Hrow eq_refl).
Defined.


Import Steady ChatSendFacts.

(* ================================================================= *)
(** ** Chat send: the transcript, the thread and the tools *)

Module SteadyFacts.

#[export] Instance any_world_preorder : PreOrder any_world.
Proof. split; repeat intro; exact I. Qed.

#[export] Instance threads_kept_preorder : PreOrder threads_kept.
Proof.
  split.
  - intros w. unfold threads_kept. induction (chats (store w)); constructor; auto.
  - intros w1 w2 w3. unfold threads_kept.
    generalize (chats (store w1)) (chats (store w2)) (chats (store w3)).
    intros l1 l2 l3 H12. revert l3. induction H12 as [|a b l1 l2 (Hi & Hu & Ht) _ IH];
      intros l3 H23; inversion H23 as [|b' c l2' l3' (Hi' & Hu' & Ht') H23']; subst;
      constructor; auto.
    repeat split; try congruence.
    intros Ha. rewrite Ht', Ht; auto. rewrite Ht; auto.
Qed.

Section Rules.

Context (R : World -> World -> Prop) `{!PreOrder R}.

Lemma steady_ret {A} (a : A) : steady R (ret a).
Proof. intros w. split; [reflexivity | discriminate]. Qed.

Lemma steady_throw {A} e : steady R (@throw A e).
Proof. intros w. split; [reflexivity | discriminate]. Qed.

Lemma steady_call {A} (answer : Exn + A) : steady R (call answer).
Proof. destruct answer; [apply steady_throw | apply steady_ret]. Qed.

Lemma steady_bind {A B} (m : M A) (k : A -> M B) :
  steady R m -> (forall a, steady R (k a)) -> steady R (bind m k).
Proof.
  intros Hm Hk w. unfold bind. destruct (Hm w) as [Hr Hn].
  destruct (m w) as [[a|r|e] w1]; cbn in *.
  - destruct (Hk a w1) as [Hr' Hn']. split; [now transitivity w1 | exact Hn'].
  - now destruct (Hn r).
  - split; [exact Hr | discriminate].
Qed.

Lemma steady_try_catch {A} (m : M A) (h : Exn -> M A) :
  steady R m -> (forall e, steady R (h e)) -> steady R (try_catch m h).
Proof.
  intros Hm Hh w. unfold try_catch. destruct (Hm w) as [Hr Hn].
  destruct (m w) as [[a|r|e] w1]; cbn in *.
  - split; [exact Hr | discriminate].
  - now destruct (Hn r).
  - destruct (Hh e w1) as [Hr' Hn']. split; [now transitivity w1 | exact Hn'].
Qed.

Lemma steady_stable {A} (m : M A) :
  stable R m -> (forall w r, fst (m w) <> Return r) -> steady R m.
Proof. intros Hs Hn w. split; [apply Hs | apply Hn]. Qed.

Lemma steadyF_lift {A} (m : M A) : steady R m -> steadyF R (lift m).
Proof.
  intros Hm w o w' E. unfold lift in E. injection E as E. specialize (Hm w).
  rewrite E in Hm. exact Hm.
Qed.

Lemma steadyF_bind {A B} (m : MF A) (k : A -> MF B) :
  steadyF R m -> (forall a, steadyF R (k a)) -> steadyF R (bindF m k).
Proof.
  intros Hm Hk w o w' E. unfold bindF in E.
  destruct (m w) as [[[a|r|e] w1]|] eqn:Em; try discriminate.
  - destruct (Hm w _ _ Em) as [Hr _]. destruct (Hk a w1 o w' E) as [Hr' Hn'].
    split; [now transitivity w1 | exact Hn'].
  - destruct (Hm w _ _ Em) as [_ Hn]. now destruct (Hn r).
  - injection E as <- <-. destruct (Hm w _ _ Em) as [Hr _]. split; [exact Hr | discriminate].
Qed.

Lemma steadyF_try_catch {A} (m : MF A) (h : Exn -> MF A) :
  steadyF R m -> (forall e, steadyF R (h e)) -> steadyF R (try_catchF m h).
Proof.
  intros Hm Hh w o w' E. unfold try_catchF in E.
  destruct (m w) as [[[a|r|e] w1]|] eqn:Em; try discriminate.
  - injection E as <- <-. destruct (Hm w _ _ Em) as [Hr _]. split; [exact Hr | discriminate].
  - destruct (Hm w _ _ Em) as [_ Hn]. now destruct (Hn r).
  - destruct (Hm w _ _ Em) as [Hr _]. destruct (Hh e w1 o w' E) as [Hr' Hn'].
    split; [now transitivity w1 | exact Hn'].
Qed.

End Rules.

Lemma steady_log R `{!PreOrder R} l text :
  (forall w c, R w {| store := store w; console := c; sleeps := sleeps w |}) ->
  steady R (log l text).
Proof. intros H w. split; [apply H | discriminate]. Qed.

Lemma steadyF_weaken (R R' : World -> World -> Prop) {A} (m : MF A) :
  (forall w w', R w w' -> R' w w') -> steadyF R m -> steadyF R' m.
Proof. intros H Hm w o w' E. destruct (Hm w o w' E). auto. Qed.

Lemma stableF_weaken (R R' : World -> World -> Prop) {A} (m : MF A) :
  (forall w w', R w w' -> R' w w') -> stableF R m -> stableF R' m.
Proof. intros H Hm w o w' E. apply H. eapply Hm. exact E. Qed.

Lemma stable_weaken (R R' : World -> World -> Prop) {A} (m : M A) :
  (forall w w', R w w' -> R' w w') -> stable R m -> stable R' m.
Proof. intros H Hm w. apply H, Hm. Qed.

(** A whole handler, from what its body and its error handler do. *)
Lemma handlerF_stable R `{!PreOrder R} (body : MF Response) on_error w r w' :
  stableF R body ->
  (forall e, stable R (on_error e)) ->
  handlerF body on_error w = Some (r, w') ->
  R w w'.
Proof.
  intros Hbody Herr E. unfold handlerF, try_catchF in E.
  destruct (body w) as [[[a|a|e] w1]|] eqn:Eb; try discriminate.
  - injection E as <- <-. eapply Hbody; exact Eb.
  - injection E as <- <-. eapply Hbody; exact Eb.
  - unfold lift in E. pose proof (Herr e w1) as Hs.
    destruct (on_error e w1) as [[a|a|e'] w2]; cbn in Hs; injection E as <- <-;
      (transitivity w1; [eapply Hbody; exact Eb | exact Hs]).
Qed.

End SteadyFacts.

Import SteadyFacts.

Section SendFacts.

Variable P : Platform.
Variable env : ChatSend.Env.
Variable oracle : ChatSend.Oracle.
Variable openai : Service.

(** *** The thread of a chat *)

Lemma filter_singleton {A} (p : A -> bool) l a :
  filter p l = [a] -> forall x, In x l -> p x = true -> x = a.
Proof.
  intros H x Hin Hp.
  assert (Hx : In x (filter p l)) by (apply filter_In; auto).
  rewrite H in Hx. destruct Hx as [<- | []]. reflexivity.
Qed.

Lemma threads_kept_update id thread w c0 cons :
  chats_by_id id (store w) = [c0] ->
  str_truthy (c_openai_thread_id c0) = false ->
  threads_kept w {| store := update_chats id (set_thread thread) (store w);
                    console := cons; sleeps := sleeps w |}.
Proof.
  intros Hrows Hnone. unfold threads_kept. cbn [store update_chats chats].
  pose proof (filter_singleton _ _ _ Hrows) as Honly.
  induction (chats (store w)) as [|c l IH]; simpl; constructor.
  - destruct (c_id c =? id)%string eqn:E; [| repeat split].
    repeat split. intros Ht. rewrite (Honly c (or_introl eq_refl) E) in Ht. congruence.
  - apply IH. intros x Hx. apply Honly. now right.
Qed.

Lemma threads_kept_same_chats w w' :
  chats (store w') = chats (store w) -> threads_kept w w'.
Proof.
  intros H. unfold threads_kept. rewrite H. clear H.
  induction (chats (store w)); constructor; auto.
Qed.

Lemma extends_threads_kept w w' : extends w w' -> threads_kept w w'.
Proof. intros [H _]. now apply threads_kept_same_chats. Qed.

Lemma get_or_create_thread_threads c :
  stable threads_kept (ChatSend.get_or_create_thread oracle openai c).
Proof.
  intros w.
  enough (H : wp (ChatSend.get_or_create_thread oracle openai c)
                (fun _ w' => threads_kept w w') w) by exact H.
  unfold ChatSend.get_or_create_thread. wp_run.
  all: try (apply threads_kept_same_chats; reflexivity).
  all: match goal with
       | Hrows : chats_by_id _ (store ?w0) = [?c0],
         Hn : str_truthy _ = false |- _ =>
           apply (threads_kept_update _ _ w0 c0); [exact Hrows | exact Hn]
       end.
Qed.

Lemma start_run_threads fuel c m :
  stableF threads_kept (ChatSend.start_run env oracle openai fuel c m).
Proof.
  unfold ChatSend.start_run.
  destruct (negb (str_truthy (ChatSend.OPENAI_ASSISTANT_ID env))).
  - apply stableF_bind; [exact _ | |].
    + apply stableF_lift. intros w. apply threads_kept_same_chats. reflexivity.
    + intros _. apply stableF_lift, stable_respond. exact _.
  - apply stableF_bind; [exact _ | |].
    + apply stableF_lift. intros w. apply threads_kept_same_chats.
      unfold query. destruct (ChatSend.user_insert_fault oracle); reflexivity.
    + intros userMessage. destruct (error userMessage).
      * apply stableF_bind; [exact _ | |].
        -- apply stableF_lift. intros w. apply threads_kept_same_chats. reflexivity.
        -- intros _. apply stableF_lift, stable_throw. exact _.
      * apply stableF_bind; [exact _ | apply stableF_lift, get_or_create_thread_threads |].
        intros threadId. apply stableF_bind; [exact _ | |].
        { apply stableF_lift.
          destruct (messages_create openai threadId (to_string m));
            [apply stable_throw | apply stable_ret]; exact _. }
        intros _. apply stableF_bind; [exact _ | |].
        { apply stableF_lift. intros w. apply threads_kept_same_chats. reflexivity. }
        intros _. apply stableF_bind; [exact _ | apply stableF_lift, stable_call; exact _ |].
        intros run. apply stableF_bind; [exact _ | |].
        { apply (stableF_weaken extends); [exact extends_threads_kept |].
          apply poll_extends. }
        intros run1. apply stableF_lift, stable_ret. exact _.
Qed.

Lemma POST_threads fuel req w r w' :
  ChatSend.POST P env oracle openai fuel req w = Some (r, w') -> threads_kept w w'.
Proof.
  unfold ChatSend.POST. apply handlerF_stable; [exact _ | |].
  - apply stableF_bind; [exact _ | |].
    { apply stableF_lift. unfold parse_json.
      destruct (JSON_parse P (ChatSend.raw_body req));
        [apply stable_ret | apply stable_throw]; exact _. }
    intros body. apply stableF_bind; [exact _ | |].
    { apply stableF_lift. unfold destructured.
      destruct body; first [apply stable_throw | apply stable_ret]; exact _. }
    intros chatId.
    destruct (negb (truthy chatId) || negb (truthy (get "userId" body))
              || negb (truthy (get "message" body))).
    + apply stableF_lift, stable_respond. exact _.
    + apply stableF_bind; [exact _ | apply start_run_threads |].
      intros started.
      apply (stableF_weaken extends); [exact extends_threads_kept |].
      apply tail_extends.
  - intros e. apply (stable_weaken same_store).
    + intros w0 w1 H. apply threads_kept_same_chats. unfold same_store in H. now rewrite H.
    + apply on_error_store.
Qed.

End SendFacts.

(** X22.  The send-message handler sets the thread of a chat at most once:
    whatever the request and the answers of the services, every chat is
    still there afterwards under the same user, and a chat that already had
    a thread identifier has kept it. *)
Theorem ChatSend_keeps_thread_of_chat P env oracle openai fuel req w r w' :
  ChatSend.POST P env oracle openai fuel req w = Some (r, w') ->
  Forall2 (fun c c' =>
             c_id c' = c_id c /\ c_user_id c' = c_user_id c /\
             (str_truthy (c_openai_thread_id c) = true ->
              c_openai_thread_id c' = c_openai_thread_id c))
          (chats (store w)) (chats (store w')).
Proof.
  intros E. exact (POST_threads P env oracle openai fuel req w r w' E).
Qed.

Lemma ChatSend_keeps_thread_of_chat_witness :
  match
    ChatSend.POST Samples.platform Samples.send_env Samples.send_oracle
      (Samples.quick_service [Samples.call_status]) 60
      (Samples.send_request "user-1") Samples.world
  with
  | Some (r, w') =>
      Forall2 (fun c c' =>
                 c_id c' = c_id c /\ c_user_id c' = c_user_id c /\
                 (str_truthy (c_openai_thread_id c) = true ->
                  c_openai_thread_id c' = c_openai_thread_id c))
              (chats (store Samples.world)) (chats (store w'))
  | None => False
  end.
Proof.
  destruct (ChatSend.POST Samples.platform Samples.send_env Samples.send_oracle
              (Samples.quick_service [Samples.call_status]) 60
              (Samples.send_request "user-1") Samples.world)
    as [[r w']|] eqn:E; [| vm_compute in E; discriminate E].
  exact (ChatSend_keeps_thread_of_chat Samples.platform Samples.send_env
           Samples.send_oracle (Samples.quick_service [Samples.call_status]) 60
           (Samples.send_request "user-1") Samples.world r w' E).
Defined.

Section SendTranscript.

Variable P : Platform.
Variable env : ChatSend.Env.
Variable oracle : ChatSend.Oracle.
Variable openai : Service.

(** *** The transcript *)

Ltac steady_cases :=
  intros w;
  unfold ChatSend.handleToolCall, ChatSend.handleStartBookingCall,
    ChatSend.handleGetBookingStatus, ChatSend.destructure,
    parse_json, query, prop, call, try_catch, bind, log, ret, respond, throw;
  run_cases; (split; [reflexivity | discriminate]).

Lemma handleToolCall_steady tc c u :
  steady same_messages (ChatSend.handleToolCall P env oracle tc c u).
Proof. unfold same_messages. steady_cases. Qed.

Lemma handleToolCalls_from_steady c u : forall tcs acc,
  steady same_messages (ChatSend.handleToolCalls_from P env oracle acc tcs c u).
Proof.
  induction tcs as [|tc tcs IH]; intros acc; simpl.
  - apply steady_ret. exact _.
  - apply steady_bind; [exact _ | apply handleToolCall_steady | intros out; apply IH].
Qed.

Lemma poll_steady label : forall fuel run attempts,
  steadyF same_messages (ChatSend.poll openai fuel label run attempts).
Proof.
  induction fuel as [|fuel IH]; intros run attempts; simpl.
  - destruct (pending (run_status run) && (attempts <? ChatSend.maxAttempts)%nat).
    + intros w o w' E. discriminate E.
    + apply steadyF_lift, steady_ret. exact _.
  - destruct (pending (run_status run) && (attempts <? ChatSend.maxAttempts)%nat).
    + apply steadyF_bind; [exact _ | |].
      { apply steadyF_lift. intros w. split; [reflexivity | discriminate]. }
      intros _. apply steadyF_bind; [exact _ | |].
      { apply steadyF_lift. intros w. split; [reflexivity | discriminate]. }
      intros n. apply steadyF_bind; [exact _ | apply steadyF_lift, steady_call; exact _ |].
      intros run'. apply steadyF_bind; [exact _ | |].
      { apply steadyF_lift. intros w. split; [reflexivity | discriminate]. }
      intros _. apply IH.
    + apply steadyF_lift, steady_ret. exact _.
Qed.

Lemma after_first_poll_steady fuel run c u :
  steadyF same_messages (ChatSend.after_first_poll P env oracle openai fuel run c u).
Proof.
  unfold ChatSend.after_first_poll.
  destruct (run_status run =? "requires_action")%string.
  - apply steadyF_bind; [exact _ | |].
    { apply steadyF_lift. intros w. split; [reflexivity | discriminate]. }
    intros _. destruct (tool_calls run) as [[|tc tcs]|].
    + apply steadyF_lift, steady_ret. exact _.
    + apply steadyF_bind; [exact _ | apply steadyF_lift, handleToolCalls_from_steady |].
      intros outs. apply steadyF_bind; [exact _ | apply steadyF_lift, steady_call; exact _ |].
      intros run'. apply poll_steady.
    + apply steadyF_lift, steady_ret. exact _.
  - apply steadyF_lift, steady_ret. exact _.
Qed.

Lemma get_or_create_thread_steady c :
  steady same_messages (ChatSend.get_or_create_thread oracle openai c).
Proof.
  apply steady_stable; [apply get_or_create_thread_messages |].
  intros w r.
  unfold ChatSend.get_or_create_thread, query, call, bind, log, ret, throw.
  run_cases; discriminate.
Qed.

(** The first stage returns a response of its own only when the assistant
    is not configured, and that response is a 500. *)
Lemma start_run_return fuel c m w r w3 :
  ChatSend.start_run env oracle openai fuel c m w = Some (Return r, w3) ->
  status r = 500.
Proof.
  unfold ChatSend.start_run.
  destruct (negb (str_truthy (ChatSend.OPENAI_ASSISTANT_ID env))).
  - cbn. intros E. injection E as <- _. reflexivity.
  - intros E. exfalso.
    match type of E with
    | ?m w = _ => assert (Hm : steadyF any_world m)
    end.
    { apply steadyF_bind; [exact _ | |].
      { apply steadyF_lift. intros w0. split; [exact I |].
        unfold query. destruct (ChatSend.user_insert_fault oracle); discriminate. }
      intros userMessage. destruct (error userMessage).
      - apply steadyF_bind; [exact _ | |].
        { apply steadyF_lift. intros w0. split; [exact I | discriminate]. }
        intros _. apply steadyF_lift, steady_throw. exact _.
      - apply steadyF_bind; [exact _ | |].
        { apply steadyF_lift. intros w0. split; [exact I |].
          apply get_or_create_thread_steady. }
        intros threadId. apply steadyF_bind; [exact _ | |].
        { apply steadyF_lift.
          destruct (messages_create openai threadId (to_string m));
            [apply steady_throw | apply steady_ret]; exact _. }
        intros _. apply steadyF_bind; [exact _ | |].
        { apply steadyF_lift. intros w0. split; [exact I | discriminate]. }
        intros _. apply steadyF_bind; [exact _ | apply steadyF_lift, steady_call; exact _ |].
        intros run. apply steadyF_bind; [exact _ | |].
        { apply (steadyF_weaken same_messages); [intros; exact I | apply poll_steady]. }
        intros run1. apply steadyF_lift, steady_ret. exact _. }
    destruct (Hm w _ _ E) as [_ Hn]. now apply (Hn r).
Qed.

(** What the last stage does: a 200 with one assistant row, or a throw
    that has written nothing. *)
Lemma finish_outcome run c t w :
  match ChatSend.finish oracle openai run c t w with
  | (Next r, w') =>
      status r = 200 /\
      exists row,
        messages (store w') = (messages (store w) ++ [row])%list /\
        m_role row = "assistant" /\ m_chat_id row = to_string c
  | (Return _, _) => False
  | (Throw _, w') => messages (store w') = messages (store w)
  end.
Proof.
  enough (H : wp (ChatSend.finish oracle openai run c t)
                (fun o w' =>
                   match o with
                   | Next r =>
                       status r = 200 /\
                       exists row,
                         messages (store w') = (messages (store w) ++ [row])%list /\
                         m_role row = "assistant" /\ m_chat_id row = to_string c
                   | Return _ => False
                   | Throw _ => messages (store w') = messages (store w)
                   end) w).
  { unfold wp in H. destruct (ChatSend.finish oracle openai run c t w) as [o w'].
    exact H. }
  unfold ChatSend.finish. wp_run.
  all: cbn; try reflexivity.
  all: split; [reflexivity |]; eexists; repeat split.
Qed.

(** The second and third stage together. *)
Lemma tail_outcome fuel run c u t w o w' :
  bindF (ChatSend.after_first_poll P env oracle openai fuel run c u)
        (fun run2 => lift (ChatSend.finish oracle openai run2 c t)) w = Some (o, w') ->
  match o with
  | Next r =>
      status r = 200 /\
      exists row,
        messages (store w') = (messages (store w) ++ [row])%list /\
        m_role row = "assistant" /\ m_chat_id row = to_string c
  | Return _ => False
  | Throw _ => messages (store w') = messages (store w)
  end.
Proof.
  unfold bindF.
  destruct (ChatSend.after_first_poll P env oracle openai fuel run c u w)
    as [[[run2|r|e] w1]|] eqn:E1; try discriminate.
  - destruct (after_first_poll_steady fuel run c u w _ _ E1) as [Hm _].
    unfold same_messages in Hm. unfold lift. intros E. injection E as E.
    pose proof (finish_outcome run2 c t w1) as Hf. rewrite E in Hf.
    rewrite <- Hm. exact Hf.
  - destruct (after_first_poll_steady fuel run c u w _ _ E1) as [_ Hn]. now destruct (Hn r).
  - intros E. injection E as <- <-.
    destruct (after_first_poll_steady fuel run c u w _ _ E1) as [Hm _]. exact Hm.
Qed.

Lemma on_error_500 e w :
  exists r w1,
    ChatSend.on_error e w = (Next r, w1) /\ status r = 500 /\ store w1 = store w.
Proof. eexists _, _. repeat split. Qed.

Lemma accepted_transcript fuel c m u w r w' :
  ChatSend.accepted P env oracle openai fuel c m u w = Some (r, w') ->
  (status r = 200 ->
   exists row,
     messages (store w')
     = (messages (store w) ++ [ChatSend.userRow c m; row])%list /\
     m_role row = "assistant" /\ m_chat_id row = to_string c) /\
  (status r <> 200 ->
   messages (store w') = messages (store w) \/
   messages (store w') = (messages (store w) ++ [ChatSend.userRow c m])%list).
Proof.
  unfold ChatSend.accepted. intros E.
  destruct (ChatSend.start_run env oracle openai fuel c m w) as [[o w3]|] eqn:Es;
    [| unfold handlerF, try_catchF, bindF in E; rewrite Es in E; discriminate].
  pose proof (start_run_messages env oracle openai fuel c m w o w3 Es) as Hm.
  destruct o as [started|r0|e].
  - rewrite (handlerF_bind_next _ _ _ _ _ _ Es) in E.
    destruct Hm as [Hm | [_ Hm]]; [| now destruct (Hm started)].
    cbv beta in E.
    destruct (bindF (ChatSend.after_first_poll P env oracle openai fuel (snd started) c u)
                (fun run2 => lift (ChatSend.finish oracle openai run2 c (fst started))) w3)
      as [[[r1|r1|e] w4]|] eqn:Et;
      unfold handlerF, try_catchF in E; rewrite Et in E; try discriminate;
      pose proof (tail_outcome fuel (snd started) c u (fst started) w3 _ _ Et) as Ht.
    + injection E as <- <-. destruct Ht as (H200 & row & Hrow & Hrole & Hchat).
      split; [| intros Hne; now destruct Hne].
      intros _. exists row. rewrite Hrow, Hm, <- app_assoc. auto.
    + destruct Ht.
    + unfold lift in E. destruct (on_error_500 e w4) as (r1 & w5 & Eo & H500 & Hstore).
      rewrite Eo in E.
      injection E as <- <-. split; [intros H; rewrite H in H500; discriminate H500 |].
      intros _. right. rewrite Hstore, Ht, Hm. reflexivity.
  - unfold handlerF, try_catchF, bindF in E. rewrite Es in E. injection E as <- <-.
    pose proof (start_run_return fuel c m w r0 w3 Es) as H500.
    split; [intros H; rewrite H in H500; discriminate H500 |].
    intros _. destruct Hm as [Hm | [Hm _]]; auto.
  - unfold handlerF, try_catchF, bindF in E. rewrite Es in E.
    unfold lift in E. destruct (on_error_500 e w3) as (r1 & w5 & Eo & H500 & Hstore).
    rewrite Eo in E.
    injection E as <- <-. split; [intros H; rewrite H in H500; discriminate H500 |].
    intros _. rewrite Hstore. destruct Hm as [Hm | [Hm _]]; auto.
Qed.

End SendTranscript.

(** X23.  The transcript after a send-message request that named a chat, a
    user and a message.  When the handler answers 200 it has appended
    exactly two rows, the user's message and then one assistant message of
    the same chat; when it answers anything else it has appended no
    assistant message, and the user's message, once saved, is not taken
    back. *)
Theorem ChatSend_transcript_after_request P env oracle openai fuel req w body r w' :
  JSON_parse P (ChatSend.raw_body req) = inl body ->
  truthy (get "chatId" body) = true ->
  truthy (get "userId" body) = true ->
  truthy (get "message" body) = true ->
  ChatSend.POST P env oracle openai fuel req w = Some (r, w') ->
  (status r = 200 ->
   exists row,
     messages (store w')
     = (messages (store w)
        ++ [ChatSend.userRow (get "chatId" body) (get "message" body); row])%list /\
     m_role row = "assistant" /\ m_chat_id row = to_string (get "chatId" body)) /\
  (status r <> 200 ->
   messages (store w') = messages (store w) \/
   messages (store w')
   = (messages (store w)
      ++ [ChatSend.userRow (get "chatId" body) (get "message" body)])%list).
Proof.
  intros Hp Hc Hu Hm E.
  rewrite (POST_accepted P env oracle openai fuel req w body Hp Hc Hu Hm) in E.
  exact (accepted_transcript P env oracle openai fuel _ _ _ w r w' E).
Qed.

Lemma ChatSend_transcript_after_request_witness :
  match
    ChatSend.POST Samples.platform Samples.send_env Samples.send_oracle
      (Samples.quick_service [Samples.call_status]) 60
      (Samples.send_request "user-1") Samples.world
  with
  | Some (r, w') =>
      (status r = 200 ->
       exists row,
         messages (store w')
         = (messages (store Samples.world)
            ++ [ChatSend.userRow (str "chat-1") (str "Book a table"); row])%list /\
         m_role row = "assistant" /\ m_chat_id row = "chat-1") /\
      (status r <> 200 ->
       messages (store w') = messages (store Samples.world) \/
       messages (store w')
       = (messages (store Samples.world)
          ++ [ChatSend.userRow (str "chat-1") (str "Book a table")])%list)
  | None => False
  end.
Proof.
  destruct (ChatSend.POST Samples.platform Samples.send_env Samples.send_oracle
              (Samples.quick_service [Samples.call_status]) 60
              (Samples.send_request "user-1") Samples.world)
    as [[r w']|] eqn:E; [| vm_compute in E; discriminate E].
  exact (ChatSend_transcript_after_request Samples.platform Samples.send_env
           Samples.send_oracle (Samples.quick_service [Samples.call_status]) 60
           (Samples.send_request "user-1") Samples.world (Samples.send_body "user-1")
           r w' eq_refl eq_refl eq_refl eq_refl E).
Defined.

(** *** The status tool *)

(** X24.  The status tool of the assistant reads one booking, by
    identifier and chat together, and writes nothing.  A booking of another
    chat is not disclosed: when no booking with the requested identifier
    belongs to the chat of the conversation the tool answers
    [{ error: 'Booking not found' }]; when exactly one does, the answer
    carries the status, type, details and result of that row. *)
Theorem ChatSend_status_tool_is_scoped_to_chat oracle args chatId w :
  args <> JNull ->
  store (snd (ChatSend.handleGetBookingStatus oracle args chatId w)) = store w /\
  ((forall b, In b (bookings (store w)) ->
              b_id b = to_string (get "bookingId" args) ->
              b_chat_id b <> to_string chatId) ->
   fst (ChatSend.handleGetBookingStatus oracle args chatId w)
   = Next (JObj [("error", JStr "Booking not found")])) /\
  (forall b,
      ChatSend.status_fault oracle = None ->
      bookings_by_id_chat (to_string (get "bookingId" args)) (to_string chatId) (store w)
      = [b] ->
      fst (ChatSend.handleGetBookingStatus oracle args chatId w)
      = Next (JObj [("bookingId", JStr (b_id b)); ("status", JStr (b_status b));
                    ("bookingType", JStr (b_booking_type b));
                    ("details", b_details b); ("result", b_result b)])).
Proof.
  intros Hargs.
  assert (Hd : forall w0, ChatSend.destructure "bookingId" args w0 = (Next args, w0)).
  { intros w0. destruct args; try reflexivity. contradiction. }
  unfold ChatSend.handleGetBookingStatus, bind. rewrite Hd. unfold query.
  split; [| split].
  - destruct (ChatSend.status_fault oracle); [reflexivity |]. cbn.
    destruct (bookings_by_id_chat _ _ (store w)) as [|b [|b' l]]; reflexivity.
  - intros Hscope. destruct (ChatSend.status_fault oracle); [reflexivity |].
    assert (Hnone : bookings_by_id_chat (to_string (get "bookingId" args))
                      (to_string chatId) (store w) = []).
    { unfold bookings_by_id_chat. apply filter_none. intros b Hb.
      destruct (b_id b =? to_string (get "bookingId" args))%string eqn:Eid; [| reflexivity].
      apply String.eqb_eq in Eid. cbn. apply String.eqb_neq. now apply Hscope. }
    cbn. rewrite Hnone. reflexivity.
  - intros b Hfault Hrows. rewrite Hfault. cbn. rewrite Hrows. reflexivity.
Qed.

Lemma ChatSend_status_tool_is_scoped_to_chat_witness :
  store (snd (ChatSend.handleGetBookingStatus Samples.send_oracle
                (JObj [("bookingId", JStr "booking-1")]) (str "chat-2") Samples.world))
  = store Samples.world /\
  fst (ChatSend.handleGetBookingStatus Samples.send_oracle
         (JObj [("bookingId", JStr "booking-1")]) (str "chat-2") Samples.world)
  = Next (JObj [("error", JStr "Booking not found")]).
Proof.
  destruct (ChatSend_status_tool_is_scoped_to_chat Samples.send_oracle
              (JObj [("bookingId", JStr "booking-1")]) (str "chat-2") Samples.world)
    as (Hstore & Hscope & _).
  - discriminate.
  - split; [exact Hstore |]. apply Hscope.
    intros b [<- | []] _. discriminate.
Defined.

(** *** Polling *)

(** X25.  The polling loop of the send-message handler stops at the first
    status check that finds the run settled: if the run is pending, the
    checks made after the first [k - 1] one-second waits still find it
    queued or in progress and the [k]-th finds it in another status, then
    (with [k] attempts left) the loop returns that run after exactly [k]
    waits, and has not touched the store. *)
Theorem ChatSend_poll_returns_first_settled_run openai label :
  forall k fuel run attempts w run',
    pending (run_status run) = true ->
    (forall i, 1 <= i < k ->
               exists r, runs_retrieve openai (sleeps w + i) = inr r /\
                         pending (run_status r) = true) ->
    runs_retrieve openai (sleeps w + k) = inr run' ->
    pending (run_status run') = false ->
    1 <= k ->
    attempts + k <= ChatSend.maxAttempts ->
    k <= fuel ->
    exists w',
      ChatSend.poll openai fuel label run attempts w = Some (Next run', w') /\
      sleeps w' = sleeps w + k /\
      store w' = store w.
Proof.
  induction k as [|k IH]; intros fuel run attempts w run' Hpending Hbefore Hat Hsettled
                                 Hk Hleft Hfuel; [lia |].
  destruct fuel as [|fuel]; [lia |].
  assert (Hlt : (attempts <? ChatSend.maxAttempts)%nat = true) by (apply Nat.ltb_lt; lia).
  cbn [ChatSend.poll]. rewrite Hpending, Hlt. cbn [andb].
  unfold bindF at 1. unfold lift at 1. cbn [sleep_1000].
  unfold bindF at 1. unfold lift at 1. cbn [slept sleeps].
  unfold bindF at 1. unfold lift at 1.
  destruct k as [|k].
  - replace (sleeps w + 1) with (S (sleeps w)) in Hat by lia. rewrite Hat. cbn [call ret].
    unfold bindF at 1. unfold lift at 1. cbn [log].
    destruct fuel; cbn [ChatSend.poll]; rewrite Hsettled; cbn [andb];
      (eexists; split; [reflexivity |]; cbn; split; [lia | reflexivity]).
  - destruct (Hbefore 1 ltac:(lia)) as (r1 & Hr1 & Hp1).
    replace (sleeps w + 1) with (S (sleeps w)) in Hr1 by lia. rewrite Hr1. cbn [call ret].
    unfold bindF at 1. unfold lift at 1. cbn [log].
    match goal with
    | |- exists w', ChatSend.poll _ _ _ _ _ ?w1 = _ /\ _ =>
        destruct (IH fuel r1 (S attempts) w1 run' Hp1) as (w' & E & Hs & Hst)
    end.
    + intros i Hi. cbn [sleeps]. destruct (Hbefore (S i) ltac:(lia)) as (r & Hr & Hp).
      exists r. split; [| exact Hp]. rewrite <- Hr. f_equal. lia.
    + cbn [sleeps]. rewrite <- Hat. f_equal. lia.
    + exact Hsettled.
    + lia.
    + lia.
    + lia.
    + exists w'. split; [exact E |]. cbn [sleeps store] in Hs, Hst. split; [lia | exact Hst].
Qed.

Lemma ChatSend_poll_returns_first_settled_run_witness :
  exists w',
    ChatSend.poll (Samples.slow_service [Samples.call_unknown]) 40 "Run status (attempt "
      (Samples.run_in "queued" None) 0 Samples.world
    = Some (Next (Samples.run_in "requires_action" (Some [Samples.call_unknown])), w') /\
    sleeps w' = sleeps Samples.world + 30 /\
    store w' = store Samples.world.
Proof.
  apply (ChatSend_poll_returns_first_settled_run
           (Samples.slow_service [Samples.call_unknown]) "Run status (attempt "
           30 40 (Samples.run_in "queued" None) 0 Samples.world
           (Samples.run_in "requires_action" (Some [Samples.call_unknown]))).
  - reflexivity.
  - intros i Hi. exists (Samples.run_in "queued" None). split; [| reflexivity].
    cbn. destruct (Nat.eqb i 30) eqn:E; [| reflexivity].
    apply Nat.eqb_eq in E. lia.
  - reflexivity.
  - reflexivity.
  - lia.
  - apply Nat.leb_le. reflexivity.
  - lia.
Defined.

Import OpenAiLibFacts ToolAnswers.

(* ================================================================= *)
(** ** [lib/openai.ts]: tool calls and the run *)

Section LibFacts.

Variable P : Platform.
Variable env : OpenAiLib.Env.
Variable openai : Service.
Variable now : nat -> Z.

Lemma lib_handleToolCalls_from_answered handler : forall tcs acc w,
  exists outs w',
    OpenAiLib.handleToolCalls_from P acc tcs handler w = (Next (acc ++ outs)%list, w') /\
    Forall2 (answered P) tcs outs.
Proof.
  induction tcs as [|tc tcs IH]; intros acc w; simpl.
  - exists [], w. split; [now rewrite app_nil_r | constructor].
  - unfold bind.
    destruct (handleToolCall_answers P tc handler w) as (out & w1 & E & Hid & Hbad).
    rewrite E.
    destruct (IH (acc ++ [out])%list w1) as (outs & w2 & E2 & Hall).
    exists (out :: outs), w2. split.
    + rewrite E2, <- app_assoc. reflexivity.
    + constructor; [| exact Hall]. split; [exact Hid |].
      intros msg Hmsg. now destruct (Hbad msg Hmsg).
Qed.

Lemma lib_handleToolCalls_steady tcs handler :
  steady any_world (OpenAiLib.handleToolCalls P tcs handler).
Proof.
  intros w. split; [exact I |]. intros r.
  destruct (handleToolCalls_answers P tcs handler w) as (outs & w' & E & _).
  rewrite E. discriminate.
Qed.

Lemma lib_poll_steady label maxWaitTime startTime : forall fuel run attempts reads,
  steadyF any_world
    (OpenAiLib.poll openai now fuel label maxWaitTime startTime run attempts reads).
Proof.
  induction fuel as [|fuel IH]; intros run attempts reads; simpl.
  - destruct (pending (run_status run)).
    + intros w o w' E. discriminate E.
    + apply steadyF_lift, steady_ret. exact _.
  - destruct (pending (run_status run)); [| apply steadyF_lift, steady_ret; exact _].
    destruct (maxWaitTime * 1000 <? now reads - startTime)%Z.
    + apply steadyF_lift, steady_throw. exact _.
    + apply steadyF_bind; [exact _ | |].
      { apply steadyF_lift. intros w. split; [exact I | discriminate]. }
      intros _. apply steadyF_bind; [exact _ | |].
      { apply steadyF_lift. intros w. split; [exact I | discriminate]. }
      intros n. apply steadyF_bind; [exact _ | apply steadyF_lift, steady_call; exact _ |].
      intros run'. apply steadyF_bind; [exact _ | |].
      { apply steadyF_lift. intros w. split; [exact I | discriminate]. }
      intros _. apply IH.
Qed.

Lemma lib_dispatch_steady fuel handler maxWaitTime startTime run1 reads1 :
  steadyF any_world
    (OpenAiLib.dispatch P openai now fuel handler maxWaitTime startTime run1 reads1).
Proof.
  unfold OpenAiLib.dispatch.
  destruct (run_status run1 =? "requires_action")%string;
    [| apply steadyF_lift, steady_ret; exact _].
  apply steadyF_bind; [exact _ | |].
  { apply steadyF_lift. intros w. split; [exact I | discriminate]. }
  intros _. destruct handler as [handler|]; [| apply steadyF_lift, steady_throw; exact _].
  destruct (tool_calls run1) as [[|tc tcs]|]; try (apply steadyF_lift, steady_ret; exact _).
  apply steadyF_bind; [exact _ | apply steadyF_lift, lib_handleToolCalls_steady |].
  intros outs. apply steadyF_bind; [exact _ | |].
  { apply steadyF_lift. intros w. split; [exact I | discriminate]. }
  intros _. apply steadyF_bind; [exact _ | apply steadyF_lift, steady_call; exact _ |].
  intros run'. apply steadyF_bind; [exact _ | apply lib_poll_steady |].
  intros again. apply steadyF_lift, steady_ret. exact _.
Qed.

Lemma reply_outcome thread run2 w :
  match fst (OpenAiLib.reply openai thread run2 w) with
  | Next m => OpenAiLib.role m = "assistant" /\ OpenAiLib.threadId m = thread /\
              OpenAiLib.runId m = run_id run2 /\ run_status run2 = "completed"
  | Return _ => False
  | Throw e => is_Error e = true \/ exists e', messages_list openai = inl e'
  end.
Proof.
  enough (H : wp (OpenAiLib.reply openai thread run2)
                (fun o _ =>
                   match o with
                   | Next m =>
                       OpenAiLib.role m = "assistant" /\ OpenAiLib.threadId m = thread /\
                       OpenAiLib.runId m = run_id run2 /\ run_status run2 = "completed"
                   | Return _ => False
                   | Throw e => is_Error e = true \/ exists e', messages_list openai = inl e'
                   end) w) by exact H.
  unfold OpenAiLib.reply. wp_run.
  all: cbn; try (now left); try (right; eexists; reflexivity).
  all: repeat split.
  all: match goal with
       | H : negb (_ =? "completed")%string = false |- _ =>
           apply negb_false_iff, String.eqb_eq in H; exact H
       end.
Qed.

End LibFacts.

(** X26.  [handleToolCalls] of the library never fails and never leaves a
    call unanswered: for every batch and every handler it returns one
    output per call, in the order of the calls and under their
    identifiers, and the output of a call whose arguments are not JSON is
    [{ error: 'Failed to parse function arguments' }]. *)
Theorem OpenAiLib_answers_every_tool_call P tcs handler w :
  exists outs w',
    OpenAiLib.handleToolCalls P tcs handler w = (Next outs, w') /\
    Forall2 (answered P) tcs outs.
Proof.
  destruct (lib_handleToolCalls_from_answered P handler tcs [] w) as (outs & w' & E & H).
  exists outs, w'. split; [exact E | exact H].
Qed.

Lemma yieldsF_bind {A B} (S : B -> Prop) (m : MF A) (k : A -> MF B) :
  (forall a, yieldsF S (k a)) -> yieldsF S (bindF m k).
Proof.
  intros Hk w o w' E. unfold bindF in E.
  destruct (m w) as [[[a|r|e] w1]|]; try discriminate.
  - exact (Hk a w1 o w' E).
  - injection E as <- <-. exact I.
  - injection E as <- <-. exact I.
Qed.

(** X27.  [runAssistant] of the library ends in one of two ways only.  It
    returns a message, which then has the role "assistant" and names the
    thread it was run on; or it throws an [Error]: the unwrapped
    configuration error when no assistant is configured (and then nothing
    has been done), and otherwise an error whose message starts with
    "Failed to run assistant: ", whatever failed inside (the service, the
    time limit, a missing handler, the status of the run). *)
Theorem OpenAiLib_runAssistant_outcome
    P env openai now fuel thread handler maxWaitTime w o w' :
  OpenAiLib.runAssistant P env openai now fuel thread handler maxWaitTime w = Some (o, w') ->
  match o with
  | Next reply =>
      OpenAiLib.role reply = "assistant" /\ OpenAiLib.threadId reply = thread
  | Return _ => False
  | Throw e =>
      if str_truthy (OpenAiLib.OPENAI_ASSISTANT_ID env)
      then exists msg, e = Error ("Failed to run assistant: " ++ msg)
      else e = Error "OPENAI_ASSISTANT_ID environment variable is not set" /\ w' = w
  end.
Proof.
  unfold OpenAiLib.runAssistant.
  destruct (str_truthy (OpenAiLib.OPENAI_ASSISTANT_ID env)); cbn [negb].
  2: { intros E. injection E as <- <-. split; reflexivity. }
  unfold try_catchF.
  match goal with
  | |- match ?body w with _ => _ end = _ -> _ =>
      assert (Hsteady : steadyF any_world body);
        [| assert (Hyields : yieldsF (fun m => OpenAiLib.role m = "assistant" /\
                                               OpenAiLib.threadId m = thread) body);
           [| destruct (body w) as [[[m|r|e] w1]|] eqn:Eb ] ]
  end.
  - apply steadyF_bind; [exact _ | |].
    { apply steadyF_lift. intros w0. split; [exact I | discriminate]. }
    intros _. apply steadyF_bind; [exact _ | apply steadyF_lift, steady_call; exact _ |].
    intros run. apply steadyF_bind; [exact _ | apply lib_poll_steady |].
    intros polled. apply steadyF_bind; [exact _ | apply lib_dispatch_steady |].
    intros run2. apply steadyF_lift. intros w0. split; [exact I |]. intros r Hr.
    pose proof (reply_outcome openai thread run2 w0) as H. now rewrite Hr in H.
  - apply yieldsF_bind. intros _. apply yieldsF_bind. intros run.
    apply yieldsF_bind. intros polled. apply yieldsF_bind. intros run2.
    intros w0 o0 w0' E. unfold lift in E. injection E as E.
    pose proof (reply_outcome openai thread run2 w0) as H. rewrite E in H. cbn [fst] in H.
    destruct o0; try exact I. split; apply H.
  - intros E. injection E as <- <-. exact (Hyields w _ _ Eb).
  - destruct (Hsteady w _ _ Eb) as [_ Hn]. now destruct (Hn r).
  - unfold OpenAiLib.wrap_error, lift, bind, log, throw. intros E. injection E as <- <-.
    eexists. reflexivity.
  - discriminate.
Qed.

Lemma OpenAiLib_runAssistant_outcome_witness :
  match
    OpenAiLib.runAssistant Samples.platform Samples.lib_env Samples.stuck_service
      Samples.ticking 62 "thread-1" (Some Samples.echo_handler) 60 Samples.world
  with
  | Some (Throw e, _) => exists msg, e = Error ("Failed to run assistant: " ++ msg)
  | _ => False
  end.
Proof.
  destruct (OpenAiLib.runAssistant Samples.platform Samples.lib_env Samples.stuck_service
              Samples.ticking 62 "thread-1" (Some Samples.echo_handler) 60 Samples.world)
    as [[[m|r|e] w']|] eqn:E; try (vm_compute in E; discriminate E).
  exact (OpenAiLib_runAssistant_outcome Samples.platform Samples.lib_env
           Samples.stuck_service Samples.ticking 62 "thread-1"
           (Some Samples.echo_handler) 60%Z Samples.world (Throw e) w' E).
Defined.

(* ================================================================= *)
(** ** The message of the shared-secret webhook *)

(** X10.  [createSystemMessage] treats the status "ended" as "completed";
    the result of the call reaches the text only when the status is
    "failed", and a failed call without a (truthy) reason is reported as
    "Unknown error". *)
Theorem createSystemMessage_statuses booking w :
  (forall result result',
      BookingCallbackSecret.createSystemMessage (str "ended") booking result w
      = BookingCallbackSecret.createSystemMessage (str "completed") booking result' w) /\
  (forall status result result',
      status <> str "failed" ->
      BookingCallbackSecret.createSystemMessage status booking result w
      = BookingCallbackSecret.createSystemMessage status booking result' w) /\
  (forall result,
      truthy (BookingCallbackSecret.opt_chain "reason" result) = false ->
      b_details booking <> JNull ->
      fst (BookingCallbackSecret.createSystemMessage (str "failed") booking result w)
      = Next ("❌ Sorry, we couldn't complete your booking. Unknown error"
                ++ ". Would you like me to try again or call them directly at "
                ++ to_string (get "phoneNumber" (b_details booking)) ++ "?")).
Proof.
  split; [| split].
  - intros result result'.
    unfold BookingCallbackSecret.createSystemMessage, bind, prop, ret.
    destruct (b_details booking); reflexivity.
  - intros status result result' H. apply is_string_other in H.
    unfold BookingCallbackSecret.createSystemMessage, bind, prop, ret.
    destruct (b_details booking); try reflexivity; cbv beta iota; rewrite H; reflexivity.
  - intros result Hreason Hdetails.
    unfold BookingCallbackSecret.createSystemMessage, bind, prop, ret.
    destruct (b_details booking); try contradiction; cbv beta iota;
      unfold or_else; rewrite Hreason; reflexivity.
Qed.

Lemma createSystemMessage_statuses_witness :
  BookingCallbackSecret.createSystemMessage (str "voicemail") Scenarios.booking_with_phone
    (Some (JObj [("reason", JStr "ignored")])) Samples.world
  = BookingCallbackSecret.createSystemMessage (str "voicemail")
      Scenarios.booking_with_phone None Samples.world /\
  fst (BookingCallbackSecret.createSystemMessage (str "failed")
         Scenarios.booking_with_phone (Some (JObj [])) Samples.world)
  = Next ("❌ Sorry, we couldn't complete your booking. Unknown error"
            ++ ". Would you like me to try again or call them directly at "
            ++ "+12125551234" ++ "?").
Proof.
  destruct (createSystemMessage_statuses Scenarios.booking_with_phone Samples.world)
    as (_ & Hother & Hfailed).
  split.
  - apply Hother. discriminate.
  - apply (Hfailed (Some (JObj []))); [reflexivity | discriminate].
Defined.

(* ================================================================= *)
(** ** The earlier [runAssistant]: a run that requires action without calls *)

Section LegacyFacts.

Variable P : Platform.
Variable env : OpenAiLegacy.Env.
Variable openai : Service.

Lemma legacy_poll_settled fuel run w :
  pending (run_status run) = false ->
  OpenAiLegacy.poll openai fuel run w = Some (Next run, w).
Proof. intros H. destruct fuel; simpl; rewrite H; reflexivity. Qed.

Lemma legacy_act_spins run :
  run_status run = "requires_action" ->
  tool_calls run = None ->
  forall fuel w, OpenAiLegacy.act P openai fuel run w = None.
Proof.
  intros Hstatus Hcalls.
  assert (Hp : pending (run_status run) = false) by (rewrite Hstatus; reflexivity).
  induction fuel as [|fuel IH]; intros w; simpl; rewrite Hstatus, String.eqb_refl;
    [reflexivity |].
  rewrite Hcalls. unfold bindF at 1. unfold lift at 1. cbn [ret].
  unfold bindF at 1. rewrite (legacy_poll_settled fuel run w Hp). apply IH.
Qed.

End LegacyFacts.

(** X28.  The earlier [runAssistant] has a loop that never ends: when a run
    is in status "requires_action" and carries no list of tool calls, the
    loop [while (run.status === 'requires_action')] submits nothing, waits
    for nothing and finds the same status again, so the function returns
    for no amount of fuel. *)
Theorem OpenAiLegacy_requires_action_without_calls_never_ends
    P env openai thread run fuel w :
  str_truthy (OpenAiLegacy.OPENAI_ASSISTANT_ID env) = true ->
  runs_create openai thread = inr run ->
  run_status run = "requires_action" ->
  tool_calls run = None ->
  OpenAiLegacy.runAssistant P env openai fuel thread w = None.
Proof.
  intros Hid Hcreate Hstatus Hcalls.
  assert (Hp : pending (run_status run) = false) by (rewrite Hstatus; reflexivity).
  unfold OpenAiLegacy.runAssistant. rewrite Hid. cbn [negb].
  unfold bindF at 1. unfold lift at 1, call. rewrite Hcreate. cbn [ret].
  unfold bindF at 1. rewrite (legacy_poll_settled openai fuel run w Hp).
  unfold bindF at 1. now rewrite (legacy_act_spins P openai run Hstatus Hcalls fuel w).
Qed.

Lemma OpenAiLegacy_requires_action_without_calls_never_ends_witness :
  OpenAiLegacy.runAssistant Samples.platform Samples.legacy_lib_env
    Scenarios.action_without_calls 1000 "thread-1" Samples.world
  = None.
Proof.
  apply (OpenAiLegacy_requires_action_without_calls_never_ends Samples.platform
           Samples.legacy_lib_env Scenarios.action_without_calls "thread-1"
           (Samples.run_in "requires_action" None) 1000 Samples.world);
    reflexivity.
Defined.

(* ================================================================= *)
(** ** The two phone patterns *)

Lemma length_list_ascii_of_string s :
  length (list_ascii_of_string s) = String.length s.
Proof. induction s; simpl; auto. Qed.

(** X29.  The pattern of the current booking-start route is the stricter
    one: every number it accepts is accepted by [isValidE164PhoneNumber] of
    the earlier handler and is 9 to 16 characters long, while the earlier
    pattern also accepts numbers the current route refuses. *)
Theorem phoneRegex_stricter_than_e164Regex :
  (forall s,
      test phoneRegex s = true ->
      isValidE164PhoneNumber s = true /\ 9 <= String.length s <= 16) /\
  (exists s, isValidE164PhoneNumber s = true /\ test phoneRegex s = false).
Proof.
  split.
  - intros s H. apply phoneRegex_test in H. split.
    + apply isValidE164PhoneNumber_spec. unfold spec_e164.
      apply (plus_digits_weaken 7 1 14); [lia | exact H].
    + destruct H as (d & ds & Hw & _ & _ & Hlen).
      rewrite <- length_list_ascii_of_string, Hw. simpl. lia.
  - exists "+12345". split; reflexivity.
Qed.

Lemma phoneRegex_stricter_than_e164Regex_witness :
  isValidE164PhoneNumber "+12125551234" = true /\ 9 <= String.length "+12125551234" <= 16.
Proof.
  apply (proj1 phoneRegex_stricter_than_e164Regex "+12125551234"). reflexivity.
Defined.

(* ================================================================= *)
(** ** The message box of the chat page *)

Module ChatInputFacts.

Import ChatInput.

#[local] Open Scope list_scope.

(** [trimStart] drops a run of white space from the front. *)
Lemma trimStart_split s :
  exists ws, s = ws ++ trimStart s /\ Forall (fun c => is_white_space c = true) ws.
Proof.
  induction s as [|c s (ws & Hs & Hws)]; simpl.
  - exists []. split; [reflexivity | constructor].
  - destruct (is_white_space c) eqn:E.
    + exists (c :: ws). split; [simpl; now rewrite <- Hs | now constructor].
    + exists []. split; [reflexivity | constructor].
Qed.

Lemma trimStart_head s c rest :
  trimStart s = c :: rest -> is_white_space c = false.
Proof.
  induction s as [|a s IH]; simpl; [discriminate |].
  destruct (is_white_space a) eqn:E; [exact IH |].
  intros H. injection H as <- _. exact E.
Qed.

(** [trimEnd] drops a run of white space from the back. *)
Lemma trimEnd_split s :
  exists ws, s = trimEnd s ++ ws /\ Forall (fun c => is_white_space c = true) ws.
Proof.
  destruct (trimStart_split (rev s)) as (ws & Hs & Hws).
  exists (rev ws). split.
  - unfold trimEnd. rewrite <- rev_app_distr, <- Hs. now rewrite rev_involutive.
  - apply Forall_rev. exact Hws.
Qed.

Lemma trimEnd_last s front c :
  trimEnd s = front ++ [c] -> is_white_space c = false.
Proof.
  unfold trimEnd. intros H.
  assert (H' : trimStart (rev s) = c :: rev front).
  { rewrite <- (rev_involutive (trimStart (rev s))), H, rev_app_distr. reflexivity. }
  exact (trimStart_head _ _ _ H').
Qed.

Lemma trim_first s c rest : trim s = c :: rest -> is_white_space c = false.
Proof.
  unfold trim. intros H.
  destruct (trimEnd_split (trimStart s)) as (ws & Hs & _).
  rewrite H in Hs. simpl in Hs. exact (trimStart_head _ _ _ Hs).
Qed.

Lemma trim_last s front c : trim s = front ++ [c] -> is_white_space c = false.
Proof. unfold trim. apply trimEnd_last. Qed.

End ChatInputFacts.

(** X30.  The message box never sends a blank message.  Whatever the text
    of the box and whatever key is pressed, [onSend] is called at most
    once, only for the Enter key without Shift and only when the box is not
    disabled; the text it is called with is the trimmed text of the box,
    which is then not empty and neither starts nor ends with white space;
    and the box is emptied by the send. *)
Theorem ChatInput_never_sends_blank disabled e st :
  let '(st', prevented) := ChatInput.handleKeyDown disabled e st in
  (ChatInput.onSend st' = ChatInput.onSend st /\ ChatInput.message st' = ChatInput.message st)
  \/
  (exists sent,
      ChatInput.onSend st' = (ChatInput.onSend st ++ [sent])%list /\
      sent = ChatInput.trim (ChatInput.message st) /\
      sent <> [] /\
      (forall c rest, sent = c :: rest -> ChatInput.is_white_space c = false) /\
      (forall front c, sent = (front ++ [c])%list -> ChatInput.is_white_space c = false) /\
      ChatInput.message st' = [] /\
      disabled = false /\
      ChatInput.key e = "Enter" /\ ChatInput.shiftKey e = false /\ prevented = true).
Proof.
  unfold ChatInput.handleKeyDown.
  destruct ((ChatInput.key e =? "Enter")%string && negb (ChatInput.shiftKey e)) eqn:Ekey;
    [| left; split; reflexivity].
  apply andb_true_iff in Ekey as [Hkey Hshift].
  apply String.eqb_eq in Hkey. apply negb_true_iff in Hshift.
  unfold ChatInput.handleSend.
  destruct (ChatInput.nonempty (ChatInput.trim (ChatInput.message st)) && negb disabled)
    eqn:Esend; [| left; split; reflexivity].
  apply andb_true_iff in Esend as [Hne Hdis]. apply negb_true_iff in Hdis.
  right. exists (ChatInput.trim (ChatInput.message st)). cbn [ChatInput.onSend ChatInput.message].
  repeat split; auto.
  - intros Hnil. rewrite Hnil in Hne. discriminate Hne.
  - intros c rest H. exact (ChatInputFacts.trim_first _ _ _ H).
  - intros front c H. exact (ChatInputFacts.trim_last _ _ _ H).
Qed.
